(** * The OpenThread flash settings driver (src/core/utils/flash.cpp)

    A shallow embedding of the log-structured key/value store that the
    class [ot::Flash] keeps in two flash swap areas, followed by the
    properties of its operations.

    Integers of the C++ code are modelled by [Z] with their wrap-around
    written out ([wrap8], [wrap16], [wrap32]); a byte is a [Z] in
    [0, 256).  The flash is a total map from a swap index and a byte
    offset to a byte.  Loops over the record log carry a fuel argument,
    because a record whose length field makes [GetSize] return 0 lets the
    C++ loops spin forever. *)

From Stdlib Require Import ZArith List Bool Lia.
Import ListNotations.
Local Open Scope Z_scope.

(** ** Machine integers *)

Definition wrap8 (x : Z) : Z := x mod 256.
Definition wrap16 (x : Z) : Z := x mod 65536.
Definition wrap32 (x : Z) : Z := x mod 4294967296.

Definition is_byte (b : Z) : Prop := 0 <= b < 256.
Definition is_u16 (x : Z) : Prop := 0 <= x < 65536.

(** Little-endian packing of the packed structures. *)
Definition lo8 (x : Z) : Z := x mod 256.
Definition hi8 (x : Z) : Z := (x / 256) mod 256.
Definition le16 (b0 b1 : Z) : Z := b0 + 256 * b1.
Definition le32 (b0 b1 b2 b3 : Z) : Z :=
  b0 + 256 * b1 + 65536 * b2 + 16777216 * b3.

Definition kFlashWordSize : Z := 4.

(** ** Results of a call *)

Inductive otError : Type :=
| OT_ERROR_NONE
| OT_ERROR_NO_BUFS
| OT_ERROR_NOT_FOUND.

Definition otError_eqb (a b : otError) : bool :=
  match a, b with
  | OT_ERROR_NONE, OT_ERROR_NONE => true
  | OT_ERROR_NO_BUFS, OT_ERROR_NO_BUFS => true
  | OT_ERROR_NOT_FOUND, OT_ERROR_NOT_FOUND => true
  | _, _ => false
  end.

(** A call returns ([Done]), aborts in [OT_ASSERT] ([AssertFailed]), or
    has not left its loop when the fuel is used up ([OutOfFuel]). *)
Inductive outcome (A : Type) : Type :=
| Done (a : A)
| AssertFailed
| OutOfFuel.

Arguments Done {A} a.
Arguments AssertFailed {A}.
Arguments OutOfFuel {A}.

Definition bind {A B : Type} (c : outcome A) (k : A -> outcome B) : outcome B :=
  match c with
  | Done a => k a
  | AssertFailed => AssertFailed
  | OutOfFuel => OutOfFuel
  end.

Definition OT_ASSERT (b : bool) : outcome unit :=
  if b then Done tt else AssertFailed.

Notation "x <- c ;; k" := (bind c (fun x => k))
  (at level 61, c at next level, right associativity).
Notation "c ;;; k" := (bind c (fun _ => k))
  (at level 61, right associativity).

(** ** class SwapHeader *)

Module SwapHeader.

Definition kActive : Z := 0xbe5cc5ee.
Definition kInactive : Z := 0xbe5cc5ec.
Definition kMarkerInit : Z := kActive.

Record t : Type := mk { mMarker : Z }.

Definition IsActive (h : t) : bool := mMarker h =? kActive.
Definition SetActive (_ : t) : t := mk kActive.
Definition SetInactive (_ : t) : t := mk kInactive.

(** [sizeof(mMarker)], returned as [uint8_t]. *)
Definition GetSize (_ : t) : Z := wrap8 4.

Definition sizeof : Z := 4.

Definition bytes (h : t) : list Z :=
  let m := mMarker h in
  [m mod 256; (m / 256) mod 256; (m / 65536) mod 256; (m / 16777216) mod 256].

Definition of_bytes (l : list Z) : t :=
  match l with
  | [b0; b1; b2; b3] => mk (le32 b0 b1 b2 b3)
  | _ => mk 0
  end.

End SwapHeader.

(** ** class RecordHeader *)

Module RecordHeader.

Definition kFlagsInit : Z := 0xffff.
Definition kFlagAddBegin : Z := Z.shiftl 1 0.
Definition kFlagAddComplete : Z := Z.shiftl 1 1.
Definition kFlagDelete : Z := Z.shiftl 1 2.
Definition kFlagFirst : Z := Z.shiftl 1 3.

Record t : Type := mk {
  mKey : Z;
  mFlags : Z;
  mLength : Z;
  mReserved : Z
}.

Definition sizeof : Z := 8.

(** [mFlags &= ~flag] on a [uint16_t]. *)
Definition clear (flags flag : Z) : Z := wrap16 (Z.land flags (Z.lnot flag)).

Definition Init (aKey : Z) (aFirst : bool) : t :=
  let mFlags := wrap16 (Z.land kFlagsInit (Z.lnot kFlagAddBegin)) in
  let mFlags := if aFirst then clear mFlags kFlagFirst else mFlags in
  mk aKey mFlags 0 0xffff.

Definition GetKey (h : t) : Z := mKey h.
Definition SetKey (h : t) (aKey : Z) : t :=
  mk aKey (mFlags h) (mLength h) (mReserved h).

Definition GetLength (h : t) : Z := mLength h.
Definition SetLength (h : t) (aLength : Z) : t :=
  mk (mKey h) (mFlags h) aLength (mReserved h).

Definition with_flags (h : t) (f : Z) : t :=
  mk (mKey h) f (mLength h) (mReserved h).

(** The size of the header plus [(mLength + 3) & 0xfffc], returned as
    [uint16_t]. *)
Definition GetSize (h : t) : Z :=
  wrap16 (sizeof + Z.land (mLength h + 3) 0xfffc).

Definition IsValid (h : t) : bool :=
  Z.land (mFlags h) (Z.lor kFlagAddComplete kFlagDelete) =? kFlagDelete.

Definition IsAddBeginSet (h : t) : bool := Z.land (mFlags h) kFlagAddBegin =? 0.
Definition SetAddBeginFlag (h : t) : t := with_flags h (clear (mFlags h) kFlagAddBegin).

Definition IsAddCompleteSet (h : t) : bool := Z.land (mFlags h) kFlagAddComplete =? 0.
Definition SetAddCompleteFlag (h : t) : t := with_flags h (clear (mFlags h) kFlagAddComplete).

Definition IsDeleted (h : t) : bool := Z.land (mFlags h) kFlagDelete =? 0.
Definition SetDeleted (h : t) : t := with_flags h (clear (mFlags h) kFlagDelete).

Definition IsFirst (h : t) : bool := Z.land (mFlags h) kFlagFirst =? 0.
Definition SetFirst (h : t) : t := with_flags h (clear (mFlags h) kFlagFirst).

(** The packed layout: four little-endian [uint16_t]. *)
Definition bytes (h : t) : list Z :=
  [lo8 (mKey h); hi8 (mKey h); lo8 (mFlags h); hi8 (mFlags h);
   lo8 (mLength h); hi8 (mLength h); lo8 (mReserved h); hi8 (mReserved h)].

Definition of_bytes (l : list Z) : t :=
  match l with
  | [k0; k1; f0; f1; l0; l1; r0; r1] =>
      mk (le16 k0 k1) (le16 f0 f1) (le16 l0 l1) (le16 r0 r1)
  | _ => mk 0 0 0 0
  end.

End RecordHeader.

(** ** class Record : public RecordHeader *)

Module Record_.

Definition kMaxDataSize : Z := 256.

Record t : Type := mk {
  header : RecordHeader.t;
  mData : list Z
}.

Definition sizeof : Z := RecordHeader.sizeof + kMaxDataSize.

(** A local [Record record;] is not initialised: its 256 data bytes are
    whatever the stack holds, here the bytes [junk i mod 256]. *)
Definition uninitialized (junk : nat -> Z) : list Z :=
  map (fun i => junk i mod 256) (seq 0 256).

Definition memcpy (dst src : list Z) : list Z := src ++ skipn (length src) dst.

Definition GetData (r : t) : list Z := mData r.

Definition SetData (r : t) (aData : list Z) (aDataLength : Z) : outcome t :=
  OT_ASSERT (aDataLength <=? kMaxDataSize) ;;;
  Done (mk (RecordHeader.SetLength (header r) aDataLength) (memcpy (mData r) aData)).

(** The first [n] bytes of the object, as [otPlatFlashWrite] sees them. *)
Definition bytes (r : t) (n : Z) : list Z :=
  firstn (Z.to_nat n) (RecordHeader.bytes (header r) ++ mData r).

End Record_.

(** ** The driver state and the platform flash *)

(** The fields of [class Flash] (the header also declares [mFormat], which
    flash.cpp never reads or writes), together with what the platform
    holds: the size of a swap area and the flash cells. *)
Record Flash : Type := mkFlash {
  platSwapSize : Z;
  platFlash : Z -> Z -> Z;
  mSwapSize : Z;
  mSwapUsed : Z;
  mSwapIndex : Z;
  mSwapHeaderSize : Z
}.

Definition with_flash (s : Flash) (f : Z -> Z -> Z) : Flash :=
  mkFlash (platSwapSize s) f (mSwapSize s) (mSwapUsed s) (mSwapIndex s) (mSwapHeaderSize s).
Definition with_mSwapSize (s : Flash) (v : Z) : Flash :=
  mkFlash (platSwapSize s) (platFlash s) v (mSwapUsed s) (mSwapIndex s) (mSwapHeaderSize s).
Definition with_mSwapUsed (s : Flash) (v : Z) : Flash :=
  mkFlash (platSwapSize s) (platFlash s) (mSwapSize s) v (mSwapIndex s) (mSwapHeaderSize s).
Definition with_mSwapIndex (s : Flash) (v : Z) : Flash :=
  mkFlash (platSwapSize s) (platFlash s) (mSwapSize s) (mSwapUsed s) v (mSwapHeaderSize s).
Definition with_mSwapHeaderSize (s : Flash) (v : Z) : Flash :=
  mkFlash (platSwapSize s) (platFlash s) (mSwapSize s) (mSwapUsed s) (mSwapIndex s) v.

(** [n] consecutive cells of one swap area, from [off] on. *)
Definition read (mem : Z -> Z) (off : Z) (n : nat) : list Z :=
  map (fun i => mem (off + Z.of_nat i)) (seq 0 n).

(** Modelled from the spec: the platform primitive [otPlatFlashGetSwapSize]
    (its implementation is not part of the driver): the size of each swap
    area, a [uint32_t]. *)
Definition otPlatFlashGetSwapSize (s : Flash) : Z := wrap32 (platSwapSize s).

(** Modelled from the spec: the platform primitive [otPlatFlashErase]:
    "erase an entire region to all-ones". *)
Definition otPlatFlashErase (s : Flash) (aSwapIndex : Z) : Flash :=
  with_flash s (fun i o =>
    if (i =? aSwapIndex) && (0 <=? o) && (o <? platSwapSize s)
    then 0xff else platFlash s i o).

(** Modelled from the spec: the platform primitive [otPlatFlashRead]:
    a synchronous read of [aSize] bytes. *)
Definition otPlatFlashRead (s : Flash) (aSwapIndex aOffset aSize : Z) : list Z :=
  read (platFlash s aSwapIndex) aOffset (Z.to_nat aSize).

(** Modelled from the spec: the platform primitive [otPlatFlashWrite]:
    a write can only clear bits (1 to 0), so a cell becomes the bitwise
    AND of what it held and the byte written. *)
Definition otPlatFlashWrite (s : Flash) (aSwapIndex aOffset : Z) (aData : list Z) : Flash :=
  with_flash s (fun i o =>
    if (i =? aSwapIndex) && (aOffset <=? o) && (o <? aOffset + Z.of_nat (length aData))
    then Z.land (platFlash s i o) (nth (Z.to_nat (o - aOffset)) aData 0xff)
    else platFlash s i o).

Definition readRecordHeader (s : Flash) (aOffset : Z) : RecordHeader.t :=
  RecordHeader.of_bytes (otPlatFlashRead s (mSwapIndex s) aOffset RecordHeader.sizeof).

Definition readSwapHeader (s : Flash) (aSwapIndex : Z) : SwapHeader.t :=
  SwapHeader.of_bytes (otPlatFlashRead s aSwapIndex 0 SwapHeader.sizeof).

(** ** Flash::Get *)

(** The locals of [Get] that the loop updates; [gValue] is the caller's
    buffer [aValue] ([None] for [nullptr]). *)
Record GetLocals : Type := mkGet {
  gError : otError;
  gValueLength : Z;
  gIndex : Z;
  gValue : option (list Z)
}.

(** The body of the loop of [Get] for one record header; [payload n] is
    what [otPlatFlashRead] returns for the [n] bytes behind the header.
    [aValueLength] is the value of [*aValueLength] at the call ([None]
    for [nullptr]).  [index] is a C [int]; it counts records of a log
    that has fewer than 2^30 of them, so it cannot overflow. *)
Definition Get_body (aKey aIndex : Z) (aValueLength : option Z)
    (record : RecordHeader.t) (payload : Z -> list Z) (l : GetLocals) : GetLocals :=
  if negb (RecordHeader.GetKey record =? aKey) || negb (RecordHeader.IsValid record)
  then l
  else
    let index := if RecordHeader.IsFirst record then 0 else gIndex l in
    if index =? aIndex then
      let value :=
        match gValue l, aValueLength with
        | Some buf, Some len =>
            let readLength :=
              if len >? RecordHeader.GetLength record
              then RecordHeader.GetLength record else len in
            Some (Record_.memcpy buf (payload readLength))
        | v, _ => v
        end in
      mkGet OT_ERROR_NONE (RecordHeader.GetLength record) (index + 1) value
    else
      mkGet (gError l) (gValueLength l) (index + 1) (gValue l).

Fixpoint Get_loop (fuel : nat) (s : Flash) (aKey aIndex : Z) (aValueLength : option Z)
    (offset : Z) (l : GetLocals) : outcome GetLocals :=
  match fuel with
  | O => OutOfFuel
  | S fuel' =>
      if offset <? mSwapUsed s then
        let record := readRecordHeader s offset in
        let payload := otPlatFlashRead s (mSwapIndex s) (wrap32 (offset + RecordHeader.sizeof)) in
        Get_loop fuel' s aKey aIndex aValueLength
          (wrap32 (offset + RecordHeader.GetSize record))
          (Get_body aKey aIndex aValueLength record payload l)
      else Done l
  end.

(** The result is the error code, the buffer behind [aValue] and the
    value behind [aValueLength] at return. *)
Definition Get (fuel : nat) (s : Flash) (aKey aIndex : Z)
    (aValue : option (list Z)) (aValueLength : option Z)
  : outcome (otError * option (list Z) * option Z) :=
  l <- Get_loop fuel s aKey aIndex aValueLength (mSwapHeaderSize s)
         (mkGet OT_ERROR_NOT_FOUND 0 0 aValue) ;;
  Done (gError l, gValue l,
        match aValueLength with Some _ => Some (gValueLength l) | None => None end).

(** ** Flash::DoesValidRecordExist *)

Fixpoint DoesValidRecordExist (fuel : nat) (s : Flash) (aOffset aKey : Z) : outcome bool :=
  match fuel with
  | O => OutOfFuel
  | S fuel' =>
      if aOffset <? mSwapUsed s then
        let record := readRecordHeader s aOffset in
        if RecordHeader.IsValid record && RecordHeader.IsFirst record
           && (RecordHeader.GetKey record =? aKey)
        then Done true
        else DoesValidRecordExist fuel' s (wrap32 (aOffset + RecordHeader.GetSize record)) aKey
      else Done false
  end.

(** ** Flash::Swap *)

(** The loop of [Swap]; the result is the flash and [dstOffset].  The
    second read of the body fills the local record with the
    [GetSize()] bytes at [srcOffset], whose first bytes are the header
    just read, so the header of the local is unchanged and the bytes
    written are the bytes read. *)
Fixpoint Swap_loop (fuel : nat) (s : Flash) (dstIndex srcOffset dstOffset : Z)
  : outcome (Flash * Z) :=
  match fuel with
  | O => OutOfFuel
  | S fuel' =>
      if srcOffset <? mSwapUsed s then
        let record := readRecordHeader s srcOffset in
        if negb (RecordHeader.IsAddBeginSet record) then Done (s, dstOffset)
        else
          let next := wrap32 (srcOffset + RecordHeader.GetSize record) in
          skip <- (if negb (RecordHeader.IsValid record) then Done true
                   else DoesValidRecordExist fuel s next (RecordHeader.GetKey record)) ;;
          if (skip : bool) then Swap_loop fuel' s dstIndex next dstOffset
          else
            let data := otPlatFlashRead s (mSwapIndex s) srcOffset (RecordHeader.GetSize record) in
            let s := otPlatFlashWrite s dstIndex dstOffset data in
            Swap_loop fuel' s dstIndex next (wrap32 (dstOffset + RecordHeader.GetSize record))
      else Done (s, dstOffset)
  end.

Definition Swap (fuel : nat) (s : Flash) : outcome Flash :=
  let dstIndex := if mSwapIndex s =? 0 then 1 else 0 in
  let dstOffset := mSwapHeaderSize s in
  let s := otPlatFlashErase s dstIndex in
  r <- Swap_loop fuel s dstIndex (mSwapHeaderSize s) dstOffset ;;
  let '(s, dstOffset) := r in
  let swapHeader := SwapHeader.SetActive (SwapHeader.mk 0) in
  let s := otPlatFlashWrite s dstIndex 0 (SwapHeader.bytes swapHeader) in
  let swapHeader := SwapHeader.SetInactive swapHeader in
  let s := otPlatFlashWrite s (mSwapIndex s) 0 (SwapHeader.bytes swapHeader) in
  Done (with_mSwapUsed (with_mSwapIndex s dstIndex) dstOffset).

(** ** Flash::Add and Flash::Set *)

(** [Add(aKey, aFirst, aValue, aValueLength)]; [aValueLength] is the
    length of the list [aValue], and [junk] fixes the bytes of the local
    record that [SetData] does not overwrite.  [Add_write] is the tail of
    the function: the two writes and the update of [mSwapUsed]. *)
Definition Add_write (s : Flash) (record : Record_.t) : Flash :=
  let size := RecordHeader.GetSize (Record_.header record) in
  let s := otPlatFlashWrite s (mSwapIndex s) (mSwapUsed s) (Record_.bytes record size) in
  let record := Record_.mk (RecordHeader.SetAddCompleteFlag (Record_.header record))
                           (Record_.mData record) in
  let s := otPlatFlashWrite s (mSwapIndex s) (mSwapUsed s)
             (Record_.bytes record RecordHeader.sizeof) in
  with_mSwapUsed s (wrap32 (mSwapUsed s + size)).

Definition Add (fuel : nat) (s : Flash) (aKey : Z) (aFirst : bool)
    (aValue : list Z) (junk : nat -> Z) : outcome (otError * Flash) :=
  let aValueLength := Z.of_nat (length aValue) in
  let record := Record_.mk (RecordHeader.Init aKey aFirst) (Record_.uninitialized junk) in
  record <- Record_.SetData record aValue aValueLength ;;
  let size := RecordHeader.GetSize (Record_.header record) in
  OT_ASSERT (wrap32 (mSwapSize s - size) >=? mSwapHeaderSize s) ;;;
  r <- (if wrap32 (mSwapSize s - size) <? mSwapUsed s then
          s' <- Swap fuel s ;;
          Done (s', wrap32 (mSwapSize s' - size) >=? mSwapUsed s')
        else Done (s, true)) ;;
  let '(s, fits) := r in
  if (fits : bool) then Done (OT_ERROR_NONE, Add_write s record)
  else Done (OT_ERROR_NO_BUFS, s).

(** [Flash::Set]; [Set] is a keyword of Rocq. *)
Definition Set_ (fuel : nat) (s : Flash) (aKey : Z) (aValue : list Z) (junk : nat -> Z)
  : outcome (otError * Flash) :=
  Add fuel s aKey true aValue junk.

(** [Add(aKey, aValue, aValueLength)], the public append form as flash.cpp
    defines it: a probe with [Get(aKey, 0)] decides whether the record is
    the first of its key. *)
Definition AddAppend (fuel : nat) (s : Flash) (aKey : Z) (aValue : list Z) (junk : nat -> Z)
  : outcome (otError * Flash) :=
  r <- Get fuel s aKey 0 None None ;;
  let first := otError_eqb (fst (fst r)) OT_ERROR_NOT_FOUND in
  Add fuel s aKey first aValue junk.

(** ** Flash::Delete *)

Fixpoint Delete_loop (fuel : nat) (s : Flash) (aKey aIndex : Z)
    (offset index : Z) (error : otError) : outcome (otError * Flash) :=
  match fuel with
  | O => OutOfFuel
  | S fuel' =>
      if offset <? mSwapUsed s then
        let record := readRecordHeader s offset in
        if negb (RecordHeader.GetKey record =? aKey) || negb (RecordHeader.IsValid record)
        then Delete_loop fuel' s aKey aIndex
               (wrap32 (offset + RecordHeader.GetSize record)) index error
        else
          let index := if RecordHeader.IsFirst record then 0 else index in
          let '(record, s, error) :=
            if (aIndex =? index) || (aIndex =? -1) then
              let record := RecordHeader.SetDeleted record in
              (record,
               otPlatFlashWrite s (mSwapIndex s) offset (RecordHeader.bytes record),
               OT_ERROR_NONE)
            else (record, s, error) in
          let '(record, s) :=
            if (index =? 1) && (aIndex =? 0) then
              let record := RecordHeader.SetFirst record in
              (record, otPlatFlashWrite s (mSwapIndex s) offset (RecordHeader.bytes record))
            else (record, s) in
          Delete_loop fuel' s aKey aIndex
            (wrap32 (offset + RecordHeader.GetSize record)) (index + 1) error
      else Done (error, s)
  end.

Definition Delete (fuel : nat) (s : Flash) (aKey aIndex : Z) : outcome (otError * Flash) :=
  Delete_loop fuel s aKey aIndex (mSwapHeaderSize s) 0 OT_ERROR_NOT_FOUND.

(** ** Flash::Wipe *)

Definition Wipe (s : Flash) : Flash :=
  let swapHeader := SwapHeader.SetActive (SwapHeader.mk 0) in
  let s := otPlatFlashErase s 0 in
  let s := otPlatFlashWrite s 0 0 (SwapHeader.bytes swapHeader) in
  let s := with_mSwapIndex s 0 in
  let s := with_mSwapHeaderSize s (SwapHeader.GetSize swapHeader) in
  with_mSwapUsed s (mSwapHeaderSize s).

(** ** Flash::SanitizeFreeSpace *)

Definition readWord (s : Flash) (aOffset : Z) : Z :=
  match otPlatFlashRead s (mSwapIndex s) aOffset 4 with
  | [b0; b1; b2; b3] => le32 b0 b1 b2 b3
  | _ => 0
  end.

(** The loop of [SanitizeFreeSpace]; the result is [sanitizeNeeded]. *)
Fixpoint Sanitize_loop (fuel : nat) (s : Flash) (offset : Z) : outcome bool :=
  match fuel with
  | O => OutOfFuel
  | S fuel' =>
      if offset <? mSwapSize s then
        if negb (readWord s offset =? 0xffffffff) then Done true
        else Sanitize_loop fuel' s (wrap32 (offset + 4))
      else Done false
  end.

Definition SanitizeFreeSpace (fuel : nat) (s : Flash) : outcome Flash :=
  sanitizeNeeded <- (if negb (Z.land (mSwapUsed s) 3 =? 0) then Done true
                     else Sanitize_loop fuel s (mSwapUsed s)) ;;
  if (sanitizeNeeded : bool) then Swap fuel s else Done s.

(** ** Flash::Init *)

(** The second loop of [Init], which moves [mSwapUsed] over the records
    already written; the result is the final [mSwapUsed].  [sizeof] is a
    [size_t], taken to be 32 bits wide as on the embedded targets. *)
Fixpoint Init_scan (fuel : nat) (s : Flash) (used : Z) : outcome Z :=
  match fuel with
  | O => OutOfFuel
  | S fuel' =>
      if used <=? wrap32 (mSwapSize s - RecordHeader.sizeof) then
        let record := readRecordHeader s used in
        if negb (RecordHeader.IsAddBeginSet record) then Done used
        else if negb (RecordHeader.IsAddCompleteSet record) then Done used
        else Init_scan fuel' s (wrap32 (used + RecordHeader.GetSize record))
      else Done used
  end.

(** The first loop of [Init]: [mSwapIndex] runs over 0, 1 and stops at the
    first swap area whose header is active; [None] when it reaches 2. *)
Definition Init_select (s : Flash) : option Flash :=
  if SwapHeader.IsActive (readSwapHeader s 0) then
    Some (with_mSwapHeaderSize (with_mSwapIndex s 0)
            (SwapHeader.GetSize (readSwapHeader s 0)))
  else if SwapHeader.IsActive (readSwapHeader s 1) then
    Some (with_mSwapHeaderSize (with_mSwapIndex s 1)
            (SwapHeader.GetSize (readSwapHeader s 1)))
  else None.

Definition Init (fuel : nat) (s : Flash) : outcome Flash :=
  let s := with_mSwapSize s (otPlatFlashGetSwapSize s) in
  match Init_select s with
  | None => Done (Wipe (with_mSwapIndex s 2))
  | Some s =>
      used <- Init_scan fuel s (mSwapHeaderSize s) ;;
      SanitizeFreeSpace fuel (with_mSwapUsed s used)
  end.

(** ** The log as a list of records *)

(** A record as it lies in a swap area: its header and the payload bytes
    behind it, padding included. *)
Record entry : Type := mkEntry {
  eHeader : RecordHeader.t;
  ePayload : list Z
}.

(** The payload length rounded up to the flash word, and the size of a
    record: 8 + ceil(length / 4) * 4. *)
Definition padded (len : Z) : Z := 4 * ((len + 3) / 4).
Definition RecordSize (len : Z) : Z := 8 + padded len.

Definition wf_header (h : RecordHeader.t) : Prop :=
  is_u16 (RecordHeader.mKey h) /\ is_u16 (RecordHeader.mFlags h) /\
  0 <= RecordHeader.mLength h <= Record_.kMaxDataSize /\
  is_u16 (RecordHeader.mReserved h).

Definition wf_entry (e : entry) : Prop :=
  wf_header (eHeader e) /\
  Z.of_nat (length (ePayload e)) = padded (RecordHeader.mLength (eHeader e)) /\
  Forall is_byte (ePayload e).

Definition entry_bytes (e : entry) : list Z :=
  RecordHeader.bytes (eHeader e) ++ ePayload e.

Definition entry_size (e : entry) : Z := RecordHeader.GetSize (eHeader e).

Definition log_size (es : list entry) : Z :=
  fold_right (fun e n => entry_size e + n) 0 es.

(** The cells of [mem] from [off] on hold the records [es] back to back. *)
Fixpoint log_at (mem : Z -> Z) (off : Z) (es : list entry) : Prop :=
  match es with
  | [] => True
  | e :: es' =>
      wf_entry e /\
      read mem off (Z.to_nat (entry_size e)) = entry_bytes e /\
      log_at mem (off + entry_size e) es'
  end.

(** A record whose two-step write has finished. *)
Definition committed (e : entry) : Prop :=
  RecordHeader.IsAddBeginSet (eHeader e) = true /\
  RecordHeader.IsAddCompleteSet (eHeader e) = true.

(** The smallest swap area the driver is used with holds a swap header
    and one record of the largest size. *)
Definition kMinSwapSize : Z := SwapHeader.sizeof + Record_.sizeof.

Definition erased_from (s : Flash) (aSwapIndex from : Z) : Prop :=
  forall o, from <= o < mSwapSize s -> platFlash s aSwapIndex o = 0xff.

(** The store invariant: the active swap area holds the committed records
    [es] between the swap header and [mSwapUsed], and nothing but erased
    cells behind them. *)
Record wf_store (s : Flash) (es : list entry) : Prop := mkWf {
  wf_header_size : mSwapHeaderSize s = SwapHeader.sizeof;
  wf_index : mSwapIndex s = 0 \/ mSwapIndex s = 1;
  wf_plat : platSwapSize s = mSwapSize s;
  wf_size : kMinSwapSize <= mSwapSize s < 4294967296;
  wf_log : log_at (platFlash s (mSwapIndex s)) (mSwapHeaderSize s) es;
  wf_used : mSwapUsed s = mSwapHeaderSize s + log_size es;
  wf_fits : mSwapUsed s <= mSwapSize s;
  wf_committed : Forall committed es;
  wf_free : erased_from s (mSwapIndex s) (mSwapUsed s)
}.

(** The frontier invariant of the store. *)
Definition frontier (s : Flash) : Prop :=
  mSwapUsed s mod 4 = 0 /\
  mSwapHeaderSize s <= mSwapUsed s <= mSwapSize s /\
  forall o, mSwapUsed s <= o < mSwapSize s ->
            platFlash s (mSwapIndex s) o = 0xff.

(** Fuel that lets every loop of the driver over a swap area of this
    size finish. *)
Definition enough (fuel : nat) (s : Flash) : Prop :=
  (Z.to_nat (platSwapSize s) <= fuel)%nat.

(** *** The operations on the list of records *)

Definition entry_payload (e : entry) (n : Z) : list Z :=
  firstn (Z.to_nat n) (ePayload e).

(** [Get] over the records. *)
Definition Get_list (aKey aIndex : Z) (aValueLength : option Z)
    (es : list entry) (l : GetLocals) : GetLocals :=
  fold_left (fun l e => Get_body aKey aIndex aValueLength (eHeader e) (entry_payload e) l) es l.

(** [DoesValidRecordExist] over the records from some offset on. *)
Definition shadowed (aKey : Z) (es : list entry) : bool :=
  existsb (fun e => RecordHeader.IsValid (eHeader e) && RecordHeader.IsFirst (eHeader e)
                    && (RecordHeader.GetKey (eHeader e) =? aKey)) es.

(** The records that [Swap] copies. *)
Fixpoint compact (es : list entry) : list entry :=
  match es with
  | [] => []
  | e :: es' =>
      if negb (RecordHeader.IsValid (eHeader e))
         || shadowed (RecordHeader.GetKey (eHeader e)) es'
      then compact es'
      else e :: compact es'
  end.

(** The body of the loop of [Delete] on one record: the record as it is
    left in the flash, the next [index] and the next [error]. *)
Definition Delete_entry (aKey aIndex : Z) (e : entry) (index : Z) (error : otError)
  : entry * Z * otError :=
  let record := eHeader e in
  if negb (RecordHeader.GetKey record =? aKey) || negb (RecordHeader.IsValid record)
  then (e, index, error)
  else
    let index := if RecordHeader.IsFirst record then 0 else index in
    let '(record, error) :=
      if (aIndex =? index) || (aIndex =? -1)
      then (RecordHeader.SetDeleted record, OT_ERROR_NONE)
      else (record, error) in
    let record :=
      if (index =? 1) && (aIndex =? 0) then RecordHeader.SetFirst record else record in
    (mkEntry record (ePayload e), index + 1, error).

Fixpoint Delete_list (aKey aIndex : Z) (es : list entry) (index : Z) (error : otError)
  : list entry * otError :=
  match es with
  | [] => ([], error)
  | e :: es' =>
      let '(e', index', error') := Delete_entry aKey aIndex e index error in
      let '(es'', error'') := Delete_list aKey aIndex es' index' error' in
      (e' :: es'', error'')
  end.

(** The record that [Add] leaves in the flash. *)
Definition new_entry (aKey : Z) (aFirst : bool) (aValue : list Z) (junk : nat -> Z) : entry :=
  let len := Z.of_nat (length aValue) in
  let header :=
    RecordHeader.SetAddCompleteFlag
      (RecordHeader.SetLength (RecordHeader.Init aKey aFirst) len) in
  mkEntry header
    (firstn (Z.to_nat (padded len))
       (Record_.memcpy (Record_.uninitialized junk) aValue)).

(** Exhaustive check of a decidable property on an interval. *)
Fixpoint all_from (p : Z -> bool) (base : Z) (n : nat) : bool :=
  match n with
  | O => true
  | S n' => p base && all_from p (base + 1) n'
  end.

(** [GetSize] against the record size of the specification. *)
Definition size_check (len : Z) : bool :=
  wrap16 (RecordHeader.sizeof + Z.land (len + 3) 0xfffc) =? RecordSize len.

(** Two states that differ in the flash cells only. *)
Definition same_driver (s s' : Flash) : Prop :=
  platSwapSize s' = platSwapSize s /\ mSwapSize s' = mSwapSize s /\
  mSwapUsed s' = mSwapUsed s /\ mSwapIndex s' = mSwapIndex s /\
  mSwapHeaderSize s' = mSwapHeaderSize s.

(** What a hit of [Get] on a record with value [aValue] leaves in the
    caller's buffer. *)
Definition copy_out (value : option (list Z)) (aValueLength : option Z) (aValue : list Z)
  : option (list Z) :=
  match value, aValueLength with
  | Some buf, Some len =>
      Some (Record_.memcpy buf
              (firstn (Z.to_nat (Z.min len (Z.of_nat (length aValue)))) aValue))
  | v, _ => v
  end.

(** The log holds a valid record for the key. *)
Definition has_valid (aKey : Z) (es : list entry) : bool :=
  existsb (fun e => (RecordHeader.GetKey (eHeader e) =? aKey)
                    && RecordHeader.IsValid (eHeader e)) es.

(** [Add(aKey, V0); ...; Add(aKey, Vn)] through the public append form;
    each value comes with the junk of its call.  The result tells whether
    every call returned [OT_ERROR_NONE]. *)
Fixpoint AddAll (fuel : nat) (s : Flash) (aKey : Z) (vs : list (list Z * (nat -> Z)))
  : outcome (bool * Flash) :=
  match vs with
  | [] => Done (true, s)
  | v :: vs' =>
      r <- AddAppend fuel s aKey (fst v) (snd v) ;;
      r' <- AddAll fuel (snd r) aKey vs' ;;
      Done (otError_eqb (fst r) OT_ERROR_NONE && fst r', snd r')
  end.

Definition values_size (vs : list (list Z * (nat -> Z))) : Z :=
  fold_right (fun v n => RecordSize (Z.of_nat (length (fst v))) + n) 0 vs.

(** A platform with 268-byte swap areas, all cells erased, and the store
    that [Wipe] sets up on it. *)
Definition blank : Flash := mkFlash 268 (fun _ _ => 0xff) 268 0 0 0.
Definition fresh : Flash := Wipe blank.

(** The records that [AddAll] appends; [present] tells whether the log
    already holds a valid record for the key. *)
Fixpoint chain_from (aKey : Z) (present : bool) (vs : list (list Z * (nat -> Z)))
  : list entry :=
  match vs with
  | [] => []
  | v :: vs' => new_entry aKey (negb present) (fst v) (snd v) :: chain_from aKey true vs'
  end.

Definition value_ok (v : list Z * (nat -> Z)) : Prop :=
  Forall is_byte (fst v) /\ Z.of_nat (length (fst v)) <= Record_.kMaxDataSize.

(** What clearing the Delete flag, or the First flag, does to the other
    flags and to the two bytes of the flags in the flash; checked for
    every 16-bit value of the flags. *)
Definition flag_byte_and (f f' : Z) : bool :=
  (0 <=? f') && (f' <? 65536) &&
  (Z.land (lo8 f) (lo8 f') =? lo8 f') && (Z.land (hi8 f) (hi8 f') =? hi8 f').

Definition SetDeleted_check (f : Z) : bool :=
  let h := RecordHeader.mk 0 f 0 0 in
  let h' := RecordHeader.SetDeleted h in
  flag_byte_and f (RecordHeader.mFlags h') &&
  Bool.eqb (RecordHeader.IsAddBeginSet h') (RecordHeader.IsAddBeginSet h) &&
  Bool.eqb (RecordHeader.IsAddCompleteSet h') (RecordHeader.IsAddCompleteSet h) &&
  Bool.eqb (RecordHeader.IsFirst h') (RecordHeader.IsFirst h) &&
  negb (RecordHeader.IsValid h') && RecordHeader.IsDeleted h'.

Definition SetFirst_check (f : Z) : bool :=
  let h := RecordHeader.mk 0 f 0 0 in
  let h' := RecordHeader.SetFirst h in
  flag_byte_and f (RecordHeader.mFlags h') &&
  Bool.eqb (RecordHeader.IsAddBeginSet h') (RecordHeader.IsAddBeginSet h) &&
  Bool.eqb (RecordHeader.IsAddCompleteSet h') (RecordHeader.IsAddCompleteSet h) &&
  Bool.eqb (RecordHeader.IsValid h') (RecordHeader.IsValid h) &&
  Bool.eqb (RecordHeader.IsDeleted h') (RecordHeader.IsDeleted h) &&
  RecordHeader.IsFirst h'.

(** What one record header is after a flag was cleared in it. *)
Record flag_cleared (h h' : RecordHeader.t) : Prop := mkCleared {
  fc_key : RecordHeader.mKey h' = RecordHeader.mKey h;
  fc_length : RecordHeader.mLength h' = RecordHeader.mLength h;
  fc_reserved : RecordHeader.mReserved h' = RecordHeader.mReserved h;
  fc_flags : is_u16 (RecordHeader.mFlags h');
  fc_lo : Z.land (lo8 (RecordHeader.mFlags h)) (lo8 (RecordHeader.mFlags h'))
          = lo8 (RecordHeader.mFlags h');
  fc_hi : Z.land (hi8 (RecordHeader.mFlags h)) (hi8 (RecordHeader.mFlags h'))
          = hi8 (RecordHeader.mFlags h');
  fc_begin : RecordHeader.IsAddBeginSet h' = RecordHeader.IsAddBeginSet h;
  fc_complete : RecordHeader.IsAddCompleteSet h' = RecordHeader.IsAddCompleteSet h
}.

(** *** [Delete] in the words of the specification *)

(** The counter of the scan: a record that is not a valid record of the
    key has none; for the others it restarts at 0 on a record marked
    First and goes up by one from record to record. *)
Fixpoint ordinals (aKey : Z) (es : list entry) (index : Z) : list (option Z) :=
  match es with
  | [] => []
  | e :: es' =>
      if (RecordHeader.GetKey (eHeader e) =? aKey) && RecordHeader.IsValid (eHeader e)
      then
        let c := if RecordHeader.IsFirst (eHeader e) then 0 else index in
        Some c :: ordinals aKey es' (c + 1)
      else None :: ordinals aKey es' index
  end.

(** The records that [Delete(key, aIndex)] is to tombstone: all the valid
    records of the key when [aIndex] is -1, those whose counter is
    [aIndex] otherwise. *)
Definition selected (aIndex : Z) (c : option Z) : bool :=
  match c with
  | Some c => (aIndex =? -1) || (c =? aIndex)
  | None => false
  end.

(** A selected record is tombstoned; the others stay valid or not, as
    they were.  The key, the length and the payload never change. *)
Definition Delete_effect (aIndex : Z) (ec : entry * option Z) (e' : entry) : Prop :=
  let e := fst ec in
  RecordHeader.mKey (eHeader e') = RecordHeader.mKey (eHeader e) /\
  RecordHeader.mLength (eHeader e') = RecordHeader.mLength (eHeader e) /\
  ePayload e' = ePayload e /\
  if selected aIndex (snd ec)
  then RecordHeader.IsValid (eHeader e) = true /\
       RecordHeader.IsValid (eHeader e') = false /\
       RecordHeader.IsDeleted (eHeader e') = true
  else RecordHeader.IsValid (eHeader e') = RecordHeader.IsValid (eHeader e) /\
       RecordHeader.IsDeleted (eHeader e') = RecordHeader.IsDeleted (eHeader e).

(** *** What [Init] finds in the flash *)


(** A swap area as the driver leaves it, also when it was interrupted:
    committed records [es] behind the swap header, which end inside the
    area, and behind them either no room for a header or a header that
    is not committed. *)
Definition scan_image (s : Flash) (es : list entry) : Prop :=
  log_at (platFlash s (mSwapIndex s)) 4 es /\
  Forall committed es /\
  4 + log_size es <= platSwapSize s /\
  (4 + log_size es <= platSwapSize s - 8 ->
   let h := readRecordHeader s (4 + log_size es) in
   RecordHeader.IsAddBeginSet h && RecordHeader.IsAddCompleteSet h = false).

(** The flash that [Init] starts from: word-aligned swap areas that hold
    a record of the largest size, cells that are bytes, and a swap area
    as above wherever a swap header is active. *)
Definition flash_image (s : Flash) : Prop :=
  kMinSwapSize <= platSwapSize s < 4294967296 /\
  platSwapSize s mod kFlashWordSize = 0 /\
  (forall i o, is_byte (platFlash s i o)) /\
  (forall i, i = 0 \/ i = 1 ->
     SwapHeader.IsActive (readSwapHeader s i) = true ->
     exists es, scan_image (with_mSwapIndex s i) es).

(** The states of the store: what [Init] returns, and what the public
    operations make of a state.  [Get] is a [const] method. *)
Inductive reachable : Flash -> Prop :=
| reach_Init (fuel : nat) (s s' : Flash) :
    flash_image s -> enough fuel s ->
    Init fuel s = Done s' -> reachable s'
| reach_Get (fuel : nat) (s : Flash) (aKey aIndex : Z) (aValue : option (list Z))
    (aValueLength : option Z) (r : otError * option (list Z) * option Z) :
    reachable s -> enough fuel s ->
    Get fuel s aKey aIndex aValue aValueLength = Done r -> reachable s
| reach_Set (fuel : nat) (s s' : Flash) (aKey : Z) (aValue : list Z) (junk : nat -> Z)
    (error : otError) :
    reachable s -> enough fuel s -> is_u16 aKey -> Forall is_byte aValue ->
    Set_ fuel s aKey aValue junk = Done (error, s') -> reachable s'
| reach_Add (fuel : nat) (s s' : Flash) (aKey : Z) (aValue : list Z) (junk : nat -> Z)
    (error : otError) :
    reachable s -> enough fuel s -> is_u16 aKey -> Forall is_byte aValue ->
    AddAppend fuel s aKey aValue junk = Done (error, s') -> reachable s'
| reach_Delete (fuel : nat) (s s' : Flash) (aKey aIndex : Z) (error : otError) :
    reachable s -> enough fuel s ->
    Delete fuel s aKey aIndex = Done (error, s') -> reachable s'
| reach_Wipe (s : Flash) :
    reachable s -> reachable (Wipe s).

(** *** Scenarios *)

Definition no_junk : nat -> Z := fun _ => 0.

Definition after (c : outcome (otError * Flash)) : outcome Flash :=
  r <- c ;; Done (snd r).

(** [Add(7, [1]); Add(7, [2, 2]); Set(7, [9])] on the empty store. *)
Definition set_after_adds : outcome Flash :=
  s <- after (AddAppend 268 fresh 7 [1] no_junk) ;;
  s <- after (AddAppend 268 s 7 [2; 2] no_junk) ;;
  after (Set_ 268 s 7 [9] no_junk).

(** The same, followed by a [Set] of 240 bytes under key 8, for which
    the swap area has no room left before a compaction. *)
Definition set_after_adds_compacted : outcome (otError * Flash) :=
  s <- set_after_adds ;;
  Set_ 268 s 8 (repeat 0 240) no_junk.

(** *** The newest chain of a key *)

Definition is_live (aKey : Z) (e : entry) : bool :=
  (RecordHeader.GetKey (eHeader e) =? aKey) && RecordHeader.IsValid (eHeader e).

(** The valid records of the key from its last valid record marked First
    on, or all its valid records when none is marked: the records that no
    later valid record of the key marked First shadows. *)
Fixpoint newest_chain (aKey : Z) (es : list entry) : list entry :=
  match es with
  | [] => []
  | e :: es' =>
      if is_live aKey e && negb (shadowed aKey es')
      then e :: filter (is_live aKey) es'
      else newest_chain aKey es'
  end.

(** What a hit of [Get] on the record [e] leaves in the caller's buffer. *)
Definition copy_entry (value : option (list Z)) (aValueLength : option Z) (e : entry)
  : option (list Z) :=
  match value, aValueLength with
  | Some buf, Some len =>
      Some (Record_.memcpy buf
              (entry_payload e (Z.min len (RecordHeader.mLength (eHeader e)))))
  | v, _ => v
  end.

(** *** Power cycles *)

(** The flash selects the swap area of the store for [Init]: the header
    of the area reads ACTIVE and the header of no area before it does;
    the swap areas are a whole number of flash words. *)
Definition durable (s : Flash) : Prop :=
  SwapHeader.IsActive (readSwapHeader s (mSwapIndex s)) = true /\
  (mSwapIndex s = 0 \/ SwapHeader.IsActive (readSwapHeader s 0) = false) /\
  mSwapSize s mod kFlashWordSize = 0.

(** A power cycle keeps the flash and loses the members of the driver
    object, which hold the four given values until [Init] sets them. *)
Definition power_cycle (s : Flash) (size used index headerSize : Z) : Flash :=
  mkFlash (platSwapSize s) (platFlash s) size used index headerSize.

(** *** The flags and the size of a record header *)

(** What a setter of a flag does to the flags, for one value of the
    flags: it clears bits and sets none, also byte by byte; a flag that
    reads as set still does; a header that reads as deleted is not valid
    afterwards. *)
Definition setter_check (set : RecordHeader.t -> RecordHeader.t) (f : Z) : bool :=
  let h := RecordHeader.mk 0 f 0 0 in
  let h' := set h in
  flag_byte_and f (RecordHeader.mFlags h') &&
  (Z.land f (RecordHeader.mFlags h') =? RecordHeader.mFlags h') &&
  implb (RecordHeader.IsAddBeginSet h) (RecordHeader.IsAddBeginSet h') &&
  implb (RecordHeader.IsAddCompleteSet h) (RecordHeader.IsAddCompleteSet h') &&
  implb (RecordHeader.IsDeleted h) (RecordHeader.IsDeleted h') &&
  implb (RecordHeader.IsFirst h) (RecordHeader.IsFirst h') &&
  implb (RecordHeader.IsDeleted h) (negb (RecordHeader.IsValid h')).

(** [GetSize] for one value of [mLength]: up to 0xfff4 it is the header
    and the data rounded up to the flash word; above, the 16-bit result
    wraps. *)
Definition GetSize_check (len : Z) : bool :=
  let g := RecordHeader.GetSize (RecordHeader.mk 0 0 len 0) in
  if len <=? 0xfff4
  then (g =? RecordSize len) && (g mod 4 =? 0) && (8 + len <=? g) && (g <? 12 + len)
  else if len <=? 0xfff8 then g =? 0
  else (g =? 4) || (g =? 8).

(** *** Stores for the scenarios of [Init] and [Get] *)







(** * Properties *)

(** Side conditions on concrete values. *)
Ltac bytes_ok :=
  repeat first [apply Forall_nil | apply Forall_cons; [unfold is_byte; lia|]].

Ltac values_ok :=
  repeat first
    [apply Forall_nil
    | apply Forall_cons;
      [split; [bytes_ok | cbn; unfold Record_.kMaxDataSize; lia]|]].


(** ** Exhaustive checks and machine integers *)

Lemma all_from_spec (p : Z -> bool) (n : nat) :
  forall base, all_from p base n = true ->
  forall x, base <= x < base + Z.of_nat n -> p x = true.
Proof.
  induction n as [|n IH]; intros base H x Hx.
  - lia.
  - cbn [all_from] in H. apply andb_true_iff in H. destruct H as [Hb Hr].
    destruct (Z.eq_dec x base) as [->|Hne]; [exact Hb|].
    apply (IH (base + 1) Hr). lia.
Qed.

Lemma u16_check (p : Z -> bool) :
  all_from p 0 (Z.to_nat 65536) = true -> forall x, is_u16 x -> p x = true.
Proof.
  intros H x Hx. apply (all_from_spec p _ 0 H). unfold is_u16 in Hx. lia.
Qed.

Lemma le16_bytes (x : Z) : is_u16 x -> le16 (lo8 x) (hi8 x) = x.
Proof.
  unfold is_u16, le16, lo8, hi8. intros Hx.
  assert (Hq : 0 <= x / 256 < 256).
  { split; [apply Z.div_pos; lia | apply Z.div_lt_upper_bound; lia]. }
  rewrite (Z.mod_small (x / 256)) by lia.
  pose proof (Z.div_mod x 256). lia.
Qed.

Lemma lo8_byte (x : Z) : is_byte (lo8 x).
Proof. unfold is_byte, lo8. apply Z.mod_pos_bound. lia. Qed.

Lemma hi8_byte (x : Z) : is_byte (hi8 x).
Proof. unfold is_byte, hi8. apply Z.mod_pos_bound. lia. Qed.

Lemma land_ff (b : Z) : is_byte b -> Z.land 0xff b = b.
Proof.
  intros Hb. rewrite Z.land_comm. change 0xff with (Z.ones 8).
  rewrite Z.land_ones by lia. apply Z.mod_small. exact Hb.
Qed.

Lemma wrap32_small (x : Z) : 0 <= x < 4294967296 -> wrap32 x = x.
Proof. apply Z.mod_small. Qed.

(** ** The record header *)

Lemma padded_bounds (len : Z) :
  0 <= len -> len <= padded len < len + 4 /\ padded len mod 4 = 0.
Proof.
  intros H. unfold padded.
  pose proof (Z.div_mod (len + 3) 4). pose proof (Z.mod_pos_bound (len + 3) 4).
  split; [lia|]. rewrite Z.mul_comm. apply Z.mod_mul. lia.
Qed.

Lemma size_check_all : all_from size_check 0 257 = true.
Proof. vm_compute. reflexivity. Qed.

(** [GetSize] is the record size of the specification for every length
    that [SetData] accepts. *)
Lemma GetSize_RecordSize (h : RecordHeader.t) :
  0 <= RecordHeader.mLength h <= Record_.kMaxDataSize ->
  RecordHeader.GetSize h = RecordSize (RecordHeader.mLength h).
Proof.
  intros H. unfold Record_.kMaxDataSize in H.
  apply Z.eqb_eq. apply (all_from_spec size_check _ 0 size_check_all). lia.
Qed.

Lemma of_bytes_bytes (h : RecordHeader.t) :
  wf_header h -> RecordHeader.of_bytes (RecordHeader.bytes h) = h.
Proof.
  intros (Hk & Hf & Hl & Hr). destruct h as [k f l r]; cbn in *.
  unfold Record_.kMaxDataSize in Hl.
  rewrite !le16_bytes; [reflexivity| | | |]; unfold is_u16 in *; lia.
Qed.

Lemma wf_entry_size (e : entry) :
  wf_entry e ->
  entry_size e = RecordSize (RecordHeader.mLength (eHeader e)) /\
  8 <= entry_size e <= 264 /\ entry_size e mod 4 = 0 /\
  Z.of_nat (length (entry_bytes e)) = entry_size e.
Proof.
  intros ((Hk & Hf & Hl & Hr) & Hlen & Hb).
  unfold entry_size. rewrite GetSize_RecordSize by exact Hl.
  unfold Record_.kMaxDataSize in Hl.
  pose proof (padded_bounds (RecordHeader.mLength (eHeader e)) (proj1 Hl)) as [Hp Hm].
  assert (Hp' : padded (RecordHeader.mLength (eHeader e)) <= 256).
  { unfold padded in *.
    pose proof (Z.div_mod (RecordHeader.mLength (eHeader e) + 3) 4).
    pose proof (Z.mod_pos_bound (RecordHeader.mLength (eHeader e) + 3) 4). lia. }
  unfold RecordSize. repeat split; try lia.
  - rewrite Zplus_mod, Hm. reflexivity.
  - unfold entry_bytes. rewrite length_app. cbn [RecordHeader.bytes length]. lia.
Qed.

(** ** Reading flash cells *)

Lemma read_length (mem : Z -> Z) (off : Z) (n : nat) : length (read mem off n) = n.
Proof. unfold read. rewrite length_map, length_seq. reflexivity. Qed.

Lemma read_nth (mem : Z -> Z) (off : Z) (n i : nat) (d : Z) :
  (i < n)%nat -> nth i (read mem off n) d = mem (off + Z.of_nat i).
Proof.
  intros H. unfold read.
  rewrite (nth_indep _ d (mem (off + Z.of_nat 0))) by (rewrite length_map, length_seq; exact H).
  rewrite (map_nth (fun i => mem (off + Z.of_nat i))). rewrite seq_nth by exact H. reflexivity.
Qed.

Lemma read_ext (mem mem' : Z -> Z) (off : Z) (n : nat) :
  (forall o, off <= o < off + Z.of_nat n -> mem o = mem' o) ->
  read mem off n = read mem' off n.
Proof.
  intros H. unfold read. apply map_ext_in. intros i Hi.
  apply in_seq in Hi. apply H. lia.
Qed.

Lemma read_app (mem : Z -> Z) (off : Z) (n m : nat) :
  read mem off (n + m) = read mem off n ++ read mem (off + Z.of_nat n) m.
Proof.
  apply nth_ext with (d := 0) (d' := 0).
  - rewrite length_app, !read_length. reflexivity.
  - rewrite read_length. intros i Hi. rewrite read_nth by exact Hi.
    destruct (Nat.lt_ge_cases i n) as [Hlt|Hge].
    + rewrite app_nth1 by (rewrite read_length; exact Hlt).
      rewrite read_nth by exact Hlt. reflexivity.
    + rewrite app_nth2 by (rewrite read_length; exact Hge).
      rewrite read_length, read_nth by lia. f_equal. lia.
Qed.

Lemma read_firstn (mem : Z -> Z) (off : Z) (n k : nat) :
  (k <= n)%nat -> firstn k (read mem off n) = read mem off k.
Proof.
  intros H. replace n with (k + (n - k))%nat by lia.
  rewrite read_app. rewrite firstn_app, read_length, Nat.sub_diag.
  rewrite firstn_all2 by (rewrite read_length; lia).
  cbn [firstn]. apply app_nil_r.
Qed.

Lemma read_skipn (mem : Z -> Z) (off : Z) (n k : nat) :
  (k <= n)%nat -> skipn k (read mem off n) = read mem (off + Z.of_nat k) (n - k).
Proof.
  intros H. replace n with (k + (n - k))%nat at 1 by lia.
  rewrite read_app. rewrite skipn_app, read_length, Nat.sub_diag.
  rewrite skipn_all2 by (rewrite read_length; lia). reflexivity.
Qed.

(** ** The platform primitives *)

Lemma write_cell (s : Flash) (idx off : Z) (data : list Z) (i o : Z) :
  platFlash (otPlatFlashWrite s idx off data) i o =
  if (i =? idx) && (off <=? o) && (o <? off + Z.of_nat (length data))
  then Z.land (platFlash s i o) (nth (Z.to_nat (o - off)) data 0xff)
  else platFlash s i o.
Proof. reflexivity. Qed.

Lemma write_other (s : Flash) (idx off : Z) (data : list Z) (i o : Z) :
  i <> idx \/ o < off \/ off + Z.of_nat (length data) <= o ->
  platFlash (otPlatFlashWrite s idx off data) i o = platFlash s i o.
Proof.
  intros H. rewrite write_cell.
  destruct (Z.eqb_spec i idx); destruct (Z.leb_spec off o);
    destruct (Z.ltb_spec o (off + Z.of_nat (length data))); cbn; try reflexivity; lia.
Qed.

Lemma write_erased (s : Flash) (idx off : Z) (data : list Z) :
  (forall o, off <= o < off + Z.of_nat (length data) -> platFlash s idx o = 0xff) ->
  Forall is_byte data ->
  read (platFlash (otPlatFlashWrite s idx off data) idx) off (length data) = data.
Proof.
  intros He Hb. apply nth_ext with (d := 0xff) (d' := 0xff).
  - apply read_length.
  - rewrite read_length. intros i Hi. rewrite read_nth by exact Hi.
    rewrite write_cell.
    destruct (Z.eqb_spec idx idx); [|congruence].
    destruct (Z.leb_spec off (off + Z.of_nat i)); [|lia].
    destruct (Z.ltb_spec (off + Z.of_nat i) (off + Z.of_nat (length data))); [|lia].
    cbn [andb]. rewrite He by lia.
    replace (Z.to_nat (off + Z.of_nat i - off)) with i by lia.
    apply land_ff. apply (proj1 (Forall_forall _ _) Hb). apply nth_In. exact Hi.
Qed.

Lemma erase_cell (s : Flash) (idx i o : Z) :
  platFlash (otPlatFlashErase s idx) i o =
  if (i =? idx) && (0 <=? o) && (o <? platSwapSize s) then 0xff else platFlash s i o.
Proof. reflexivity. Qed.

(** ** The log in the flash *)

Lemma log_size_cons (e : entry) (es : list entry) :
  log_size (e :: es) = entry_size e + log_size es.
Proof. reflexivity. Qed.

Lemma log_size_app (es es' : list entry) :
  log_size (es ++ es') = log_size es + log_size es'.
Proof.
  induction es as [|e es IH]; [reflexivity|].
  rewrite <- app_comm_cons, !log_size_cons, IH. lia.
Qed.

Lemma log_at_size (mem : Z -> Z) (es : list entry) :
  forall off, log_at mem off es -> 8 * Z.of_nat (length es) <= log_size es.
Proof.
  induction es as [|e es IH]; intros off H.
  - cbn. lia.
  - destruct H as (Hwf & _ & Hrest). rewrite log_size_cons.
    pose proof (wf_entry_size e Hwf) as (_ & Hsz & _).
    specialize (IH _ Hrest). cbn [length]. lia.
Qed.

Lemma log_at_ext (mem mem' : Z -> Z) (es : list entry) :
  forall off,
  (forall o, off <= o < off + log_size es -> mem o = mem' o) ->
  log_at mem off es -> log_at mem' off es.
Proof.
  induction es as [|e es IH]; intros off Hext Hlog; [exact I|].
  destruct Hlog as (Hwf & Hrd & Hrest).
  pose proof (wf_entry_size e Hwf) as (_ & Hsz & _).
  pose proof (log_at_size _ _ _ Hrest) as Hls.
  rewrite log_size_cons in Hext.
  split; [exact Hwf|]. split.
  - rewrite <- Hrd. symmetry. apply read_ext. intros o Ho. apply Hext. lia.
  - apply IH; [|exact Hrest]. intros o Ho. apply Hext. lia.
Qed.

Lemma log_at_app (mem : Z -> Z) (es es' : list entry) :
  forall off,
  log_at mem off (es ++ es') <->
  log_at mem off es /\ log_at mem (off + log_size es) es'.
Proof.
  induction es as [|e es IH]; intros off.
  - cbn [app log_at log_size fold_right]. rewrite Z.add_0_r. tauto.
  - rewrite <- app_comm_cons. cbn [log_at]. rewrite IH, log_size_cons.
    rewrite Z.add_assoc. tauto.
Qed.

(** What the loops read at the head of a log. *)
Lemma log_at_header (s : Flash) (off : Z) (e : entry) (es : list entry) :
  log_at (platFlash s (mSwapIndex s)) off (e :: es) ->
  readRecordHeader s off = eHeader e.
Proof.
  intros (Hwf & Hrd & _).
  pose proof (wf_entry_size e Hwf) as (_ & Hsz & _ & Hlen).
  unfold readRecordHeader, otPlatFlashRead.
  rewrite <- (read_firstn _ _ (Z.to_nat (entry_size e))) by (unfold RecordHeader.sizeof; lia).
  rewrite Hrd. unfold entry_bytes.
  change (Z.to_nat RecordHeader.sizeof) with (length (RecordHeader.bytes (eHeader e))).
  rewrite firstn_app, Nat.sub_diag, firstn_all. cbn [firstn]. rewrite app_nil_r.
  apply of_bytes_bytes. apply Hwf.
Qed.

Lemma log_at_payload (s : Flash) (off : Z) (e : entry) (es : list entry) (n : Z) :
  log_at (platFlash s (mSwapIndex s)) off (e :: es) ->
  n <= RecordHeader.mLength (eHeader e) ->
  otPlatFlashRead s (mSwapIndex s) (off + RecordHeader.sizeof) n = entry_payload e n.
Proof.
  intros (Hwf & Hrd & _) Hn.
  pose proof (wf_entry_size e Hwf) as (Hrs & Hsz & _ & Hlen).
  destruct Hwf as ((_ & _ & Hl & _) & Hpl & _).
  pose proof (padded_bounds _ (proj1 Hl)) as [Hp _].
  unfold otPlatFlashRead, entry_payload.
  assert (Hsk : skipn 8 (entry_bytes e) = ePayload e) by reflexivity.
  rewrite <- Hsk, <- Hrd.
  rewrite read_skipn by lia.
  rewrite read_firstn.
  - reflexivity.
  - rewrite Hrs. unfold RecordSize. lia.
Qed.

(** ** [Get] reads the list of records *)

Lemma Get_body_ext (aKey aIndex : Z) (aValueLength : option Z) (h : RecordHeader.t)
    (p1 p2 : Z -> list Z) (l : GetLocals) :
  (forall n, n <= RecordHeader.mLength h -> p1 n = p2 n) ->
  Get_body aKey aIndex aValueLength h p1 l = Get_body aKey aIndex aValueLength h p2 l.
Proof.
  intros H. unfold Get_body.
  destruct (negb (RecordHeader.GetKey h =? aKey) || negb (RecordHeader.IsValid h));
    [reflexivity|].
  destruct ((if RecordHeader.IsFirst h then 0 else gIndex l) =? aIndex); [|reflexivity].
  destruct (gValue l) as [buf|]; [|reflexivity].
  destruct aValueLength as [len|]; [|reflexivity].
  unfold RecordHeader.GetLength.
  rewrite H; [reflexivity|].
  destruct (Z.gtb_spec len (RecordHeader.mLength h)); lia.
Qed.

Lemma Get_loop_log (aKey aIndex : Z) (aValueLength : option Z) (s : Flash) :
  mSwapUsed s < 4294967296 ->
  forall es fuel off l,
  log_at (platFlash s (mSwapIndex s)) off es ->
  off + log_size es = mSwapUsed s -> 0 <= off ->
  (length es < fuel)%nat ->
  Get_loop fuel s aKey aIndex aValueLength off l
  = Done (Get_list aKey aIndex aValueLength es l).
Proof.
  intros Hu. induction es as [|e es IH]; intros fuel off l Hlog Hend Hoff Hfuel.
  - destruct fuel as [|fuel]; [cbn in Hfuel; lia|].
    cbn [Get_loop]. cbn in Hend.
    destruct (Z.ltb_spec off (mSwapUsed s)); [lia|]. reflexivity.
  - destruct fuel as [|fuel]; [cbn in Hfuel; lia|].
    pose proof Hlog as (Hwf & _ & Hrest).
    pose proof (wf_entry_size e Hwf) as (_ & Hsz & _).
    pose proof (log_at_size _ _ _ Hrest) as Hls.
    rewrite log_size_cons in Hend.
    cbn [Get_loop].
    destruct (Z.ltb_spec off (mSwapUsed s)); [|lia].
    rewrite (log_at_header s off e es Hlog).
    fold (entry_size e).
    rewrite (wrap32_small (off + entry_size e)) by lia.
    rewrite (wrap32_small (off + RecordHeader.sizeof)) by (unfold RecordHeader.sizeof; lia).
    rewrite (Get_body_ext _ _ _ _ _ (entry_payload e))
      by (intros n Hn; apply (log_at_payload s off e es n Hlog Hn)).
    rewrite IH; [reflexivity|exact Hrest|lia|lia|cbn in Hfuel; lia].
Qed.

Lemma wf_store_bounds (s : Flash) (es : list entry) :
  wf_store s es ->
  mSwapHeaderSize s = 4 /\ 0 <= log_size es /\
  mSwapUsed s = 4 + log_size es /\ mSwapUsed s <= mSwapSize s /\
  268 <= mSwapSize s < 4294967296 /\
  (8 * Z.of_nat (length es) <= log_size es) /\
  platSwapSize s = mSwapSize s.
Proof.
  intros [Hh Hi Hp Hs Hl Hu Hf Hc He].
  pose proof (log_at_size _ _ _ Hl) as Hls.
  unfold SwapHeader.sizeof in Hh. rewrite Hh in Hu.
  change kMinSwapSize with 268 in Hs. repeat split; try lia; assumption.
Qed.

Lemma enough_length (fuel : nat) (s : Flash) (es : list entry) :
  wf_store s es -> enough fuel s -> (length es < fuel)%nat.
Proof.
  intros Hwf Hf. pose proof (wf_store_bounds s es Hwf) as (? & ? & ? & ? & ? & ? & ?).
  unfold enough in Hf. lia.
Qed.

Lemma Get_log (fuel : nat) (s : Flash) (es : list entry) (aKey aIndex : Z)
    (aValue : option (list Z)) (aValueLength : option Z) :
  wf_store s es -> enough fuel s ->
  Get fuel s aKey aIndex aValue aValueLength =
  let l := Get_list aKey aIndex aValueLength es (mkGet OT_ERROR_NOT_FOUND 0 0 aValue) in
  Done (gError l, gValue l,
        match aValueLength with Some _ => Some (gValueLength l) | None => None end).
Proof.
  intros Hwf Hf. pose proof (wf_store_bounds s es Hwf) as (Hh & ? & Hu & ? & ? & ? & ?).
  unfold Get. rewrite (Get_loop_log _ _ _ s) with (es := es).
  - reflexivity.
  - lia.
  - apply Hwf.
  - lia.
  - lia.
  - apply (enough_length fuel s es Hwf Hf).
Qed.

(** ** [Add] appends a record *)

Lemma write_read (s : Flash) (idx off : Z) (data : list Z) :
  read (platFlash (otPlatFlashWrite s idx off data) idx) off (length data) =
  map (fun p => Z.land (fst p) (snd p))
      (combine (read (platFlash s idx) off (length data)) data).
Proof.
  apply nth_ext with (d := 0xff) (d' := Z.land (fst (0xff, 0xff)) (snd (0xff, 0xff))).
  - rewrite length_map, length_combine, !read_length. lia.
  - rewrite read_length. intros i Hi. rewrite read_nth by exact Hi.
    rewrite (map_nth (fun p => Z.land (fst p) (snd p))).
    rewrite combine_nth by apply read_length.
    rewrite read_nth by exact Hi. cbn [fst snd].
    rewrite write_cell.
    destruct (Z.eqb_spec idx idx); [|congruence].
    destruct (Z.leb_spec off (off + Z.of_nat i)); [|lia].
    destruct (Z.ltb_spec (off + Z.of_nat i) (off + Z.of_nat (length data))); [|lia].
    cbn [andb]. f_equal. f_equal. lia.
Qed.

(** Rewriting a header in place, when the new flags only clear bits. *)
Lemma header_rewrite (s : Flash) (idx off : Z) (h h' : RecordHeader.t) :
  read (platFlash s idx) off 8 = RecordHeader.bytes h ->
  RecordHeader.mKey h' = RecordHeader.mKey h ->
  RecordHeader.mLength h' = RecordHeader.mLength h ->
  RecordHeader.mReserved h' = RecordHeader.mReserved h ->
  Z.land (lo8 (RecordHeader.mFlags h)) (lo8 (RecordHeader.mFlags h')) = lo8 (RecordHeader.mFlags h') ->
  Z.land (hi8 (RecordHeader.mFlags h)) (hi8 (RecordHeader.mFlags h')) = hi8 (RecordHeader.mFlags h') ->
  read (platFlash (otPlatFlashWrite s idx off (RecordHeader.bytes h')) idx) off 8
  = RecordHeader.bytes h'.
Proof.
  intros Hrd Hk Hl Hr Hlo Hhi.
  change 8%nat with (length (RecordHeader.bytes h')) at 1.
  rewrite write_read. change (length (RecordHeader.bytes h')) with 8%nat.
  rewrite Hrd. unfold RecordHeader.bytes. cbn [combine map fst snd].
  rewrite Hk, Hl, Hr, Hlo, Hhi, !Z.land_diag. reflexivity.
Qed.

Lemma uninitialized_length (junk : nat -> Z) :
  length (Record_.uninitialized junk) = 256%nat.
Proof. unfold Record_.uninitialized. rewrite length_map, length_seq. reflexivity. Qed.

Lemma uninitialized_bytes (junk : nat -> Z) : Forall is_byte (Record_.uninitialized junk).
Proof.
  unfold Record_.uninitialized. apply Forall_forall. intros b Hb.
  apply in_map_iff in Hb. destruct Hb as (i & <- & _).
  apply Z.mod_pos_bound. lia.
Qed.

Lemma memcpy_length (dst src : list Z) :
  (length src <= length dst)%nat -> length (Record_.memcpy dst src) = length dst.
Proof. intros H. unfold Record_.memcpy. rewrite length_app, length_skipn. lia. Qed.

Lemma memcpy_bytes (dst src : list Z) :
  Forall is_byte dst -> Forall is_byte src -> Forall is_byte (Record_.memcpy dst src).
Proof.
  intros Hd Hs. unfold Record_.memcpy. apply Forall_app. split; [exact Hs|].
  apply Forall_forall. intros b Hb. apply (proj1 (Forall_forall _ _) Hd).
  rewrite <- (firstn_skipn (length src) dst). apply in_or_app. right. exact Hb.
Qed.

Lemma Init_flags (aKey : Z) (aFirst : bool) :
  RecordHeader.mFlags (RecordHeader.Init aKey aFirst) = if aFirst then 0xfff6 else 0xfffe.
Proof. destruct aFirst; reflexivity. Qed.

Lemma new_entry_header (aKey : Z) (aFirst : bool) (aValue : list Z) (junk : nat -> Z) :
  eHeader (new_entry aKey aFirst aValue junk) =
  RecordHeader.mk aKey (if aFirst then 0xfff4 else 0xfffc) (Z.of_nat (length aValue)) 0xffff.
Proof. destruct aFirst; reflexivity. Qed.

Lemma new_entry_wf (aKey : Z) (aFirst : bool) (aValue : list Z) (junk : nat -> Z) :
  is_u16 aKey -> Forall is_byte aValue -> Z.of_nat (length aValue) <= 256 ->
  wf_entry (new_entry aKey aFirst aValue junk).
Proof.
  intros Hk Hv Hl. unfold wf_entry. rewrite new_entry_header.
  assert (Hlen : 0 <= Z.of_nat (length aValue) <= 256) by lia.
  pose proof (padded_bounds _ (proj1 Hlen)) as [Hp Hm].
  assert (Hp' : padded (Z.of_nat (length aValue)) <= 256).
  { unfold padded in *.
    pose proof (Z.div_mod (Z.of_nat (length aValue) + 3) 4).
    pose proof (Z.mod_pos_bound (Z.of_nat (length aValue) + 3) 4). lia. }
  split; [|split].
  - unfold wf_header, is_u16, Record_.kMaxDataSize. cbn.
    destruct aFirst; repeat split; try lia; apply Hk.
  - cbn [RecordHeader.mLength]. unfold new_entry. cbn [ePayload].
    rewrite length_firstn, memcpy_length; rewrite uninitialized_length; lia.
  - unfold new_entry. cbn [ePayload].
    apply Forall_forall. intros b Hb.
    assert (Hall : Forall is_byte (Record_.memcpy (Record_.uninitialized junk) aValue))
      by (apply memcpy_bytes; [apply uninitialized_bytes|exact Hv]).
    apply (proj1 (Forall_forall _ _) Hall).
    rewrite <- (firstn_skipn (Z.to_nat (padded (Z.of_nat (length aValue))))).
    apply in_or_app. left. exact Hb.
Qed.

Lemma new_entry_value (aKey : Z) (aFirst : bool) (aValue : list Z) (junk : nat -> Z) (n : Z) :
  n <= Z.of_nat (length aValue) ->
  entry_payload (new_entry aKey aFirst aValue junk) n = firstn (Z.to_nat n) aValue.
Proof.
  intros Hn. unfold entry_payload, new_entry. cbn [ePayload].
  pose proof (padded_bounds (Z.of_nat (length aValue)) ltac:(lia)) as [Hp _].
  rewrite firstn_firstn. replace (Init.Nat.min (Z.to_nat n) (Z.to_nat (padded (Z.of_nat (length aValue)))))
    with (Z.to_nat n) by lia.
  unfold Record_.memcpy. rewrite firstn_app.
  replace (Z.to_nat n - length aValue)%nat with 0%nat by lia.
  cbn [firstn]. apply app_nil_r.
Qed.

Lemma Record_bytes_full (h : RecordHeader.t) (data : list Z) (n : Z) :
  8 <= n ->
  Record_.bytes (Record_.mk h data) n = RecordHeader.bytes h ++ firstn (Z.to_nat (n - 8)) data.
Proof.
  intros Hn. unfold Record_.bytes. cbn [Record_.header Record_.mData].
  rewrite firstn_app. rewrite firstn_all2 by (cbn [RecordHeader.bytes length]; lia).
  f_equal. f_equal. cbn [RecordHeader.bytes length]. lia.
Qed.

Lemma Record_bytes_header (h : RecordHeader.t) (data : list Z) :
  Record_.bytes (Record_.mk h data) RecordHeader.sizeof = RecordHeader.bytes h.
Proof.
  rewrite Record_bytes_full by (unfold RecordHeader.sizeof; lia).
  unfold RecordHeader.sizeof. cbn [Z.sub Z.to_nat firstn]. rewrite Z.sub_diag.
  cbn [Z.to_nat firstn]. apply app_nil_r.
Qed.

Lemma Add_write_wf (s : Flash) (es : list entry) (aKey : Z) (aFirst : bool)
    (aValue : list Z) (junk : nat -> Z) :
  wf_store s es -> is_u16 aKey -> Forall is_byte aValue ->
  Z.of_nat (length aValue) <= 256 ->
  mSwapUsed s + RecordSize (Z.of_nat (length aValue)) <= mSwapSize s ->
  wf_store
    (Add_write s (Record_.mk (RecordHeader.SetLength (RecordHeader.Init aKey aFirst)
                                (Z.of_nat (length aValue)))
                             (Record_.memcpy (Record_.uninitialized junk) aValue)))
    (es ++ [new_entry aKey aFirst aValue junk]).
Proof.
  intros Hwf Hk Hv Hl Hfit.
  pose proof (wf_store_bounds s es Hwf) as (Hh & Hls & Hu & Hf & Hsz & Hn & Hp).
  pose proof (new_entry_wf aKey aFirst aValue junk Hk Hv Hl) as Hwe.
  pose proof (wf_entry_size _ Hwe) as (Hes & Hes8 & Hes4 & Helen).
  set (e := new_entry aKey aFirst aValue junk) in *.
  set (h1 := RecordHeader.SetLength (RecordHeader.Init aKey aFirst) (Z.of_nat (length aValue))).
  set (data := Record_.memcpy (Record_.uninitialized junk) aValue).
  assert (Hlen : RecordHeader.mLength (eHeader e) = Z.of_nat (length aValue))
    by (unfold e; rewrite new_entry_header; reflexivity).
  rewrite Hlen in Hes.
  assert (Hs1 : RecordHeader.GetSize h1 = entry_size e) by reflexivity.
  assert (Hb1 : Record_.bytes (Record_.mk h1 data) (entry_size e)
                = RecordHeader.bytes h1 ++ ePayload e).
  { rewrite Record_bytes_full by lia. rewrite Hes. unfold RecordSize.
    replace (8 + padded (Z.of_nat (length aValue)) - 8)
      with (padded (Z.of_nat (length aValue))) by lia.
    reflexivity. }
  assert (Hb1len : Z.of_nat (length (RecordHeader.bytes h1 ++ ePayload e)) = entry_size e).
  { rewrite <- Helen. unfold entry_bytes. rewrite !length_app. reflexivity. }
  unfold Add_write. cbn [Record_.header Record_.mData]. rewrite Hs1, Hb1, Record_bytes_header.
  set (s1 := otPlatFlashWrite s (mSwapIndex s) (mSwapUsed s) (RecordHeader.bytes h1 ++ ePayload e)).
  change (mSwapIndex s1) with (mSwapIndex s). change (mSwapUsed s1) with (mSwapUsed s).
  set (h2 := RecordHeader.SetAddCompleteFlag h1).
  set (s2 := otPlatFlashWrite s1 (mSwapIndex s) (mSwapUsed s) (RecordHeader.bytes h2)).
  change (mSwapUsed s2) with (mSwapUsed s).
  assert (Hr1 : read (platFlash s1 (mSwapIndex s)) (mSwapUsed s) (Z.to_nat (entry_size e))
                = RecordHeader.bytes h1 ++ ePayload e).
  { replace (Z.to_nat (entry_size e)) with (length (RecordHeader.bytes h1 ++ ePayload e)) by lia.
    apply write_erased.
    - intros o Ho. apply (wf_free s es Hwf). lia.
    - apply Forall_app. split; [|apply Hwe].
      unfold RecordHeader.bytes. repeat constructor; first [apply lo8_byte | apply hi8_byte]. }
  assert (Hr2 : read (platFlash s2 (mSwapIndex s)) (mSwapUsed s) (Z.to_nat (entry_size e))
                = entry_bytes e).
  { replace (Z.to_nat (entry_size e))
      with (8 + (Z.to_nat (entry_size e) - 8))%nat at 1 by lia.
    rewrite read_app. unfold entry_bytes. f_equal.
    - apply (header_rewrite s1 (mSwapIndex s) (mSwapUsed s) h1 h2); try reflexivity.
      + rewrite <- (read_firstn _ _ (Z.to_nat (entry_size e))) by lia.
        rewrite Hr1. reflexivity.
      + unfold h2, h1. destruct aFirst; reflexivity.
      + unfold h2, h1. destruct aFirst; reflexivity.
    - rewrite (read_ext _ (platFlash s1 (mSwapIndex s))).
      + rewrite <- read_skipn by lia. rewrite Hr1. reflexivity.
      + intros o Ho. unfold s2. apply write_other.
        right; right. cbn [RecordHeader.bytes length]. lia. }
  assert (Hsame : forall o, o < mSwapUsed s \/ mSwapUsed s + entry_size e <= o ->
                  platFlash s2 (mSwapIndex s) o = platFlash s (mSwapIndex s) o).
  { intros o Ho. unfold s2. rewrite write_other
      by (right; cbn [RecordHeader.bytes length]; lia).
    unfold s1. apply write_other. right. lia. }
  rewrite wrap32_small by lia.
  constructor; cbn [mSwapHeaderSize mSwapIndex platSwapSize mSwapSize mSwapUsed platFlash
                    with_mSwapUsed];
    change (mSwapHeaderSize s2) with (mSwapHeaderSize s);
    change (mSwapIndex s2) with (mSwapIndex s);
    change (mSwapSize s2) with (mSwapSize s);
    change (platSwapSize s2) with (platSwapSize s).
  - apply Hwf.
  - apply Hwf.
  - apply Hwf.
  - apply Hwf.
  - apply log_at_app. split.
    + apply (log_at_ext (platFlash s (mSwapIndex s))); [|apply Hwf].
      intros o Ho. symmetry. apply Hsame. lia.
    + cbn [log_at]. split; [exact Hwe|]. split; [|exact I].
      rewrite Hh, <- Hu. exact Hr2.
  - rewrite log_size_app, log_size_cons. cbn [log_size fold_right]. lia.
  - lia.
  - apply Forall_app. split; [apply Hwf|]. constructor; [|constructor].
    unfold committed, e. rewrite new_entry_header. destruct aFirst; split; reflexivity.
  - intros o Ho. cbn [mSwapSize mSwapUsed with_mSwapUsed] in Ho.
    change (mSwapSize s2) with (mSwapSize s) in Ho.
    change (platFlash s2 (mSwapIndex s) o = 0xff).
    rewrite Hsame by lia. apply (wf_free s es Hwf). lia.
Qed.

(** ** [Swap] copies the live records *)

Lemma entry_size_nonneg (e : entry) : 0 <= entry_size e.
Proof.
  unfold entry_size, RecordHeader.GetSize, wrap16. apply Z.mod_pos_bound. lia.
Qed.

Lemma log_size_nonneg (es : list entry) : 0 <= log_size es.
Proof.
  induction es as [|e es IH]; [cbn; lia|].
  rewrite log_size_cons. pose proof (entry_size_nonneg e). lia.
Qed.

Lemma compact_size (es : list entry) : log_size (compact es) <= log_size es.
Proof.
  induction es as [|e es IH]; [cbn; lia|].
  cbn [compact]. pose proof (entry_size_nonneg e).
  destruct (negb _ || _); rewrite ?log_size_cons; lia.
Qed.

Lemma compact_committed (es : list entry) :
  Forall committed es -> Forall committed (compact es).
Proof.
  induction 1 as [|e es He Hes IH]; [constructor|].
  cbn [compact]. destruct (negb _ || _); [exact IH|constructor; assumption].
Qed.

Lemma same_driver_refl (s : Flash) : same_driver s s.
Proof. repeat split. Qed.

Lemma DoesValidRecordExist_log (aKey : Z) (s : Flash) :
  mSwapUsed s < 4294967296 ->
  forall es fuel off,
  log_at (platFlash s (mSwapIndex s)) off es ->
  off + log_size es = mSwapUsed s -> 0 <= off ->
  (length es < fuel)%nat ->
  DoesValidRecordExist fuel s off aKey = Done (shadowed aKey es).
Proof.
  intros Hu. induction es as [|e es IH]; intros fuel off Hlog Hend Hoff Hfuel.
  - destruct fuel as [|fuel]; [cbn in Hfuel; lia|].
    cbn [DoesValidRecordExist]. cbn in Hend.
    destruct (Z.ltb_spec off (mSwapUsed s)); [lia|]. reflexivity.
  - destruct fuel as [|fuel]; [cbn in Hfuel; lia|].
    pose proof Hlog as (Hwf & _ & Hrest).
    pose proof (wf_entry_size e Hwf) as (_ & Hsz & _).
    pose proof (log_at_size _ _ _ Hrest) as Hls.
    rewrite log_size_cons in Hend.
    cbn [DoesValidRecordExist].
    destruct (Z.ltb_spec off (mSwapUsed s)); [|lia].
    rewrite (log_at_header s off e es Hlog).
    fold (entry_size e). cbn [shadowed existsb].
    destruct (RecordHeader.IsValid (eHeader e) && RecordHeader.IsFirst (eHeader e)
              && (RecordHeader.GetKey (eHeader e) =? aKey)); [reflexivity|].
    rewrite (wrap32_small (off + entry_size e)) by lia.
    cbn [orb]. apply IH; [exact Hrest|lia|lia|cbn in Hfuel; lia].
Qed.

Lemma Swap_loop_log (dst : Z) :
  forall es fuel s off dOff,
  dst <> mSwapIndex s ->
  mSwapUsed s < 4294967296 ->
  log_at (platFlash s (mSwapIndex s)) off es ->
  off + log_size es = mSwapUsed s -> 0 <= off ->
  Forall committed es ->
  0 <= dOff -> dOff + log_size es < 4294967296 ->
  (forall o, dOff <= o < dOff + log_size es -> platFlash s dst o = 0xff) ->
  (length es < fuel)%nat ->
  exists s',
    Swap_loop fuel s dst off dOff = Done (s', dOff + log_size (compact es)) /\
    same_driver s s' /\
    log_at (platFlash s' dst) dOff (compact es) /\
    (forall i o, i <> dst \/ o < dOff \/ dOff + log_size (compact es) <= o ->
                 platFlash s' i o = platFlash s i o).
Proof.
  induction es as [|e es IH];
    intros fuel s off dOff Hdst Hu Hlog Hend Hoff Hcom HdOff Hd32 Hfree Hfuel.
  - destruct fuel as [|fuel]; [cbn in Hfuel; lia|].
    cbn [Swap_loop]. cbn in Hend.
    destruct (Z.ltb_spec off (mSwapUsed s)); [lia|].
    exists s. cbn [compact log_size fold_right log_at]. rewrite Z.add_0_r.
    repeat split; reflexivity.
  - destruct fuel as [|fuel]; [cbn in Hfuel; lia|].
    pose proof Hlog as (Hwf & Hrd & Hrest).
    pose proof (wf_entry_size e Hwf) as (_ & Hsz & _ & Hlen).
    pose proof (log_at_size _ _ _ Hrest) as Hls.
    pose proof (compact_size es) as Hcs.
    inversion Hcom as [|e0 es0 [Hab Hac] Hcom']; subst e0 es0.
    rewrite log_size_cons in Hend, Hd32, Hfree.
    cbn [Swap_loop].
    destruct (Z.ltb_spec off (mSwapUsed s)); [|lia].
    rewrite (log_at_header s off e es Hlog).
    rewrite Hab. cbn [negb]. fold (entry_size e).
    rewrite (wrap32_small (off + entry_size e)) by lia.
    rewrite (DoesValidRecordExist_log _ s Hu es (S fuel) (off + entry_size e))
      by (first [exact Hrest | cbn in Hfuel; lia | lia]).
    assert (Hskip :
      (skip <- (if negb (RecordHeader.IsValid (eHeader e)) then Done true
                else Done (shadowed (RecordHeader.GetKey (eHeader e)) es)) ;;
       (if (skip : bool) then Swap_loop fuel s dst (off + entry_size e) dOff
        else Swap_loop fuel
               (otPlatFlashWrite s dst dOff
                  (otPlatFlashRead s (mSwapIndex s) off (entry_size e)))
               dst (off + entry_size e) (wrap32 (dOff + entry_size e)))) =
      (if negb (RecordHeader.IsValid (eHeader e))
          || shadowed (RecordHeader.GetKey (eHeader e)) es
       then Swap_loop fuel s dst (off + entry_size e) dOff
       else Swap_loop fuel
               (otPlatFlashWrite s dst dOff
                  (otPlatFlashRead s (mSwapIndex s) off (entry_size e)))
               dst (off + entry_size e) (wrap32 (dOff + entry_size e))))
      by (destruct (negb (RecordHeader.IsValid (eHeader e))); reflexivity).
    rewrite Hskip. clear Hskip. cbn [compact].
    destruct (negb (RecordHeader.IsValid (eHeader e))
              || shadowed (RecordHeader.GetKey (eHeader e)) es).
    + destruct (IH fuel s (off + entry_size e) dOff) as (s' & Hrun & Hsd & Hl' & Hfr);
        try assumption; try lia.
      * intros o Ho. apply Hfree. lia.
      * cbn in Hfuel. lia.
      * exists s'. split; [exact Hrun|]. split; [exact Hsd|]. split; [exact Hl'|exact Hfr].
    + unfold otPlatFlashRead. rewrite Hrd.
      rewrite (wrap32_small (dOff + entry_size e)) by lia.
      set (s1 := otPlatFlashWrite s dst dOff (entry_bytes e)).
      assert (Hlog1 : log_at (platFlash s1 (mSwapIndex s1)) (off + entry_size e) es).
      { apply (log_at_ext (platFlash s (mSwapIndex s))); [|exact Hrest].
        intros o Ho. symmetry. apply write_other. left. cbn. congruence. }
      assert (Hend1 : off + entry_size e + log_size es = mSwapUsed s1)
        by (change (mSwapUsed s1) with (mSwapUsed s); lia).
      assert (Hfree1 : forall o, dOff + entry_size e <= o < dOff + entry_size e + log_size es ->
                                 platFlash s1 dst o = 0xff).
      { intros o Ho. unfold s1. rewrite write_other by (right; right; lia).
        apply Hfree. lia. }
      assert (Hfuel1 : (length es < fuel)%nat) by (cbn in Hfuel; lia).
      destruct (IH fuel s1 (off + entry_size e) (dOff + entry_size e)
                  Hdst Hu Hlog1 Hend1 ltac:(lia) Hcom' ltac:(lia) ltac:(lia) Hfree1 Hfuel1)
        as (s' & Hrun & Hsd & Hl' & Hfr).
      exists s'.
      rewrite log_size_cons. rewrite <- Z.add_assoc in Hrun.
      split; [exact Hrun|]. split; [exact Hsd|]. split.
      * cbn [log_at]. split; [exact Hwf|]. split; [|exact Hl'].
        rewrite (read_ext _ (platFlash s1 dst)).
        -- replace (Z.to_nat (entry_size e)) with (length (entry_bytes e)) by lia.
           apply write_erased.
           ++ intros o Ho. apply Hfree. lia.
           ++ unfold entry_bytes. apply Forall_app. split; [|apply Hwf].
              unfold RecordHeader.bytes.
              repeat constructor; first [apply lo8_byte | apply hi8_byte].
        -- intros o Ho. apply Hfr. right. left. lia.
      * intros i o Hio. pose proof (log_size_nonneg (compact es)).
        rewrite Hfr by lia. apply write_other. lia.
Qed.

(** [Swap] needs the records of the active area, not its free space:
    [Init] calls it when the free space is not clean. *)
Lemma Swap_log (fuel : nat) (s : Flash) (es : list entry) :
  mSwapHeaderSize s = 4 ->
  mSwapIndex s = 0 \/ mSwapIndex s = 1 ->
  platSwapSize s = mSwapSize s ->
  kMinSwapSize <= mSwapSize s < 4294967296 ->
  log_at (platFlash s (mSwapIndex s)) 4 es ->
  mSwapUsed s = 4 + log_size es ->
  mSwapUsed s <= mSwapSize s ->
  Forall committed es ->
  enough fuel s ->
  exists s', Swap fuel s = Done s' /\ wf_store s' (compact es) /\
             mSwapSize s' = mSwapSize s /\ platSwapSize s' = platSwapSize s /\
             mSwapIndex s' <> mSwapIndex s.
Proof.
  intros Hh Hi Hp Hsz Hlog Hu Hfit Hcom Hfuel.
  pose proof (log_at_size _ _ _ Hlog) as Hls.
  pose proof (compact_size es) as Hcs.
  pose proof (log_size_nonneg (compact es)) as Hcn.
  unfold enough in Hfuel.
  unfold Swap.
  set (dst := if mSwapIndex s =? 0 then 1 else 0).
  assert (Hdst : dst <> mSwapIndex s /\ (dst = 0 \/ dst = 1)).
  { unfold dst. destruct (Z.eqb_spec (mSwapIndex s) 0); lia. }
  set (s0 := otPlatFlashErase s dst).
  change (mSwapHeaderSize s0) with (mSwapHeaderSize s). rewrite Hh.
  destruct (Swap_loop_log dst es fuel s0 4 4) as (s1 & Hrun & Hsd & Hl1 & Hfr).
  - apply Hdst.
  - change (mSwapUsed s0) with (mSwapUsed s). lia.
  - apply (log_at_ext (platFlash s (mSwapIndex s))); [|exact Hlog].
    intros o Ho. change (mSwapIndex s0) with (mSwapIndex s). unfold s0.
    rewrite erase_cell. destruct (Z.eqb_spec (mSwapIndex s) dst); [|reflexivity].
    destruct Hdst as [Hne _]. congruence.
  - change (mSwapUsed s0) with (mSwapUsed s). lia.
  - lia.
  - exact Hcom.
  - lia.
  - lia.
  - intros o Ho. unfold s0. rewrite erase_cell.
    destruct (Z.eqb_spec dst dst); [|congruence].
    destruct (Z.leb_spec 0 o); [|lia].
    destruct (Z.ltb_spec o (platSwapSize s)); [reflexivity|lia].
  - lia.
  - rewrite Hrun. cbn [bind].
    destruct Hsd as (Hsd1 & Hsd2 & Hsd3 & Hsd4 & Hsd5).
    change (platSwapSize s0) with (platSwapSize s) in Hsd1.
    change (mSwapSize s0) with (mSwapSize s) in Hsd2.
    change (mSwapUsed s0) with (mSwapUsed s) in Hsd3.
    change (mSwapIndex s0) with (mSwapIndex s) in Hsd4.
    change (mSwapHeaderSize s0) with (mSwapHeaderSize s) in Hsd5.
    set (a := SwapHeader.bytes (SwapHeader.SetActive (SwapHeader.mk 0))).
    set (b := SwapHeader.bytes (SwapHeader.SetInactive (SwapHeader.SetActive (SwapHeader.mk 0)))).
    set (s2 := otPlatFlashWrite s1 dst 0 a).
    change (mSwapIndex s2) with (mSwapIndex s1).
    set (s3 := otPlatFlashWrite s2 (mSwapIndex s1) 0 b).
    assert (Hcell : forall o, 4 <= o -> platFlash s3 dst o = platFlash s1 dst o).
    { intros o Ho. unfold s3, s2. rewrite !write_other; [reflexivity| |];
        right; right; cbn; lia. }
    eexists. split; [reflexivity|]. split; [|split; [|split]].
    + constructor; cbn [mSwapHeaderSize mSwapIndex platSwapSize mSwapSize mSwapUsed platFlash
                         with_mSwapUsed with_mSwapIndex];
        change (mSwapHeaderSize s3) with (mSwapHeaderSize s1);
        change (mSwapSize s3) with (mSwapSize s1);
        change (platSwapSize s3) with (platSwapSize s1);
        rewrite ?Hsd5, ?Hsd2, ?Hsd1, ?Hh.
      * reflexivity.
      * apply Hdst.
      * exact Hp.
      * exact Hsz.
      * apply (log_at_ext (platFlash s1 dst)); [|exact Hl1].
        intros o Ho. symmetry. apply Hcell. lia.
      * reflexivity.
      * lia.
      * apply compact_committed. exact Hcom.
      * intros o Ho.
        cbn [mSwapHeaderSize mSwapIndex platSwapSize mSwapSize mSwapUsed platFlash
             with_mSwapUsed with_mSwapIndex] in Ho.
        change (mSwapSize s3) with (mSwapSize s1) in Ho. rewrite Hsd2 in Ho.
        change (platFlash s3 dst o = 0xff).
        rewrite Hcell by lia. rewrite Hfr by lia.
        unfold s0. rewrite erase_cell.
        destruct (Z.eqb_spec dst dst); [|congruence].
        destruct (Z.leb_spec 0 o); [|lia].
        destruct (Z.ltb_spec o (platSwapSize s)); [reflexivity|lia].
    + cbn. exact Hsd2.
    + cbn. exact Hsd1.
    + cbn. apply Hdst.
Qed.

Lemma Swap_wf (fuel : nat) (s : Flash) (es : list entry) :
  wf_store s es -> enough fuel s ->
  exists s', Swap fuel s = Done s' /\ wf_store s' (compact es) /\
             mSwapSize s' = mSwapSize s /\ platSwapSize s' = platSwapSize s /\
             mSwapIndex s' <> mSwapIndex s.
Proof.
  intros Hwf Hf. pose proof (wf_store_bounds s es Hwf) as (Hh & _ & Hu & Hfit & _ & _ & Hp).
  apply Swap_log; try assumption.
  - apply Hwf.
  - apply Hwf.
  - rewrite <- Hh. apply Hwf.
  - apply Hwf.
Qed.

(** ** [Wipe] *)

Lemma Wipe_wf (s : Flash) :
  platSwapSize s = mSwapSize s -> kMinSwapSize <= mSwapSize s < 4294967296 ->
  wf_store (Wipe s) [].
Proof.
  intros Hp Hsz. unfold Wipe.
  set (a := SwapHeader.bytes (SwapHeader.SetActive (SwapHeader.mk 0))).
  set (s1 := otPlatFlashWrite (otPlatFlashErase s 0) 0 0 a).
  constructor; cbn [mSwapHeaderSize mSwapIndex platSwapSize mSwapSize mSwapUsed platFlash
                    with_mSwapUsed with_mSwapIndex with_mSwapHeaderSize log_at log_size fold_right].
  - reflexivity.
  - left. reflexivity.
  - exact Hp.
  - exact Hsz.
  - exact I.
  - reflexivity.
  - change (mSwapSize s1) with (mSwapSize s). change kMinSwapSize with 268 in Hsz.
    unfold SwapHeader.GetSize, wrap8. cbn. lia.
  - constructor.
  - intros o Ho.
    cbn [mSwapHeaderSize mSwapIndex platSwapSize mSwapSize mSwapUsed platFlash
         with_mSwapUsed with_mSwapIndex with_mSwapHeaderSize] in *.
    change (mSwapSize s1) with (mSwapSize s) in Ho.
    change (SwapHeader.GetSize (SwapHeader.SetActive (SwapHeader.mk 0))) with 4 in Ho.
    unfold s1. rewrite write_other by (right; right; cbn; lia).
    rewrite erase_cell. cbn [Z.eqb andb].
    destruct (Z.leb_spec 0 o); [|lia].
    destruct (Z.ltb_spec o (platSwapSize s)); [reflexivity|lia].
Qed.

(** ** [Add]: the space check and the two writes *)

Lemma Add_cases (fuel : nat) (s : Flash) (es : list entry) (aKey : Z) (aFirst : bool)
    (aValue : list Z) (junk : nat -> Z) :
  wf_store s es -> enough fuel s ->
  is_u16 aKey -> Forall is_byte aValue -> Z.of_nat (length aValue) <= 256 ->
  let size := RecordSize (Z.of_nat (length aValue)) in
  let record :=
    Record_.mk (RecordHeader.SetLength (RecordHeader.Init aKey aFirst) (Z.of_nat (length aValue)))
               (Record_.memcpy (Record_.uninitialized junk) aValue) in
  let e := new_entry aKey aFirst aValue junk in
  (mSwapUsed s + size <= mSwapSize s ->
     Add fuel s aKey aFirst aValue junk = Done (OT_ERROR_NONE, Add_write s record) /\
     wf_store (Add_write s record) (es ++ [e]) /\
     mSwapUsed (Add_write s record) = mSwapUsed s + size) /\
  (mSwapUsed s + size > mSwapSize s ->
     exists s1,
       Swap fuel s = Done s1 /\ wf_store s1 (compact es) /\ mSwapSize s1 = mSwapSize s /\
       (mSwapUsed s1 + size > mSwapSize s ->
          Add fuel s aKey aFirst aValue junk = Done (OT_ERROR_NO_BUFS, s1)) /\
       (mSwapUsed s1 + size <= mSwapSize s ->
          Add fuel s aKey aFirst aValue junk = Done (OT_ERROR_NONE, Add_write s1 record) /\
          wf_store (Add_write s1 record) (compact es ++ [e]) /\
          mSwapUsed (Add_write s1 record) = mSwapUsed s1 + size)).
Proof.
  intros Hwf Hfuel Hk Hv Hl size record e.
  pose proof (wf_store_bounds s es Hwf) as (Hh & Hls & Hu & Hf & Hsz & Hn & Hp).
  assert (Hsize : RecordHeader.GetSize (Record_.header record) = size).
  { unfold record. cbn [Record_.header]. rewrite GetSize_RecordSize; [reflexivity|].
    cbn. unfold Record_.kMaxDataSize. lia. }
  assert (Hsb : 8 <= size <= 264).
  { pose proof (wf_entry_size _ (new_entry_wf aKey aFirst aValue junk Hk Hv Hl)) as (Hes & Hb & _).
    unfold e in *. rewrite new_entry_header in Hes. cbn [RecordHeader.mLength] in Hes.
    fold size in Hes. rewrite <- Hes. exact Hb. }
  assert (Hused : forall t, mSwapUsed t + size <= mSwapSize t -> 0 <= mSwapUsed t ->
            mSwapSize t < 4294967296 ->
            mSwapUsed (Add_write t record) = mSwapUsed t + size).
  { intros t Ht Ht0 Ht1. unfold Add_write. rewrite Hsize. cbn [mSwapUsed with_mSwapUsed].
    change (mSwapUsed (otPlatFlashWrite _ _ _ _)) with (mSwapUsed t).
    apply wrap32_small. lia. }
  assert (Hpre : Add fuel s aKey aFirst aValue junk =
    (r <- (if mSwapSize s - size <? mSwapUsed s then
             s' <- Swap fuel s ;;
             Done (s', wrap32 (mSwapSize s' - size) >=? mSwapUsed s')
           else Done (s, true)) ;;
     let '(s, fits) := r in
     if (fits : bool) then Done (OT_ERROR_NONE, Add_write s record)
     else Done (OT_ERROR_NO_BUFS, s))).
  { unfold Add, Record_.SetData, OT_ASSERT.
    destruct (Z.leb_spec (Z.of_nat (length aValue)) Record_.kMaxDataSize) as [_|Hgt];
      [|unfold Record_.kMaxDataSize in Hgt; lia].
    cbn [bind Record_.header Record_.mData]. fold record.
    change (RecordHeader.GetSize (RecordHeader.SetLength (RecordHeader.Init aKey aFirst)
              (Z.of_nat (length aValue)))) with (RecordHeader.GetSize (Record_.header record)).
    rewrite Hsize.
    rewrite (wrap32_small (mSwapSize s - size)) by lia.
    destruct (Z.geb_spec (mSwapSize s - size) (mSwapHeaderSize s)) as [_|Hlt]; [|lia].
    cbn [bind]. reflexivity. }
  split.
  - intros Hfit. rewrite Hpre.
    destruct (Z.ltb_spec (mSwapSize s - size) (mSwapUsed s)); [lia|].
    cbn [bind]. split; [reflexivity|]. split.
    + apply Add_write_wf; assumption.
    + apply Hused; lia.
  - intros Hnofit.
    destruct (Swap_wf fuel s es Hwf Hfuel) as (s1 & Hsw & Hwf1 & Hsz1 & Hp1 & _).
    pose proof (wf_store_bounds s1 _ Hwf1) as (Hh1 & Hls1 & Hu1 & Hf1 & Hsz1' & Hn1 & Hp1').
    exists s1. split; [exact Hsw|]. split; [exact Hwf1|]. split; [exact Hsz1|].
    rewrite Hpre.
    destruct (Z.ltb_spec (mSwapSize s - size) (mSwapUsed s)); [|lia].
    rewrite Hsw. cbn [bind].
    rewrite (wrap32_small (mSwapSize s1 - size)) by lia.
    split.
    + intros Hno. destruct (Z.geb_spec (mSwapSize s1 - size) (mSwapUsed s1)); [lia|].
      reflexivity.
    + intros Hyes. destruct (Z.geb_spec (mSwapSize s1 - size) (mSwapUsed s1)); [|lia].
      split; [reflexivity|]. split.
      * apply Add_write_wf; try assumption. fold size. lia.
      * apply Hused; lia.
Qed.

(** ** [Get] on the list of records *)

Lemma Get_list_app (aKey aIndex : Z) (aValueLength : option Z) (es es' : list entry)
    (l : GetLocals) :
  Get_list aKey aIndex aValueLength (es ++ es') l =
  Get_list aKey aIndex aValueLength es' (Get_list aKey aIndex aValueLength es l).
Proof. unfold Get_list. apply fold_left_app. Qed.

Lemma Get_list_cons (aKey aIndex : Z) (aValueLength : option Z) (e : entry)
    (es : list entry) (l : GetLocals) :
  Get_list aKey aIndex aValueLength (e :: es) l =
  Get_list aKey aIndex aValueLength es
    (Get_body aKey aIndex aValueLength (eHeader e) (entry_payload e) l).
Proof. reflexivity. Qed.

Lemma Get_list_skip (aKey aIndex : Z) (aValueLength : option Z) (es : list entry)
    (l : GetLocals) :
  has_valid aKey es = false -> Get_list aKey aIndex aValueLength es l = l.
Proof.
  induction es as [|e es IH]; intros H; [reflexivity|].
  cbn [has_valid existsb] in H. apply orb_false_iff in H. destruct H as [He Hes].
  rewrite Get_list_cons. unfold Get_body at 1.
  destruct (RecordHeader.GetKey (eHeader e) =? aKey); cbn [negb orb andb] in *.
  - rewrite He. cbn [negb]. apply IH. exact Hes.
  - apply IH. exact Hes.
Qed.

Lemma Get_body_new (aKey aIndex : Z) (aValueLength : option Z) (aFirst : bool)
    (aValue : list Z) (junk : nat -> Z) (l : GetLocals) :
  Get_body aKey aIndex aValueLength (eHeader (new_entry aKey aFirst aValue junk))
    (entry_payload (new_entry aKey aFirst aValue junk)) l =
  let index := if aFirst then 0 else gIndex l in
  if index =? aIndex
  then mkGet OT_ERROR_NONE (Z.of_nat (length aValue)) (index + 1)
         (copy_out (gValue l) aValueLength aValue)
  else mkGet (gError l) (gValueLength l) (index + 1) (gValue l).
Proof.
  unfold Get_body. rewrite new_entry_header.
  unfold RecordHeader.GetKey, RecordHeader.GetLength. cbn [RecordHeader.mKey RecordHeader.mLength].
  rewrite Z.eqb_refl.
  assert (Hv : RecordHeader.IsValid
            (RecordHeader.mk aKey (if aFirst then 65524 else 65532)
               (Z.of_nat (length aValue)) 65535) = true)
    by (destruct aFirst; reflexivity).
  assert (Hf : RecordHeader.IsFirst
            (RecordHeader.mk aKey (if aFirst then 65524 else 65532)
               (Z.of_nat (length aValue)) 65535) = aFirst)
    by (destruct aFirst; reflexivity).
  rewrite Hv, Hf. cbn [negb orb]. cbv zeta.
  destruct ((if aFirst then 0 else gIndex l) =? aIndex); [|reflexivity].
  f_equal. unfold copy_out.
  destruct (gValue l) as [buf|]; [|reflexivity].
  destruct aValueLength as [len|]; [|reflexivity].
  f_equal. f_equal.
  replace (if len >? Z.of_nat (length aValue) then Z.of_nat (length aValue) else len)
    with (Z.min len (Z.of_nat (length aValue)))
    by (destruct (Z.gtb_spec len (Z.of_nat (length aValue))); lia).
  apply new_entry_value. lia.
Qed.

(** A run of appended records (none of them marked first), read from
    index [j] on. *)
Lemma Get_list_run (aKey aIndex : Z) (aValueLength : option Z) :
  forall (vs : list (list Z * (nat -> Z))) (l : GetLocals),
  let r := Get_list aKey aIndex aValueLength
             (map (fun v => new_entry aKey false (fst v) (snd v)) vs) l in
  gIndex r = gIndex l + Z.of_nat (length vs) /\
  (forall k v, nth_error vs k = Some v -> aIndex = gIndex l + Z.of_nat k ->
     gError r = OT_ERROR_NONE /\ gValueLength r = Z.of_nat (length (fst v)) /\
     gValue r = copy_out (gValue l) aValueLength (fst v)) /\
  (aIndex < gIndex l \/ gIndex l + Z.of_nat (length vs) <= aIndex ->
     gError r = gError l /\ gValueLength r = gValueLength l /\ gValue r = gValue l).
Proof.
  induction vs as [|v vs IH]; intros l r.
  - subst r. cbn [map length Get_list fold_left]. split; [lia|]. split.
    + intros k v Hk. destruct k; discriminate.
    + intros _. repeat split.
  - subst r. cbn [map]. rewrite Get_list_cons, Get_body_new. cbv zeta.
    destruct (Z.eqb_spec (gIndex l) aIndex) as [Heq|Hne].
    + specialize (IH (mkGet OT_ERROR_NONE (Z.of_nat (length (fst v))) (gIndex l + 1)
                        (copy_out (gValue l) aValueLength (fst v)))).
      cbv zeta in IH. cbn [gIndex gError gValueLength gValue] in IH.
      destruct IH as (Hi & _ & Hmiss). cbn [length]. split; [lia|]. split.
      * intros k w Hk Hidx. assert (k = 0%nat) by lia. subst k.
        cbn in Hk. injection Hk as <-. apply Hmiss. lia.
      * intros Hout. lia.
    + specialize (IH (mkGet (gError l) (gValueLength l) (gIndex l + 1) (gValue l))).
      cbv zeta in IH. cbn [gIndex gError gValueLength gValue] in IH.
      destruct IH as (Hi & Hhit & Hmiss). cbn [length]. split; [lia|]. split.
      * intros k w Hk Hidx. destruct k as [|k]; [lia|].
        cbn in Hk. apply (Hhit k w Hk). lia.
      * intros Hout. apply Hmiss. lia.
Qed.

Lemma Get_body_buffer (aKey aIndex : Z) (aValueLength : option Z) (h : RecordHeader.t)
    (p : Z -> list Z) (l : GetLocals) :
  (exists b, gValue l = Some b) ->
  exists b, gValue (Get_body aKey aIndex aValueLength h p l) = Some b.
Proof.
  intros [b Hb]. unfold Get_body.
  destruct (negb _ || negb _); [exists b; exact Hb|].
  destruct (_ =? aIndex); cbn [gValue]; rewrite Hb.
  - destruct aValueLength; eexists; reflexivity.
  - eexists; reflexivity.
Qed.

Lemma Get_list_buffer (aKey aIndex : Z) (aValueLength : option Z) (es : list entry) :
  forall l, (exists b, gValue l = Some b) ->
  exists b, gValue (Get_list aKey aIndex aValueLength es l) = Some b.
Proof.
  induction es as [|e es IH]; intros l Hl; [exact Hl|].
  rewrite Get_list_cons. apply IH. apply Get_body_buffer. exact Hl.
Qed.

(** The newest record of a key that was written by [Set] is what
    [Get(key, 0)] returns. *)
Lemma Get_last_Set (fuel : nat) (s : Flash) (es : list entry) (aKey : Z)
    (aValue : list Z) (junk : nat -> Z) (buf : list Z) (maxLength : Z) :
  wf_store s (es ++ [new_entry aKey true aValue junk]) -> enough fuel s ->
  exists rest,
    Get fuel s aKey 0 (Some buf) (Some maxLength) =
    Done (OT_ERROR_NONE,
          Some (firstn (Z.to_nat (Z.min maxLength (Z.of_nat (length aValue)))) aValue ++ rest),
          Some (Z.of_nat (length aValue))).
Proof.
  intros Hwf Hf. rewrite (Get_log fuel s _ aKey 0 _ _ Hwf Hf). cbv zeta.
  rewrite Get_list_app. cbn [Get_list fold_left]. rewrite Get_body_new. cbv zeta.
  cbn [Z.eqb gError gValue gValueLength].
  destruct (Get_list_buffer aKey 0 (Some maxLength) es (mkGet OT_ERROR_NOT_FOUND 0 0 (Some buf)))
    as [b Hb]; [eexists; reflexivity|].
  fold (Get_list aKey 0 (Some maxLength) es (mkGet OT_ERROR_NOT_FOUND 0 0 (Some buf))).
  rewrite Hb. unfold copy_out, Record_.memcpy. eexists. reflexivity.
Qed.

(** When [Add] returns OK, the record is the last one of the log. *)
Lemma Add_done_log (fuel : nat) (s s' : Flash) (es : list entry) (aKey : Z) (aFirst : bool)
    (aValue : list Z) (junk : nat -> Z) :
  wf_store s es -> enough fuel s -> is_u16 aKey -> Forall is_byte aValue ->
  Z.of_nat (length aValue) <= 256 ->
  Add fuel s aKey aFirst aValue junk = Done (OT_ERROR_NONE, s') ->
  exists es', wf_store s' (es' ++ [new_entry aKey aFirst aValue junk]) /\ enough fuel s'.
Proof.
  intros Hwf Hf Hk Hv Hl Hrun.
  destruct (Add_cases fuel s es aKey aFirst aValue junk Hwf Hf Hk Hv Hl) as [Hroom Hfull].
  destruct (Z.le_gt_cases (mSwapUsed s + RecordSize (Z.of_nat (length aValue))) (mSwapSize s))
    as [Hle|Hgt].
  - destruct (Hroom Hle) as (Hadd & Hwf' & _). rewrite Hadd in Hrun.
    injection Hrun as <-. exists es. split; [exact Hwf'|exact Hf].
  - destruct (Hfull ltac:(lia)) as (s1 & Hsw & Hwf1 & Hsz1 & Hno & Hyes).
    pose proof (wf_store_bounds _ _ Hwf) as (_ & _ & _ & _ & _ & _ & Hp).
    pose proof (wf_store_bounds _ _ Hwf1) as (_ & _ & _ & _ & _ & _ & Hp1).
    destruct (Z.le_gt_cases (mSwapUsed s1 + RecordSize (Z.of_nat (length aValue))) (mSwapSize s))
      as [Hle1|Hgt1].
    + destruct (Hyes Hle1) as (Hadd & Hwf' & _). rewrite Hadd in Hrun.
      injection Hrun as <-. exists (compact es). split; [exact Hwf'|].
      unfold enough in *. change (Z.to_nat (platSwapSize s1) <= fuel)%nat. congruence.
    + rewrite (Hno ltac:(lia)) in Hrun. discriminate.
Qed.

(** C1. Round trip: on a store with room for the record [Set(K, V)]
    returns OK; and whenever [Set(K, V)] returns OK, after a compaction
    or not, a following [Get(K, 0)] returns Found, copies the bytes of
    [V] to the front of the buffer (all of them when the buffer takes
    [length V] bytes, the first [maxLength] otherwise) and reports the
    length of [V]. *)
Theorem Set_Get_roundtrip (fuel : nat) (s : Flash) (es : list entry) (aKey : Z)
    (aValue : list Z) (junk : nat -> Z) :
  wf_store s es -> enough fuel s -> is_u16 aKey -> Forall is_byte aValue ->
  Z.of_nat (length aValue) <= 256 ->
  (mSwapUsed s + RecordSize (Z.of_nat (length aValue)) <= mSwapSize s ->
   exists s', Set_ fuel s aKey aValue junk = Done (OT_ERROR_NONE, s')) /\
  (forall s',
     Set_ fuel s aKey aValue junk = Done (OT_ERROR_NONE, s') ->
     (forall (buf : list Z) (maxLength : Z),
        Z.of_nat (length aValue) <= maxLength ->
        exists rest,
          Get fuel s' aKey 0 (Some buf) (Some maxLength) =
          Done (OT_ERROR_NONE, Some (aValue ++ rest), Some (Z.of_nat (length aValue)))) /\
     (forall (buf : list Z) (maxLength : Z),
        exists rest,
          Get fuel s' aKey 0 (Some buf) (Some maxLength) =
          Done (OT_ERROR_NONE,
                Some (firstn (Z.to_nat (Z.min maxLength (Z.of_nat (length aValue)))) aValue
                      ++ rest),
                Some (Z.of_nat (length aValue))))).
Proof.
  intros Hwf Hf Hk Hv Hl. split.
  - intros Hfit.
    destruct (Add_cases fuel s es aKey true aValue junk Hwf Hf Hk Hv Hl) as [Hroom _].
    destruct (Hroom Hfit) as (Hadd & _). eexists. exact Hadd.
  - intros s' Hrun.
    destruct (Add_done_log fuel s s' es aKey true aValue junk Hwf Hf Hk Hv Hl Hrun)
      as (es' & Hwf' & Hf').
    split.
    + intros buf maxLength Hmax.
      destruct (Get_last_Set fuel s' es' aKey aValue junk buf maxLength Hwf' Hf') as [rest Hget].
      exists rest. rewrite Hget.
      replace (Z.to_nat (Z.min maxLength (Z.of_nat (length aValue)))) with (length aValue) by lia.
      rewrite firstn_all. reflexivity.
    + intros buf maxLength.
      apply (Get_last_Set fuel s' es' aKey aValue junk buf maxLength Hwf' Hf').
Qed.

Lemma fresh_wf : wf_store fresh [].
Proof. apply Wipe_wf; [reflexivity|]. vm_compute. split; [discriminate|reflexivity]. Qed.

Lemma Set_Get_roundtrip_witness :
  exists s' rest,
    Set_ 268 fresh 1 [0xaa; 0xbb] no_junk = Done (OT_ERROR_NONE, s') /\
    Get 268 s' 1 0 (Some [0; 0]) (Some 2) = Done (OT_ERROR_NONE, Some ([0xaa; 0xbb] ++ rest), Some 2).
Proof.
  destruct (Set_Get_roundtrip 268 fresh [] 1 [0xaa; 0xbb] no_junk) as (Hset & Hget).
  - exact fresh_wf.
  - unfold enough. vm_compute. lia.
  - unfold is_u16. lia.
  - bytes_ok.
  - cbn. lia.
  - destruct Hset as [s' Hset]; [vm_compute; discriminate|].
    destruct (Hget s' Hset) as [Hfull _].
    destruct (Hfull [0; 0] 2) as [rest Hrest]; [cbn; lia|].
    exists s', rest. split; [exact Hset|exact Hrest].
Defined.

(** ** The flag bits *)

Lemma land_bit (f k : Z) :
  0 <= k -> (Z.land f (Z.shiftl 1 k) =? 0) = negb (Z.testbit f k).
Proof.
  intros Hk. rewrite Z.shiftl_1_l.
  destruct (Z.testbit f k) eqn:Hb; cbn [negb].
  - apply Z.eqb_neq. intros H0.
    assert (Ht : Z.testbit (Z.land f (2 ^ k)) k = true)
      by (rewrite Z.land_spec, Hb, Z.pow2_bits_true by lia; reflexivity).
    rewrite H0, Z.bits_0 in Ht. discriminate.
  - apply Z.eqb_eq. apply Z.bits_inj'. intros n Hn.
    rewrite Z.land_spec, Z.bits_0, Z.pow2_bits_eqb by lia.
    destruct (Z.eqb_spec k n) as [->|]; [rewrite Hb|]; apply andb_false_r || reflexivity.
Qed.

Lemma IsValid_bits (h : RecordHeader.t) :
  RecordHeader.IsValid h = true <->
  Z.testbit (RecordHeader.mFlags h) 1 = false /\ Z.testbit (RecordHeader.mFlags h) 2 = true.
Proof.
  unfold RecordHeader.IsValid.
  change (Z.lor RecordHeader.kFlagAddComplete RecordHeader.kFlagDelete) with 6.
  change RecordHeader.kFlagDelete with 4.
  rewrite Z.eqb_eq. split.
  - intros H. split.
    + assert (Ht : Z.testbit (Z.land (RecordHeader.mFlags h) 6) 1 = Z.testbit 4 1) by (rewrite H; reflexivity).
      rewrite Z.land_spec in Ht. cbn in Ht. rewrite andb_true_r in Ht. exact Ht.
    + assert (Ht : Z.testbit (Z.land (RecordHeader.mFlags h) 6) 2 = Z.testbit 4 2) by (rewrite H; reflexivity).
      rewrite Z.land_spec in Ht. cbn in Ht. rewrite andb_true_r in Ht. exact Ht.
  - intros [H1 H2]. apply Z.bits_inj'. intros n Hn. rewrite Z.land_spec.
    destruct (Z.eq_dec n 0) as [->|H0]; [cbn; apply andb_false_r|].
    destruct (Z.eq_dec n 1) as [->|H1']; [rewrite H1; reflexivity|].
    destruct (Z.eq_dec n 2) as [->|H2']; [rewrite H2; reflexivity|].
    rewrite (Z.bits_above_log2 6 n) by (cbn; lia).
    rewrite (Z.bits_above_log2 4 n) by (cbn; lia).
    apply andb_false_r.
Qed.

(** C3, as the code has it.  A record is valid if and only if its
    AddComplete bit (bit 1) is cleared and its Delete bit (bit 2) is
    still 1, that is, when its write has completed and it has not been
    deleted; records that are not valid are passed over by [Get], by
    [Delete] and by [Swap]. *)
Theorem IsValid_complete_not_deleted (h : RecordHeader.t) :
  (RecordHeader.IsValid h = true <->
     Z.testbit (RecordHeader.mFlags h) 1 = false /\
     Z.testbit (RecordHeader.mFlags h) 2 = true) /\
  RecordHeader.IsValid h =
    RecordHeader.IsAddCompleteSet h && negb (RecordHeader.IsDeleted h) /\
  (forall aKey aIndex aValueLength p l,
     Get_body aKey aIndex aValueLength h p l =
     if RecordHeader.IsValid h then Get_body aKey aIndex aValueLength h p l else l) /\
  (forall aKey aIndex payload index error,
     Delete_entry aKey aIndex (mkEntry h payload) index error =
     if RecordHeader.IsValid h then Delete_entry aKey aIndex (mkEntry h payload) index error
     else (mkEntry h payload, index, error)) /\
  (forall payload es,
     compact (mkEntry h payload :: es) =
     if RecordHeader.IsValid h then compact (mkEntry h payload :: es) else compact es).
Proof.
  split; [apply IsValid_bits|]. split.
  - unfold RecordHeader.IsAddCompleteSet, RecordHeader.IsDeleted.
    unfold RecordHeader.kFlagAddComplete, RecordHeader.kFlagDelete.
    rewrite !land_bit by lia. rewrite negb_involutive.
    destruct (RecordHeader.IsValid h) eqn:Hv.
    + apply IsValid_bits in Hv. destruct Hv as [-> ->]. reflexivity.
    + destruct (Z.testbit (RecordHeader.mFlags h) 1) eqn:H1; [reflexivity|].
      destruct (Z.testbit (RecordHeader.mFlags h) 2) eqn:H2; [|reflexivity].
      assert (Ht : RecordHeader.IsValid h = true) by (apply IsValid_bits; split; assumption).
      congruence.
  - split; [|split].
    + intros. unfold Get_body. destruct (RecordHeader.IsValid h); [reflexivity|].
      rewrite orb_true_r. reflexivity.
    + intros. unfold Delete_entry. cbn [eHeader].
      destruct (RecordHeader.IsValid h); [reflexivity|].
      rewrite orb_true_r. reflexivity.
    + intros. cbn [compact eHeader]. destruct (RecordHeader.IsValid h); reflexivity.
Qed.

(** The header with the flags 0xfff8 has its Delete and AddComplete bits
    both cleared, and is not valid: it is a deleted record. *)
Lemma IsValid_both_cleared_counterexample :
  let h := RecordHeader.mk 1 0xfff8 0 0xffff in
  (RecordHeader.IsDeleted h = true /\ RecordHeader.IsAddCompleteSet h = true) /\
  (Z.testbit (RecordHeader.mFlags h) 1 = false /\ Z.testbit (RecordHeader.mFlags h) 2 = false) /\
  RecordHeader.IsValid h = false /\
  ~ (RecordHeader.IsValid h = true <->
     RecordHeader.IsDeleted h = true /\ RecordHeader.IsAddCompleteSet h = true).
Proof.
  cbv zeta. repeat split.
  intros [_ H]. specialize (H (conj eq_refl eq_refl)). discriminate.
Qed.

(** ** [Get] with a negative index *)




(** ** Appending values to a key *)

Lemma Get_list_found (aKey aIndex : Z) (aValueLength : option Z) (es : list entry) :
  forall l, gError l = OT_ERROR_NONE ->
  gError (Get_list aKey aIndex aValueLength es l) = OT_ERROR_NONE.
Proof.
  induction es as [|e es IH]; intros l Hl; [exact Hl|].
  rewrite Get_list_cons. apply IH. unfold Get_body.
  destruct (negb _ || negb _); [exact Hl|].
  destruct (_ =? aIndex); [reflexivity|exact Hl].
Qed.

(** The probe of the append form: [Get(aKey, 0)] finds a record exactly
    when the log holds a valid record for the key. *)
Lemma Get_list_probe (aKey : Z) (aValueLength : option Z) (es : list entry) :
  forall l, gIndex l = 0 -> gError l = OT_ERROR_NOT_FOUND ->
  gError (Get_list aKey 0 aValueLength es l) =
  if has_valid aKey es then OT_ERROR_NONE else OT_ERROR_NOT_FOUND.
Proof.
  induction es as [|e es IH]; intros l Hi He; [exact He|].
  rewrite Get_list_cons. cbn [has_valid existsb]. fold (has_valid aKey es).
  unfold Get_body at 1.
  destruct (RecordHeader.GetKey (eHeader e) =? aKey); cbn [negb orb andb].
  - destruct (RecordHeader.IsValid (eHeader e)); cbn [negb orb].
    + rewrite Hi. destruct (RecordHeader.IsFirst (eHeader e));
        cbn [Z.eqb]; apply Get_list_found; reflexivity.
    + apply IH; assumption.
  - apply IH; assumption.
Qed.

Lemma has_valid_app (aKey : Z) (es es' : list entry) :
  has_valid aKey (es ++ es') = has_valid aKey es || has_valid aKey es'.
Proof. unfold has_valid. apply existsb_app. Qed.

Lemma has_valid_new (aKey : Z) (aFirst : bool) (aValue : list Z) (junk : nat -> Z) :
  has_valid aKey [new_entry aKey aFirst aValue junk] = true.
Proof.
  cbn [has_valid existsb]. rewrite new_entry_header.
  unfold RecordHeader.GetKey. cbn [RecordHeader.mKey]. rewrite Z.eqb_refl.
  destruct aFirst; reflexivity.
Qed.

Lemma values_size_cons (v : list Z * (nat -> Z)) (vs : list (list Z * (nat -> Z))) :
  values_size (v :: vs) = RecordSize (Z.of_nat (length (fst v))) + values_size vs.
Proof. reflexivity. Qed.

Lemma values_size_nonneg (vs : list (list Z * (nat -> Z))) : 0 <= values_size vs.
Proof.
  induction vs as [|v vs IH]; [cbn; lia|]. rewrite values_size_cons.
  pose proof (padded_bounds (Z.of_nat (length (fst v))) ltac:(lia)). unfold RecordSize. lia.
Qed.

Lemma AddAll_log (fuel : nat) (aKey : Z) :
  is_u16 aKey ->
  forall vs s es,
  wf_store s es -> enough fuel s -> Forall value_ok vs ->
  mSwapUsed s + values_size vs <= mSwapSize s ->
  exists s',
    AddAll fuel s aKey vs = Done (true, s') /\
    wf_store s' (es ++ chain_from aKey (has_valid aKey es) vs) /\
    platSwapSize s' = platSwapSize s.
Proof.
  intros Hk. induction vs as [|v vs IH]; intros s es Hwf Hf Hok Hfit.
  - exists s. cbn [AddAll chain_from]. rewrite app_nil_r.
    split; [reflexivity|]. split; [exact Hwf|reflexivity].
  - inversion Hok as [|v0 vs0 [Hvb Hvl] Hok']; subst v0 vs0.
    unfold Record_.kMaxDataSize in Hvl.
    rewrite values_size_cons in Hfit. pose proof (values_size_nonneg vs) as Hvs.
    cbn [AddAll]. unfold AddAppend.
    rewrite (Get_log fuel s es aKey 0 None None Hwf Hf). cbv zeta. cbn [bind fst].
    rewrite Get_list_probe by reflexivity.
    assert (Hfirst : otError_eqb (if has_valid aKey es then OT_ERROR_NONE else OT_ERROR_NOT_FOUND)
                       OT_ERROR_NOT_FOUND = negb (has_valid aKey es))
      by (destruct (has_valid aKey es); reflexivity).
    rewrite Hfirst.
    destruct (Add_cases fuel s es aKey (negb (has_valid aKey es)) (fst v) (snd v)
                Hwf Hf Hk Hvb Hvl) as [Hroom _].
    destruct (Hroom ltac:(lia)) as (Hadd & Hwf' & Hused').
    rewrite Hadd. cbn [bind snd fst].
    set (s1 := Add_write s _) in *.
    destruct (IH s1 (es ++ [new_entry aKey (negb (has_valid aKey es)) (fst v) (snd v)]))
      as (s' & Hrun & Hwf'' & Hp'').
    + exact Hwf'.
    + exact Hf.
    + exact Hok'.
    + rewrite Hused'. change (mSwapSize s1) with (mSwapSize s). lia.
    + exists s'. rewrite Hrun. cbn [bind fst snd otError_eqb andb]. split; [reflexivity|].
      split; [|exact Hp''].
      rewrite has_valid_app, has_valid_new, orb_true_r in Hwf''.
      rewrite <- app_assoc in Hwf''. exact Hwf''.
Qed.

Lemma chain_from_true (aKey : Z) (vs : list (list Z * (nat -> Z))) :
  chain_from aKey true vs = map (fun v => new_entry aKey false (fst v) (snd v)) vs.
Proof. induction vs as [|v vs IH]; [reflexivity|]. cbn [chain_from map negb]. rewrite IH. reflexivity. Qed.

(** [Get] on a log that ends with the records of [AddAll]. *)
Lemma Get_list_chain (aKey aIndex : Z) (aValue : option (list Z)) (aValueLength : option Z)
    (es : list entry) (vs : list (list Z * (nat -> Z))) :
  has_valid aKey es = false ->
  let r := Get_list aKey aIndex aValueLength (es ++ chain_from aKey false vs)
             (mkGet OT_ERROR_NOT_FOUND 0 0 aValue) in
  (forall k v, nth_error vs k = Some v -> aIndex = Z.of_nat k ->
     gError r = OT_ERROR_NONE /\ gValueLength r = Z.of_nat (length (fst v)) /\
     gValue r = copy_out aValue aValueLength (fst v)) /\
  (aIndex < 0 \/ Z.of_nat (length vs) <= aIndex ->
     gError r = OT_ERROR_NOT_FOUND /\ gValueLength r = 0 /\ gValue r = aValue).
Proof.
  intros Hno r. subst r. rewrite Get_list_app, (Get_list_skip _ _ _ es _ Hno).
  destruct vs as [|v vs].
  - cbn [chain_from Get_list fold_left]. split.
    + intros k v Hk. destruct k; discriminate.
    + intros _. repeat split.
  - cbn [chain_from negb]. rewrite Get_list_cons, Get_body_new, chain_from_true. cbv zeta.
    cbn [gError gValueLength gValue gIndex].
    destruct (Z.eqb_spec 0 aIndex) as [H0|H0].
    + pose proof (Get_list_run aKey aIndex aValueLength vs
                    (mkGet OT_ERROR_NONE (Z.of_nat (length (fst v))) (0 + 1)
                       (copy_out aValue aValueLength (fst v)))) as (_ & _ & Hmiss).
      cbn [gError gValueLength gValue gIndex] in Hmiss. split.
      * intros k w Hk Hidx. assert (k = 0%nat) by lia. subst k.
        cbn in Hk. injection Hk as <-. apply Hmiss. lia.
      * intros Hout. cbn [length] in Hout. lia.
    + pose proof (Get_list_run aKey aIndex aValueLength vs
                    (mkGet OT_ERROR_NOT_FOUND 0 (0 + 1) aValue)) as (_ & Hhit & Hmiss).
      cbn [gError gValueLength gValue gIndex] in Hhit, Hmiss. split.
      * intros k w Hk Hidx. destruct k as [|k]; [lia|].
        cbn in Hk. apply (Hhit k w Hk). lia.
      * intros Hout. cbn [length] in Hout. apply Hmiss. lia.
Qed.

(** C4. Append ordering: on a store without a valid record for key K and
    with room for all the records, after [Add(K, V0); ...; Add(K, Vn)]
    every call has returned OK, [Get(K, i)] returns Found with the bytes
    and the length of [Vi] for every i in [0, n], and [Get(K, n + 1)]
    returns NotFound. *)
Theorem Add_append_ordering (fuel : nat) (s : Flash) (es : list entry) (aKey : Z)
    (vs : list (list Z * (nat -> Z))) :
  wf_store s es -> enough fuel s -> is_u16 aKey ->
  has_valid aKey es = false ->
  Forall value_ok vs ->
  mSwapUsed s + values_size vs <= mSwapSize s ->
  exists s',
    AddAll fuel s aKey vs = Done (true, s') /\
    (forall i v buf maxLength,
       nth_error vs i = Some v ->
       Get fuel s' aKey (Z.of_nat i) (Some buf) (Some maxLength) =
       Done (OT_ERROR_NONE,
             Some (firstn (Z.to_nat (Z.min maxLength (Z.of_nat (length (fst v))))) (fst v)
                   ++ skipn (Z.to_nat (Z.min maxLength (Z.of_nat (length (fst v))))) buf),
             Some (Z.of_nat (length (fst v))))) /\
    (forall aValue aValueLength,
       Get fuel s' aKey (Z.of_nat (length vs)) aValue aValueLength =
       Done (OT_ERROR_NOT_FOUND, aValue,
             match aValueLength with Some _ => Some 0 | None => None end)).
Proof.
  intros Hwf Hf Hk Hno Hok Hfit.
  destruct (AddAll_log fuel aKey Hk vs s es Hwf Hf Hok Hfit) as (s' & Hrun & Hwf' & Hp').
  rewrite Hno in Hwf'.
  assert (Hf' : enough fuel s') by (unfold enough in *; rewrite Hp'; exact Hf).
  exists s'. split; [exact Hrun|]. split.
  - intros i v buf maxLength Hi.
    rewrite (Get_log fuel s' _ aKey (Z.of_nat i) _ _ Hwf' Hf'). cbv zeta.
    pose proof (Get_list_chain aKey (Z.of_nat i) (Some buf) (Some maxLength) es vs Hno)
      as [Hhit _].
    destruct (Hhit i v Hi eq_refl) as (He & Hn & Hv). rewrite He, Hn, Hv.
    unfold copy_out, Record_.memcpy. rewrite length_firstn.
    replace (Init.Nat.min (Z.to_nat (Z.min maxLength (Z.of_nat (length (fst v)))))
               (length (fst v)))
      with (Z.to_nat (Z.min maxLength (Z.of_nat (length (fst v))))) by lia.
    reflexivity.
  - intros aValue aValueLength.
    rewrite (Get_log fuel s' _ aKey _ _ _ Hwf' Hf'). cbv zeta.
    pose proof (Get_list_chain aKey (Z.of_nat (length vs)) aValue aValueLength es vs Hno)
      as [_ Hmiss].
    destruct (Hmiss ltac:(lia)) as (He & Hn & Hv). rewrite He, Hn, Hv. reflexivity.
Qed.

(** ** Clearing the Delete and First flags *)

Lemma SetDeleted_check_all : forall f, is_u16 f -> SetDeleted_check f = true.
Proof. apply u16_check. vm_compute. reflexivity. Qed.

Lemma SetFirst_check_all : forall f, is_u16 f -> SetFirst_check f = true.
Proof. apply u16_check. vm_compute. reflexivity. Qed.

Lemma flag_byte_and_spec (f f' : Z) :
  flag_byte_and f f' = true ->
  is_u16 f' /\ Z.land (lo8 f) (lo8 f') = lo8 f' /\ Z.land (hi8 f) (hi8 f') = hi8 f'.
Proof.
  unfold flag_byte_and. rewrite !andb_true_iff, !Z.eqb_eq, Z.leb_le, Z.ltb_lt.
  unfold is_u16. tauto.
Qed.

Lemma SetDeleted_facts (h : RecordHeader.t) :
  is_u16 (RecordHeader.mFlags h) ->
  flag_cleared h (RecordHeader.SetDeleted h) /\
  RecordHeader.IsFirst (RecordHeader.SetDeleted h) = RecordHeader.IsFirst h /\
  RecordHeader.IsValid (RecordHeader.SetDeleted h) = false /\
  RecordHeader.IsDeleted (RecordHeader.SetDeleted h) = true.
Proof.
  intros Hf. pose proof (SetDeleted_check_all _ Hf) as H.
  destruct h as [k f l r]. cbn [RecordHeader.mFlags] in *.
  unfold SetDeleted_check in H. cbv zeta in H.
  rewrite !andb_true_iff in H. destruct H as (((((Hb & H1) & H2) & H3) & H4) & H5).
  apply flag_byte_and_spec in Hb. destruct Hb as (Hu & Hlo & Hhi).
  apply Bool.eqb_prop in H1, H2, H3. apply negb_true_iff in H4.
  split; [|split; [exact H3|split; [exact H4|exact H5]]].
  constructor; try reflexivity; assumption.
Qed.

Lemma SetFirst_facts (h : RecordHeader.t) :
  is_u16 (RecordHeader.mFlags h) ->
  flag_cleared h (RecordHeader.SetFirst h) /\
  RecordHeader.IsValid (RecordHeader.SetFirst h) = RecordHeader.IsValid h /\
  RecordHeader.IsDeleted (RecordHeader.SetFirst h) = RecordHeader.IsDeleted h /\
  RecordHeader.IsFirst (RecordHeader.SetFirst h) = true.
Proof.
  intros Hf. pose proof (SetFirst_check_all _ Hf) as H.
  destruct h as [k f l r]. cbn [RecordHeader.mFlags] in *.
  unfold SetFirst_check in H. cbv zeta in H.
  rewrite !andb_true_iff in H. destruct H as (((((Hb & H1) & H2) & H3) & H4) & H5).
  apply flag_byte_and_spec in Hb. destruct Hb as (Hu & Hlo & Hhi).
  apply Bool.eqb_prop in H1, H2, H3, H4.
  split; [|split; [exact H3|split; [exact H4|exact H5]]].
  constructor; try reflexivity; assumption.
Qed.

Lemma flag_cleared_refl (h : RecordHeader.t) :
  is_u16 (RecordHeader.mFlags h) -> flag_cleared h h.
Proof.
  intros Hf. constructor; try reflexivity; try exact Hf; apply Z.land_diag.
Qed.

Lemma flag_cleared_wf (h h' : RecordHeader.t) :
  flag_cleared h h' -> wf_header h ->
  wf_header h' /\ RecordHeader.GetSize h' = RecordHeader.GetSize h.
Proof.
  intros [Hk Hl Hr Hf _ _ _ _] (Wk & Wf & Wl & Wr). split.
  - unfold wf_header. rewrite Hk, Hl, Hr. repeat split; try apply Wk; try apply Wl;
      try apply Wr; apply Hf.
  - unfold RecordHeader.GetSize. rewrite Hl. reflexivity.
Qed.

(** Writing the header with a flag cleared over the header in the flash. *)
Lemma flag_cleared_write (s : Flash) (idx off : Z) (h h' : RecordHeader.t) :
  read (platFlash s idx) off 8 = RecordHeader.bytes h ->
  flag_cleared h h' ->
  let s' := otPlatFlashWrite s idx off (RecordHeader.bytes h') in
  read (platFlash s' idx) off 8 = RecordHeader.bytes h' /\
  (forall j o, j <> idx \/ o < off \/ off + 8 <= o -> platFlash s' j o = platFlash s j o).
Proof.
  intros Hrd [Hk Hl Hr Hf Hlo Hhi _ _] s'. split.
  - apply (header_rewrite s idx off h h'); assumption.
  - intros j o Ho. unfold s'. apply write_other. cbn [RecordHeader.bytes length]. lia.
Qed.

(** ** [Delete] rewrites headers in place *)

Lemma flag_cleared_trans (h h' h'' : RecordHeader.t) :
  flag_cleared h h' -> flag_cleared h' h'' -> flag_cleared h h''.
Proof.
  intros [Hk Hl Hr Hf Hlo Hhi Hb Hc] [Hk' Hl' Hr' Hf' Hlo' Hhi' Hb' Hc'].
  constructor; try congruence.
  - rewrite <- Hlo', Z.land_assoc, Hlo. reflexivity.
  - rewrite <- Hhi', Z.land_assoc, Hhi. reflexivity.
Qed.

(** The two conditional writes of the body of the loop of [Delete]. *)
Lemma Delete_step (s : Flash) (idx off : Z) (h : RecordHeader.t) (c1 c2 : bool) :
  read (platFlash s idx) off 8 = RecordHeader.bytes h ->
  is_u16 (RecordHeader.mFlags h) ->
  let r1 := if c1 then RecordHeader.SetDeleted h else h in
  let s1 := if c1 then otPlatFlashWrite s idx off (RecordHeader.bytes r1) else s in
  let r2 := if c2 then RecordHeader.SetFirst r1 else r1 in
  let s2 := if c2 then otPlatFlashWrite s1 idx off (RecordHeader.bytes r2) else s1 in
  read (platFlash s2 idx) off 8 = RecordHeader.bytes r2 /\
  flag_cleared h r2 /\ same_driver s s2 /\
  (forall j o, j <> idx \/ o < off \/ off + 8 <= o -> platFlash s2 j o = platFlash s j o).
Proof.
  intros Hrd Hf r1 s1 r2 s2.
  assert (H1 : read (platFlash s1 idx) off 8 = RecordHeader.bytes r1 /\
               flag_cleared h r1 /\ same_driver s s1 /\
               (forall j o, j <> idx \/ o < off \/ off + 8 <= o ->
                            platFlash s1 j o = platFlash s j o)).
  { subst r1 s1. destruct c1.
    - destruct (SetDeleted_facts h Hf) as (Hc & _).
      destruct (flag_cleared_write s idx off h _ Hrd Hc) as [Hr Hfr].
      split; [exact Hr|]. split; [exact Hc|]. split; [repeat split|exact Hfr].
    - split; [exact Hrd|]. split; [apply flag_cleared_refl; exact Hf|].
      split; [repeat split|reflexivity]. }
  destruct H1 as (Hrd1 & Hc1 & Hsd1 & Hfr1).
  subst r2 s2. destruct c2.
  - destruct (SetFirst_facts r1 (fc_flags _ _ Hc1)) as (Hc & _).
    destruct (flag_cleared_write s1 idx off r1 _ Hrd1 Hc) as [Hr Hfr].
    split; [exact Hr|]. split; [exact (flag_cleared_trans _ _ _ Hc1 Hc)|]. split.
    + destruct Hsd1 as (? & ? & ? & ? & ?). repeat split; assumption.
    + intros j o Ho. rewrite Hfr by exact Ho. apply Hfr1. exact Ho.
  - split; [exact Hrd1|]. split; [exact Hc1|]. split; [exact Hsd1|exact Hfr1].
Qed.

Lemma Delete_entry_eq (aKey aIndex : Z) (e : entry) (index : Z) (error : otError) :
  Delete_entry aKey aIndex e index error =
  if negb (RecordHeader.GetKey (eHeader e) =? aKey)
     || negb (RecordHeader.IsValid (eHeader e))
  then (e, index, error)
  else
    let index0 := if RecordHeader.IsFirst (eHeader e) then 0 else index in
    let c1 := (aIndex =? index0) || (aIndex =? -1) in
    let c2 := (index0 =? 1) && (aIndex =? 0) in
    let r1 := if c1 then RecordHeader.SetDeleted (eHeader e) else eHeader e in
    let r2 := if c2 then RecordHeader.SetFirst r1 else r1 in
    (mkEntry r2 (ePayload e), index0 + 1, if c1 then OT_ERROR_NONE else error).
Proof.
  unfold Delete_entry. destruct (negb _ || negb _); [reflexivity|]. cbv zeta.
  destruct ((aIndex =? _) || (aIndex =? -1)); destruct ((_ =? 1) && (aIndex =? 0)); reflexivity.
Qed.

Lemma Delete_loop_eq (fuel : nat) (s : Flash) (aKey aIndex offset index : Z) (error : otError) :
  Delete_loop (S fuel) s aKey aIndex offset index error =
  if offset <? mSwapUsed s then
    let h := readRecordHeader s offset in
    if negb (RecordHeader.GetKey h =? aKey) || negb (RecordHeader.IsValid h)
    then Delete_loop fuel s aKey aIndex (wrap32 (offset + RecordHeader.GetSize h)) index error
    else
      let index0 := if RecordHeader.IsFirst h then 0 else index in
      let c1 := (aIndex =? index0) || (aIndex =? -1) in
      let c2 := (index0 =? 1) && (aIndex =? 0) in
      let r1 := if c1 then RecordHeader.SetDeleted h else h in
      let s1 := if c1 then otPlatFlashWrite s (mSwapIndex s) offset (RecordHeader.bytes r1) else s in
      let r2 := if c2 then RecordHeader.SetFirst r1 else r1 in
      let s2 := if c2 then otPlatFlashWrite s1 (mSwapIndex s) offset (RecordHeader.bytes r2) else s1 in
      Delete_loop fuel s2 aKey aIndex (wrap32 (offset + RecordHeader.GetSize r2))
        (index0 + 1) (if c1 then OT_ERROR_NONE else error)
  else Done (error, s).
Proof.
  cbn [Delete_loop]. destruct (offset <? mSwapUsed s); [|reflexivity]. cbv zeta.
  destruct (negb _ || negb _); [reflexivity|].
  destruct ((aIndex =? _) || (aIndex =? -1)); destruct ((_ =? 1) && (aIndex =? 0)); reflexivity.
Qed.

Lemma Delete_list_cons (aKey aIndex : Z) (e : entry) (es : list entry) (index : Z)
    (error : otError) :
  let r := Delete_entry aKey aIndex e index error in
  let rs := Delete_list aKey aIndex es (snd (fst r)) (snd r) in
  Delete_list aKey aIndex (e :: es) index error = (fst (fst r) :: fst rs, snd rs).
Proof.
  cbv zeta. cbn [Delete_list].
  destruct (Delete_entry aKey aIndex e index error) as [[e' i'] err'].
  cbn [fst snd]. destruct (Delete_list aKey aIndex es i' err'). reflexivity.
Qed.

(** What [Delete] leaves of one record. *)
Lemma Delete_entry_cleared (aKey aIndex : Z) (e : entry) (index : Z) (error : otError) :
  is_u16 (RecordHeader.mFlags (eHeader e)) ->
  let e' := fst (fst (Delete_entry aKey aIndex e index error)) in
  flag_cleared (eHeader e) (eHeader e') /\ ePayload e' = ePayload e.
Proof.
  intros Hf. rewrite Delete_entry_eq.
  destruct (negb _ || negb _); cbn [fst snd].
  - split; [apply flag_cleared_refl; exact Hf|reflexivity].
  - cbv zeta. cbn [eHeader ePayload]. split; [|reflexivity].
    set (c1 := (aIndex =? _) || (aIndex =? -1)). set (c2 := (_ =? 1) && (aIndex =? 0)).
    assert (H1 : flag_cleared (eHeader e)
                   (if c1 then RecordHeader.SetDeleted (eHeader e) else eHeader e)).
    { destruct c1; [apply SetDeleted_facts; exact Hf|apply flag_cleared_refl; exact Hf]. }
    destruct c2; [|exact H1].
    apply (flag_cleared_trans _ _ _ H1). apply SetFirst_facts. apply (fc_flags _ _ H1).
Qed.

Lemma flag_cleared_entry (e e' : entry) :
  flag_cleared (eHeader e) (eHeader e') -> ePayload e' = ePayload e ->
  wf_entry e ->
  wf_entry e' /\ entry_size e' = entry_size e /\ (committed e -> committed e').
Proof.
  intros Hc Hp (Hh & Hl & Hb).
  destruct (flag_cleared_wf _ _ Hc Hh) as [Hh' Hs].
  split; [|split].
  - split; [exact Hh'|]. rewrite Hp, (fc_length _ _ Hc). split; assumption.
  - exact Hs.
  - intros [Ha Hb']. split; [rewrite (fc_begin _ _ Hc)|rewrite (fc_complete _ _ Hc)]; assumption.
Qed.

Lemma Delete_loop_log (aKey aIndex : Z) :
  forall es fuel s off index error,
  mSwapUsed s < 4294967296 ->
  log_at (platFlash s (mSwapIndex s)) off es ->
  off + log_size es = mSwapUsed s -> 0 <= off ->
  (length es < fuel)%nat ->
  exists s',
    Delete_loop fuel s aKey aIndex off index error
    = Done (snd (Delete_list aKey aIndex es index error), s') /\
    same_driver s s' /\
    log_at (platFlash s' (mSwapIndex s)) off (fst (Delete_list aKey aIndex es index error)) /\
    log_size (fst (Delete_list aKey aIndex es index error)) = log_size es /\
    (Forall committed es ->
     Forall committed (fst (Delete_list aKey aIndex es index error))) /\
    (forall j o, j <> mSwapIndex s \/ o < off \/ off + log_size es <= o ->
                 platFlash s' j o = platFlash s j o).
Proof.
  induction es as [|e es IH]; intros fuel s off index error Hu Hlog Hend Hoff Hfuel.
  - destruct fuel as [|fuel]; [cbn in Hfuel; lia|].
    rewrite Delete_loop_eq. cbn in Hend.
    destruct (Z.ltb_spec off (mSwapUsed s)); [lia|].
    exists s. cbn [Delete_list fst snd log_at].
    split; [reflexivity|]. split; [apply same_driver_refl|]. split; [exact I|].
    split; [reflexivity|]. split; [intros _; constructor|reflexivity].
  - destruct fuel as [|fuel]; [cbn in Hfuel; lia|].
    pose proof Hlog as (Hwf & Hrd & Hrest).
    pose proof (wf_entry_size e Hwf) as (_ & Hsz & _ & Hlen).
    pose proof (log_at_size _ _ _ Hrest) as Hls.
    rewrite log_size_cons in Hend.
    assert (Hfuel' : (length es < fuel)%nat) by (cbn in Hfuel; lia).
    assert (Hhdr : read (platFlash s (mSwapIndex s)) off 8 = RecordHeader.bytes (eHeader e)).
    { rewrite <- (read_firstn _ _ (Z.to_nat (entry_size e))) by lia. rewrite Hrd. reflexivity. }
    assert (Hfl : is_u16 (RecordHeader.mFlags (eHeader e))) by apply Hwf.
    pose proof (Delete_entry_cleared aKey aIndex e index error Hfl) as Hcl.
    cbv zeta in Hcl. destruct Hcl as [Hcl Hpl].
    destruct (flag_cleared_entry _ _ Hcl Hpl Hwf) as (Hwf' & Hsz' & Hcom').
    rewrite Delete_loop_eq.
    destruct (Z.ltb_spec off (mSwapUsed s)); [|lia].
    rewrite (log_at_header s off e es Hlog). cbv zeta.
    pose proof (Delete_list_cons aKey aIndex e es index error) as Hcons. cbv zeta in Hcons.
    rewrite Hcons. cbn [fst snd]. clear Hcons.
    rewrite Delete_entry_eq in *.
    destruct (negb (RecordHeader.GetKey (eHeader e) =? aKey)
              || negb (RecordHeader.IsValid (eHeader e))).
    + cbn [fst snd] in *. fold (entry_size e).
      rewrite (wrap32_small (off + entry_size e)) by lia.
      destruct (IH fuel s (off + entry_size e) index error Hu Hrest ltac:(lia) ltac:(lia) Hfuel')
        as (s' & Hrun & Hsd & Hl' & Hsize & Hc' & Hfr).
      exists s'. split; [exact Hrun|]. split; [exact Hsd|]. split; [|split; [|split]].
      * cbn [log_at]. split; [exact Hwf|]. split; [|exact Hl'].
        rewrite <- Hrd. apply read_ext. intros o Ho. apply Hfr. lia.
      * rewrite !log_size_cons, Hsize. reflexivity.
      * intros Hc. inversion Hc; subst. constructor; [assumption|apply Hc'; assumption].
      * intros j o Ho. apply Hfr. rewrite log_size_cons in Ho. lia.
    + cbv zeta in *. cbn [fst snd] in *.
      set (index0 := if RecordHeader.IsFirst (eHeader e) then 0 else index) in *.
      set (c1 := (aIndex =? index0) || (aIndex =? -1)) in *.
      set (c2 := (index0 =? 1) && (aIndex =? 0)) in *.
      destruct (Delete_step s (mSwapIndex s) off (eHeader e) c1 c2 Hhdr Hfl)
        as (Hrd2 & _ & Hsd2 & Hfr2).
      set (r1 := if c1 then RecordHeader.SetDeleted (eHeader e) else eHeader e) in *.
      set (s1 := if c1 then otPlatFlashWrite s (mSwapIndex s) off (RecordHeader.bytes r1) else s) in *.
      set (r2 := if c2 then RecordHeader.SetFirst r1 else r1) in *.
      set (s2 := if c2 then otPlatFlashWrite s1 (mSwapIndex s) off (RecordHeader.bytes r2) else s1) in *.
      set (e' := mkEntry r2 (ePayload e)) in *.
      change (RecordHeader.GetSize r2) with (entry_size e'). rewrite Hsz'.
      rewrite (wrap32_small (off + entry_size e)) by lia.
      destruct Hsd2 as (Hp2 & Hss2 & Hu2 & Hi2 & Hh2).
      assert (Hrest2 : log_at (platFlash s2 (mSwapIndex s2)) (off + entry_size e) es).
      { rewrite Hi2. apply (log_at_ext (platFlash s (mSwapIndex s))); [|exact Hrest].
        intros o Ho. symmetry. apply Hfr2. lia. }
      destruct (IH fuel s2 (off + entry_size e) (index0 + 1)
                  (if c1 then OT_ERROR_NONE else error)
                  ltac:(lia) Hrest2 ltac:(lia) ltac:(lia) Hfuel')
        as (s' & Hrun & Hsd & Hl' & Hsize & Hc' & Hfr).
      rewrite Hi2 in Hl', Hfr.
      exists s'. split; [exact Hrun|]. split; [|split; [|split; [|split]]].
      * destruct Hsd as (? & ? & ? & ? & ?). repeat split; congruence.
      * cbn [log_at]. split; [exact Hwf'|]. split.
        -- rewrite Hsz'.
           replace (Z.to_nat (entry_size e)) with (8 + (Z.to_nat (entry_size e) - 8))%nat by lia.
           rewrite read_app. unfold entry_bytes. f_equal.
           ++ etransitivity; [|exact Hrd2].
              apply read_ext. intros o Ho. apply Hfr. lia.
           ++ cbn [ePayload e'].
              change (ePayload e) with (skipn 8 (entry_bytes e)). rewrite <- Hrd.
              rewrite read_skipn by lia. apply read_ext. intros o Ho.
              rewrite Hfr by lia. apply Hfr2. lia.
        -- rewrite Hsz'. exact Hl'.
      * rewrite !log_size_cons, Hsize, Hsz'. reflexivity.
      * intros Hc. inversion Hc; subst. constructor; [apply Hcom'; assumption|apply Hc'; assumption].
      * intros j o Ho. rewrite log_size_cons in Ho. rewrite Hfr by lia. apply Hfr2. lia.
Qed.

Lemma Delete_wf (fuel : nat) (s : Flash) (es : list entry) (aKey aIndex : Z) :
  wf_store s es -> enough fuel s ->
  exists s',
    Delete fuel s aKey aIndex
    = Done (snd (Delete_list aKey aIndex es 0 OT_ERROR_NOT_FOUND), s') /\
    wf_store s' (fst (Delete_list aKey aIndex es 0 OT_ERROR_NOT_FOUND)) /\
    platSwapSize s' = platSwapSize s.
Proof.
  intros Hwf Hf. pose proof (wf_store_bounds s es Hwf) as (Hh & Hls & Hu & Hfit & Hsz & Hn & Hp).
  unfold Delete. rewrite Hh.
  destruct (Delete_loop_log aKey aIndex es fuel s 4 0 OT_ERROR_NOT_FOUND)
    as (s' & Hrun & Hsd & Hl' & Hsize & Hc' & Hfr).
  - lia.
  - rewrite <- Hh. apply Hwf.
  - lia.
  - lia.
  - apply (enough_length fuel s es Hwf Hf).
  - destruct Hsd as (Hp' & Hs' & Hu' & Hi' & Hh').
    exists s'. split; [exact Hrun|]. split; [|exact Hp'].
    constructor.
    + rewrite Hh'. apply Hwf.
    + rewrite Hi'. apply Hwf.
    + congruence.
    + rewrite Hs'. apply Hwf.
    + rewrite Hi', Hh', Hh. exact Hl'.
    + rewrite Hu', Hh', Hsize. apply Hwf.
    + rewrite Hu', Hs'. exact Hfit.
    + apply Hc'. apply Hwf.
    + intros o Ho. rewrite Hu', Hs' in Ho. rewrite Hi', Hfr by lia.
      apply (wf_free s es Hwf). lia.
Qed.

Lemma Delete_list_effect (aKey aIndex : Z) :
  forall es index error,
  Forall (fun e => is_u16 (RecordHeader.mFlags (eHeader e))) es ->
  Forall2 (Delete_effect aIndex) (combine es (ordinals aKey es index))
          (fst (Delete_list aKey aIndex es index error)) /\
  snd (Delete_list aKey aIndex es index error) =
    (if existsb (selected aIndex) (ordinals aKey es index) then OT_ERROR_NONE else error).
Proof.
  induction es as [|e es IH]; intros index error Hu.
  - cbn. split; [constructor|reflexivity].
  - inversion Hu as [|e0 es0 Hf Hu']; subst e0 es0.
    pose proof (Delete_list_cons aKey aIndex e es index error) as Hcons. cbv zeta in Hcons.
    rewrite Hcons. clear Hcons. cbn [fst snd ordinals].
    rewrite Delete_entry_eq.
    destruct (RecordHeader.GetKey (eHeader e) =? aKey); cbn [negb orb andb].
    + destruct (RecordHeader.IsValid (eHeader e)) eqn:Hv; cbn [negb].
      * cbv zeta. cbn [fst snd combine existsb].
        set (index0 := if RecordHeader.IsFirst (eHeader e) then 0 else index).
        destruct (IH (index0 + 1)
                    (if (aIndex =? index0) || (aIndex =? -1) then OT_ERROR_NONE else error) Hu')
          as [HF He].
        split.
        -- constructor; [|exact HF].
           unfold Delete_effect. cbn [fst snd eHeader ePayload selected].
           replace ((aIndex =? -1) || (index0 =? aIndex))
             with ((aIndex =? index0) || (aIndex =? -1))
             by (rewrite (Z.eqb_sym index0), orb_comm; reflexivity).
           destruct (SetDeleted_facts (eHeader e) Hf) as (Hcd & Hfd & Hvd & Hdd).
           destruct (SetFirst_facts _ (fc_flags _ _ Hcd)) as (Hcf & Hvf & Hdf & _).
           destruct (SetFirst_facts _ Hf) as (Hcf' & Hvf' & Hdf' & _).
           destruct ((aIndex =? index0) || (aIndex =? -1));
             destruct ((index0 =? 1) && (aIndex =? 0)); cbv iota.
           ++ rewrite (fc_key _ _ Hcf), (fc_length _ _ Hcf), Hvf, Hdf.
              rewrite (fc_key _ _ Hcd), (fc_length _ _ Hcd). repeat split; assumption.
           ++ rewrite (fc_key _ _ Hcd), (fc_length _ _ Hcd). repeat split; assumption.
           ++ rewrite (fc_key _ _ Hcf'), (fc_length _ _ Hcf'). repeat split; assumption.
           ++ repeat split.
        -- rewrite He.
           change (selected aIndex (Some index0)) with ((aIndex =? -1) || (index0 =? aIndex)).
           replace ((aIndex =? -1) || (index0 =? aIndex))
             with ((aIndex =? index0) || (aIndex =? -1))
             by (rewrite (Z.eqb_sym index0), orb_comm; reflexivity).
           destruct ((aIndex =? index0) || (aIndex =? -1)); cbn [orb]; [|reflexivity].
           destruct (existsb _ _); reflexivity.
      * cbn [fst snd combine existsb selected orb].
        destruct (IH index error Hu') as [HF He]. split; [|exact He].
        constructor; [|exact HF]. unfold Delete_effect. cbn [fst snd selected]. repeat split.
    + cbn [fst snd combine existsb selected orb].
      destruct (IH index error Hu') as [HF He]. split; [|exact He].
      constructor; [|exact HF]. unfold Delete_effect. cbn [fst snd selected]. repeat split.
Qed.

Lemma has_valid_cons (aKey : Z) (e : entry) (es : list entry) :
  has_valid aKey (e :: es) =
  (RecordHeader.GetKey (eHeader e) =? aKey) && RecordHeader.IsValid (eHeader e)
  || has_valid aKey es.
Proof. reflexivity. Qed.

(** After [Delete(key, -1)] the log holds no valid record of the key. *)
Lemma Delete_list_all (aKey : Z) :
  forall es index error,
  Forall (fun e => is_u16 (RecordHeader.mFlags (eHeader e))) es ->
  has_valid aKey (fst (Delete_list aKey (-1) es index error)) = false.
Proof.
  induction es as [|e es IH]; intros index error Hu; [reflexivity|].
  inversion Hu as [|e0 es0 Hf Hu']; subst e0 es0.
  pose proof (Delete_list_cons aKey (-1) e es index error) as Hcons. cbv zeta in Hcons.
  rewrite Hcons. clear Hcons. cbn [fst]. rewrite has_valid_cons.
  rewrite IH by exact Hu'. rewrite orb_false_r.
  rewrite Delete_entry_eq.
  destruct (RecordHeader.GetKey (eHeader e) =? aKey) eqn:Hk; cbn [negb orb].
  - destruct (RecordHeader.IsValid (eHeader e)) eqn:Hv; cbn [negb fst].
    + cbv zeta. cbn [fst eHeader].
      rewrite (orb_true_r ((-1 =? _))).
      destruct (SetDeleted_facts (eHeader e) Hf) as (Hcd & _ & Hvd & _).
      destruct (SetFirst_facts _ (fc_flags _ _ Hcd)) as (_ & Hvf & _).
      destruct (_ && (-1 =? 0)); cbv iota; [rewrite Hvf|]; rewrite Hvd; apply andb_false_r.
    + rewrite Hv. apply andb_false_r.
  - cbn [fst]. rewrite Hk. reflexivity.
Qed.

Lemma log_at_flags (mem : Z -> Z) (es : list entry) :
  forall off, log_at mem off es ->
  Forall (fun e => is_u16 (RecordHeader.mFlags (eHeader e))) es.
Proof.
  induction es as [|e es IH]; intros off H; [constructor|].
  destruct H as (He & _ & Hr). constructor; [apply He|apply (IH _ Hr)].
Qed.

(** C6. [Delete(key, index)] returns; in the log it leaves, the valid
    records of the key whose counter equals [index] (every valid record of
    the key when [index] is -1) are tombstoned, the counter restarting at 0
    on every valid record of the key that is marked First, and the other
    records are valid or not as before; it returns OK if and only if a
    record was tombstoned and NotFound otherwise; and after
    [Delete(K, -1)], [Get(K, 0)] returns NotFound. *)
Theorem Delete_tombstones (fuel : nat) (s : Flash) (es : list entry) (aKey aIndex : Z) :
  wf_store s es -> enough fuel s ->
  exists s' es',
    Delete fuel s aKey aIndex =
    Done (if existsb (selected aIndex) (ordinals aKey es 0)
          then OT_ERROR_NONE else OT_ERROR_NOT_FOUND, s') /\
    wf_store s' es' /\
    Forall2 (Delete_effect aIndex) (combine es (ordinals aKey es 0)) es' /\
    (aIndex = -1 ->
     forall aValue aValueLength,
       Get fuel s' aKey 0 aValue aValueLength =
       Done (OT_ERROR_NOT_FOUND, aValue,
             match aValueLength with Some _ => Some 0 | None => None end)).
Proof.
  intros Hwf Hf.
  destruct (Delete_wf fuel s es aKey aIndex Hwf Hf) as (s' & Hrun & Hwf' & Hp').
  pose proof (log_at_flags _ _ _ (wf_log s es Hwf)) as Hfl.
  destruct (Delete_list_effect aKey aIndex es 0 OT_ERROR_NOT_FOUND Hfl) as [HF He].
  exists s', (fst (Delete_list aKey aIndex es 0 OT_ERROR_NOT_FOUND)).
  rewrite <- He. split; [exact Hrun|]. split; [exact Hwf'|]. split; [exact HF|].
  intros -> aValue aValueLength.
  assert (Hf' : enough fuel s') by (unfold enough in *; rewrite Hp'; exact Hf).
  rewrite (Get_log fuel s' _ aKey 0 aValue aValueLength Hwf' Hf'). cbv zeta.
  rewrite Get_list_skip by (apply Delete_list_all; exact Hfl).
  reflexivity.
Qed.

(** ** [Init]: the scan for the write frontier *)




Lemma Init_scan_log (s : Flash) :
  8 <= mSwapSize s < 4294967296 ->
  forall es fuel off,
  log_at (platFlash s (mSwapIndex s)) off es ->
  Forall committed es -> 0 <= off ->
  off + log_size es <= mSwapSize s ->
  (off + log_size es <= mSwapSize s - 8 ->
   let h := readRecordHeader s (off + log_size es) in
   RecordHeader.IsAddBeginSet h && RecordHeader.IsAddCompleteSet h = false) ->
  (length es < fuel)%nat ->
  Init_scan fuel s off = Done (off + log_size es).
Proof.
  intros Hsz. induction es as [|e es IH]; intros fuel off Hlog Hcom Hoff Hfit Hstop Hfuel.
  - destruct fuel as [|fuel]; [cbn in Hfuel; lia|].
    cbn [Init_scan log_size fold_right] in *. rewrite Z.add_0_r in *.
    rewrite wrap32_small by (unfold RecordHeader.sizeof; lia).
    destruct (Z.leb_spec off (mSwapSize s - RecordHeader.sizeof)) as [Hle|Hgt]; [|reflexivity].
    unfold RecordHeader.sizeof in Hle. specialize (Hstop Hle). cbv zeta in Hstop.
    destruct (RecordHeader.IsAddBeginSet (readRecordHeader s off)); [|reflexivity].
    cbn [andb] in Hstop. rewrite Hstop. reflexivity.
  - destruct fuel as [|fuel]; [cbn in Hfuel; lia|].
    pose proof Hlog as (Hwf & _ & Hrest).
    pose proof (wf_entry_size e Hwf) as (_ & Hes & _).
    pose proof (log_at_size _ _ _ Hrest) as Hls.
    inversion Hcom as [|e0 es0 [Hab Hac] Hcom']; subst e0 es0.
    rewrite log_size_cons in *.
    cbn [Init_scan]. rewrite wrap32_small by (unfold RecordHeader.sizeof; lia).
    destruct (Z.leb_spec off (mSwapSize s - RecordHeader.sizeof)) as [Hle|Hgt];
      [|unfold RecordHeader.sizeof in Hgt; lia].
    rewrite (log_at_header s off e es Hlog), Hab, Hac. cbn [negb].
    fold (entry_size e). rewrite (wrap32_small (off + entry_size e)) by lia.
    rewrite Z.add_assoc.
    apply IH; [exact Hrest | exact Hcom' | lia | rewrite <- Z.add_assoc; exact Hfit
              | rewrite <- Z.add_assoc; exact Hstop | cbn in Hfuel; lia].
Qed.

(** ** [SanitizeFreeSpace] *)

Lemma readWord_erased (s : Flash) (off : Z) :
  (forall i o, is_byte (platFlash s i o)) ->
  readWord s off = 0xffffffff ->
  forall o, off <= o < off + 4 -> platFlash s (mSwapIndex s) o = 0xff.
Proof.
  intros Hb Hw o Ho. unfold readWord, otPlatFlashRead, read in Hw.
  change (Z.to_nat 4) with 4%nat in Hw. cbn [seq map] in Hw.
  unfold le32 in Hw.
  pose proof (Hb (mSwapIndex s) (off + Z.of_nat 0)) as B0.
  pose proof (Hb (mSwapIndex s) (off + Z.of_nat 1)) as B1.
  pose proof (Hb (mSwapIndex s) (off + Z.of_nat 2)) as B2.
  pose proof (Hb (mSwapIndex s) (off + Z.of_nat 3)) as B3.
  unfold is_byte in *.
  assert (Hcases : o = off + Z.of_nat 0 \/ o = off + Z.of_nat 1 \/
                   o = off + Z.of_nat 2 \/ o = off + Z.of_nat 3) by lia.
  destruct Hcases as [-> | [-> | [-> | ->]]]; lia.
Qed.

Lemma Sanitize_loop_spec (s : Flash) :
  (forall i o, is_byte (platFlash s i o)) ->
  mSwapSize s mod 4 = 0 -> mSwapSize s < 4294967296 ->
  forall fuel off,
  off mod 4 = 0 -> 0 <= off ->
  (Z.to_nat (mSwapSize s - off) < fuel)%nat ->
  exists b, Sanitize_loop fuel s off = Done b /\
            (b = false -> forall o, off <= o < mSwapSize s ->
                          platFlash s (mSwapIndex s) o = 0xff).
Proof.
  intros Hb Hal Hsz. induction fuel as [|fuel IH]; intros off Hoff H0 Hfuel; [lia|].
  cbn [Sanitize_loop].
  destruct (Z.ltb_spec off (mSwapSize s)) as [Hlt|Hge].
  - destruct (Z.eqb_spec (readWord s off) 0xffffffff) as [Hw|Hw]; cbn [negb].
    + assert (Hnext : off + 4 <= mSwapSize s).
      { pose proof (Z.div_mod off 4). pose proof (Z.div_mod (mSwapSize s) 4). lia. }
      rewrite wrap32_small by lia.
      destruct (IH (off + 4)) as (b & Hrun & Hclean).
      * rewrite Zplus_mod, Hoff. reflexivity.
      * lia.
      * lia.
      * exists b. split; [exact Hrun|]. intros Hbf o Ho.
        destruct (Z.lt_ge_cases o (off + 4)) as [Hin|Hout].
        -- apply (readWord_erased s off Hb Hw). lia.
        -- apply (Hclean Hbf). lia.
    + exists true. split; [reflexivity|discriminate].
  - exists false. split; [reflexivity|]. intros _ o Ho. lia.
Qed.

Lemma log_at_aligned (mem : Z -> Z) (es : list entry) :
  forall off, log_at mem off es -> log_size es mod 4 = 0.
Proof.
  induction es as [|e es IH]; intros off H; [reflexivity|].
  destruct H as (Hwf & _ & Hrest). rewrite log_size_cons.
  pose proof (wf_entry_size e Hwf) as (_ & _ & Ha & _).
  rewrite Zplus_mod, Ha, (IH _ Hrest). reflexivity.
Qed.

Lemma land_3 (x : Z) : (Z.land x 3 =? 0) = (x mod 4 =? 0).
Proof. change 3 with (Z.ones 2). rewrite Z.land_ones by lia. reflexivity. Qed.

(** [SanitizeFreeSpace] on a swap area that [Init] has scanned. *)
Lemma SanitizeFreeSpace_image (fuel : nat) (s : Flash) (es : list entry) :
  mSwapHeaderSize s = 4 ->
  mSwapIndex s = 0 \/ mSwapIndex s = 1 ->
  platSwapSize s = mSwapSize s ->
  kMinSwapSize <= mSwapSize s < 4294967296 ->
  mSwapSize s mod 4 = 0 ->
  (forall i o, is_byte (platFlash s i o)) ->
  log_at (platFlash s (mSwapIndex s)) 4 es ->
  mSwapUsed s = 4 + log_size es ->
  mSwapUsed s <= mSwapSize s ->
  Forall committed es ->
  enough fuel s ->
  exists s' es', SanitizeFreeSpace fuel s = Done s' /\ wf_store s' es' /\
                 platSwapSize s' = platSwapSize s.
Proof.
  intros Hh Hi Hp Hsz Hal Hb Hlog Hu Hfit Hcom Hfuel.
  pose proof (log_at_aligned _ _ _ Hlog) as Hla.
  pose proof (log_size_nonneg es) as Hln.
  assert (Hua : mSwapUsed s mod 4 = 0) by (rewrite Hu, Zplus_mod, Hla; reflexivity).
  unfold SanitizeFreeSpace. rewrite land_3, Hua. cbn [Z.eqb negb].
  destruct (Sanitize_loop_spec s Hb Hal ltac:(lia) fuel (mSwapUsed s) Hua ltac:(lia))
    as (b & Hrun & Hclean).
  - unfold enough in Hfuel. change kMinSwapSize with 268 in Hsz. lia.
  - rewrite Hrun. cbn [bind]. destruct b.
    + destruct (Swap_log fuel s es Hh Hi Hp Hsz Hlog Hu Hfit Hcom Hfuel)
        as (s' & Hsw & Hwf' & _ & Hp' & _).
      exists s', (compact es). split; [exact Hsw|]. split; [exact Hwf'|exact Hp'].
    + exists s, es. split; [reflexivity|]. split; [|reflexivity].
      constructor; try assumption.
      * rewrite Hh. exact Hlog.
      * rewrite Hh. exact Hu.
      * intros o Ho. apply (Hclean eq_refl). exact Ho.
Qed.

Lemma Init_select_spec (s : Flash) :
  Init_select s =
  if SwapHeader.IsActive (readSwapHeader s 0)
  then Some (with_mSwapHeaderSize (with_mSwapIndex s 0) 4)
  else if SwapHeader.IsActive (readSwapHeader s 1)
       then Some (with_mSwapHeaderSize (with_mSwapIndex s 1) 4)
       else None.
Proof. reflexivity. Qed.

(** [Init] on the flash that the driver left returns a store that
    satisfies the invariant. *)
Lemma Init_image (fuel : nat) (s : Flash) :
  flash_image s -> enough fuel s ->
  exists s' es, Init fuel s = Done s' /\ wf_store s' es /\
                platSwapSize s' = platSwapSize s.
Proof.
  intros (Hsz & Hal & Hb & Himg) Hfuel.
  unfold Init. unfold otPlatFlashGetSwapSize.
  rewrite wrap32_small by (change kMinSwapSize with 268 in Hsz; lia).
  set (s0 := with_mSwapSize s (platSwapSize s)).
  rewrite Init_select_spec.
  change (readSwapHeader s0 0) with (readSwapHeader s 0).
  change (readSwapHeader s0 1) with (readSwapHeader s 1).
  assert (Hsel : forall i, i = 0 \/ i = 1 ->
            SwapHeader.IsActive (readSwapHeader s i) = true ->
            exists s' es,
              (used <- Init_scan fuel (with_mSwapHeaderSize (with_mSwapIndex s0 i) 4)
                         (mSwapHeaderSize (with_mSwapHeaderSize (with_mSwapIndex s0 i) 4)) ;;
               SanitizeFreeSpace fuel
                 (with_mSwapUsed (with_mSwapHeaderSize (with_mSwapIndex s0 i) 4) used))
              = Done s' /\ wf_store s' es /\ platSwapSize s' = platSwapSize s).
  { intros i Hi Hact. destruct (Himg i Hi Hact) as (es & Hlog & Hcom & Hfit & Hstop).
    cbn [mSwapIndex with_mSwapIndex platFlash platSwapSize] in Hlog, Hfit, Hstop.
    set (s1 := with_mSwapHeaderSize (with_mSwapIndex s0 i) 4).
    assert (Hsz' : 268 <= platSwapSize s < 4294967296) by exact Hsz.
    pose proof (log_at_size _ _ _ Hlog) as Hls.
    change (mSwapHeaderSize s1) with 4.
    rewrite (Init_scan_log s1 ltac:(cbn; lia) es fuel 4).
    - cbn [bind].
      apply (SanitizeFreeSpace_image fuel (with_mSwapUsed s1 (4 + log_size es)) es);
        cbn; try assumption; try reflexivity; try lia.
    - exact Hlog.
    - exact Hcom.
    - lia.
    - cbn. exact Hfit.
    - cbn [mSwapSize s1 with_mSwapHeaderSize with_mSwapIndex s0 with_mSwapSize]. exact Hstop.
    - unfold enough in Hfuel. lia. }
  destruct (SwapHeader.IsActive (readSwapHeader s 0)) eqn:H0.
  - apply (Hsel 0); [left; reflexivity|exact H0].
  - destruct (SwapHeader.IsActive (readSwapHeader s 1)) eqn:H1.
    + apply (Hsel 1); [right; reflexivity|exact H1].
    + eexists. exists []. split; [reflexivity|]. split; [|reflexivity].
      apply Wipe_wf; cbn; [reflexivity|exact Hsz].
Qed.

(** ** The store invariant along the public operations *)

Lemma Add_done_length (fuel : nat) (s : Flash) (aKey : Z) (aFirst : bool) (aValue : list Z)
    (junk : nat -> Z) (r : otError * Flash) :
  Add fuel s aKey aFirst aValue junk = Done r -> Z.of_nat (length aValue) <= 256.
Proof.
  unfold Add, Record_.SetData, OT_ASSERT, Record_.kMaxDataSize.
  destruct (Z.leb_spec (Z.of_nat (length aValue)) 256); [intros _; assumption|].
  cbn. discriminate.
Qed.

Lemma Add_wf (fuel : nat) (s s' : Flash) (es : list entry) (aKey : Z) (aFirst : bool)
    (aValue : list Z) (junk : nat -> Z) (error : otError) :
  wf_store s es -> enough fuel s -> is_u16 aKey -> Forall is_byte aValue ->
  Add fuel s aKey aFirst aValue junk = Done (error, s') ->
  exists es', wf_store s' es' /\ platSwapSize s' = platSwapSize s.
Proof.
  intros Hwf Hf Hk Hv Hrun.
  pose proof (Add_done_length _ _ _ _ _ _ _ Hrun) as Hl.
  destruct (Add_cases fuel s es aKey aFirst aValue junk Hwf Hf Hk Hv Hl) as [Hroom Hfull].
  destruct (Z.le_gt_cases (mSwapUsed s + RecordSize (Z.of_nat (length aValue))) (mSwapSize s))
    as [Hle|Hgt].
  - destruct (Hroom Hle) as (Hadd & Hwf' & _). rewrite Hadd in Hrun.
    injection Hrun as _ <-. eexists. split; [exact Hwf'|reflexivity].
  - destruct (Hfull ltac:(lia)) as (s1 & Hsw & Hwf1 & Hsz1 & Hno & Hyes).
    pose proof (wf_store_bounds _ _ Hwf) as (_ & _ & _ & _ & _ & _ & Hp).
    pose proof (wf_store_bounds _ _ Hwf1) as (_ & _ & _ & _ & _ & _ & Hp1).
    destruct (Z.le_gt_cases (mSwapUsed s1 + RecordSize (Z.of_nat (length aValue))) (mSwapSize s))
      as [Hle1|Hgt1].
    + destruct (Hyes Hle1) as (Hadd & Hwf' & _). rewrite Hadd in Hrun.
      injection Hrun as _ <-. eexists. split; [exact Hwf'|].
      change (platSwapSize s1 = platSwapSize s). congruence.
    + rewrite (Hno ltac:(lia)) in Hrun. injection Hrun as _ <-.
      eexists. split; [exact Hwf1|congruence].
Qed.

Lemma reachable_wf (s : Flash) : reachable s -> exists es, wf_store s es.
Proof.
  induction 1 as [fuel s s' Himg Hf Hrun
                 | fuel s aKey aIndex aValue aValueLength r _ IH Hf Hrun
                 | fuel s s' aKey aValue junk error _ IH Hf Hk Hv Hrun
                 | fuel s s' aKey aValue junk error _ IH Hf Hk Hv Hrun
                 | fuel s s' aKey aIndex error _ IH Hf Hrun
                 | s _ IH].
  - destruct (Init_image fuel s Himg Hf) as (s'' & es & Hinit & Hwf & _).
    rewrite Hinit in Hrun. injection Hrun as <-. exists es. exact Hwf.
  - exact IH.
  - destruct IH as [es Hwf].
    destruct (Add_wf fuel s s' es aKey true aValue junk error Hwf Hf Hk Hv Hrun) as (es' & Hwf' & _).
    exists es'. exact Hwf'.
  - destruct IH as [es Hwf]. unfold AddAppend in Hrun.
    rewrite (Get_log fuel s es aKey 0 None None Hwf Hf) in Hrun. cbv zeta in Hrun.
    cbn [bind] in Hrun.
    destruct (Add_wf fuel s s' es aKey _ aValue junk error Hwf Hf Hk Hv Hrun) as (es' & Hwf' & _).
    exists es'. exact Hwf'.
  - destruct IH as [es Hwf].
    destruct (Delete_wf fuel s es aKey aIndex Hwf Hf) as (s'' & Hdel & Hwf' & _).
    rewrite Hdel in Hrun. injection Hrun as _ <-. eexists. exact Hwf'.
  - destruct IH as [es Hwf]. exists []. apply Wipe_wf; apply Hwf.
Qed.

Lemma wf_frontier (s : Flash) (es : list entry) : wf_store s es -> frontier s.
Proof.
  intros Hwf. pose proof (wf_store_bounds s es Hwf) as (Hh & Hls & Hu & Hfit & _).
  pose proof (log_at_aligned _ _ _ (wf_log s es Hwf)) as Ha.
  unfold frontier. split; [|split].
  - rewrite Hu, Zplus_mod, Ha. reflexivity.
  - lia.
  - apply (wf_free s es Hwf).
Qed.

(** On a store that satisfies the invariant every public operation
    returns. *)
Lemma public_operations_return (fuel : nat) (s : Flash) (es : list entry) :
  wf_store s es -> enough fuel s ->
  (forall aKey aIndex aValue aValueLength,
     exists r, Get fuel s aKey aIndex aValue aValueLength = Done r) /\
  (forall aKey aValue junk,
     is_u16 aKey -> Forall is_byte aValue -> Z.of_nat (length aValue) <= 256 ->
     (exists r, Set_ fuel s aKey aValue junk = Done r) /\
     (exists r, AddAppend fuel s aKey aValue junk = Done r)) /\
  (forall aKey aIndex, exists r, Delete fuel s aKey aIndex = Done r).
Proof.
  intros Hwf Hf.
  assert (Hadd : forall aKey aFirst aValue junk,
            is_u16 aKey -> Forall is_byte aValue -> Z.of_nat (length aValue) <= 256 ->
            exists r, Add fuel s aKey aFirst aValue junk = Done r).
  { intros aKey aFirst aValue junk Hk Hv Hl.
    destruct (Add_cases fuel s es aKey aFirst aValue junk Hwf Hf Hk Hv Hl) as [Hroom Hfull].
    destruct (Z.le_gt_cases (mSwapUsed s + RecordSize (Z.of_nat (length aValue))) (mSwapSize s))
      as [Hle|Hgt].
    - destruct (Hroom Hle) as (Hrun & _). eexists. exact Hrun.
    - destruct (Hfull ltac:(lia)) as (s1 & _ & _ & _ & Hno & Hyes).
      destruct (Z.le_gt_cases (mSwapUsed s1 + RecordSize (Z.of_nat (length aValue)))
                  (mSwapSize s)) as [Hle1|Hgt1].
      + destruct (Hyes Hle1) as (Hrun & _). eexists. exact Hrun.
      + eexists. apply Hno. lia. }
  split; [|split].
  - intros. rewrite (Get_log fuel s es _ _ _ _ Hwf Hf). eexists. reflexivity.
  - intros aKey aValue junk Hk Hv Hl. split.
    + apply Hadd; assumption.
    + unfold AddAppend. rewrite (Get_log fuel s es _ _ _ _ Hwf Hf). cbv zeta. cbn [bind].
      apply Hadd; assumption.
  - intros aKey aIndex. destruct (Delete_wf fuel s es aKey aIndex Hwf Hf) as (s' & Hrun & _).
    eexists. exact Hrun.
Qed.

(** C9. Frontier invariant: in the state that [Init] returns and in the
    state after every public operation ([Get], [Set], [Add], [Delete],
    [Wipe]) that follows, [mSwapUsed] is a multiple of 4, lies between
    [mSwapHeaderSize] and [mSwapSize], and every cell of the active swap
    area from [mSwapUsed] to [mSwapSize] is erased; and in every such
    state the public operations return. *)
Theorem frontier_invariant (s : Flash) :
  reachable s ->
  frontier s /\
  (forall fuel, enough fuel s ->
     (forall aKey aIndex aValue aValueLength,
        exists r, Get fuel s aKey aIndex aValue aValueLength = Done r) /\
     (forall aKey aValue junk,
        is_u16 aKey -> Forall is_byte aValue -> Z.of_nat (length aValue) <= 256 ->
        (exists r, Set_ fuel s aKey aValue junk = Done r) /\
        (exists r, AddAppend fuel s aKey aValue junk = Done r)) /\
     (forall aKey aIndex, exists r, Delete fuel s aKey aIndex = Done r)).
Proof.
  intros Hr. destruct (reachable_wf s Hr) as [es Hwf]. split.
  - exact (wf_frontier s es Hwf).
  - intros fuel Hf. exact (public_operations_return fuel s es Hwf Hf).
Qed.

(** ** The two writes of [Add] *)

Lemma Add_first_write (s : Flash) (es : list entry) (aKey : Z) (aFirst : bool)
    (aValue : list Z) (junk : nat -> Z) :
  wf_store s es -> is_u16 aKey -> Forall is_byte aValue ->
  Z.of_nat (length aValue) <= 256 ->
  mSwapUsed s + RecordSize (Z.of_nat (length aValue)) <= mSwapSize s ->
  let record :=
    Record_.mk (RecordHeader.SetLength (RecordHeader.Init aKey aFirst) (Z.of_nat (length aValue)))
               (Record_.memcpy (Record_.uninitialized junk) aValue) in
  let size := RecordHeader.GetSize (Record_.header record) in
  let s1 := otPlatFlashWrite s (mSwapIndex s) (mSwapUsed s) (Record_.bytes record size) in
  readRecordHeader s1 (mSwapUsed s) = Record_.header record /\
  RecordHeader.IsAddBeginSet (Record_.header record) = true /\
  RecordHeader.IsAddCompleteSet (Record_.header record) = false /\
  Add_write s record =
    with_mSwapUsed
      (otPlatFlashWrite s1 (mSwapIndex s) (mSwapUsed s)
         (RecordHeader.bytes (RecordHeader.SetAddCompleteFlag (Record_.header record))))
      (mSwapUsed s + size).
Proof.
  intros Hwf Hk Hv Hl Hfit record size s1.
  pose proof (wf_store_bounds s es Hwf) as (Hh & Hls & Hu & Hf & Hsz & Hn & Hp).
  assert (Hwh : wf_header (Record_.header record)).
  { unfold record. cbn [Record_.header]. unfold wf_header, is_u16, Record_.kMaxDataSize.
    destruct aFirst; cbn; repeat split; try lia; apply Hk. }
  assert (Hsize : size = RecordSize (Z.of_nat (length aValue))).
  { unfold size. rewrite GetSize_RecordSize by apply Hwh. reflexivity. }
  pose proof (padded_bounds (Z.of_nat (length aValue)) ltac:(lia)) as [Hpb _].
  assert (Hs8 : 8 <= size) by (rewrite Hsize; unfold RecordSize; lia).
  assert (Hblen : Z.of_nat (length (Record_.bytes record size)) = size).
  { unfold Record_.bytes. rewrite length_firstn, length_app.
    unfold record at 2. cbn [Record_.mData RecordHeader.bytes length].
    rewrite memcpy_length by (rewrite uninitialized_length; lia).
    rewrite uninitialized_length.
    assert (size <= 264).
    { rewrite Hsize. unfold RecordSize, padded in *.
      pose proof (Z.div_mod (Z.of_nat (length aValue) + 3) 4).
      pose proof (Z.mod_pos_bound (Z.of_nat (length aValue) + 3) 4). lia. }
    lia. }
  split; [|split; [|split]].
  - unfold readRecordHeader, otPlatFlashRead.
    change (mSwapIndex s1) with (mSwapIndex s).
    rewrite <- (read_firstn _ _ (length (Record_.bytes record size)))
      by (unfold RecordHeader.sizeof; lia).
    unfold s1. rewrite write_erased.
    + unfold Record_.bytes. rewrite firstn_firstn.
      replace (Init.Nat.min (Z.to_nat RecordHeader.sizeof) (Z.to_nat size))
        with (length (RecordHeader.bytes (Record_.header record)))
        by (cbn [RecordHeader.bytes length]; unfold RecordHeader.sizeof; lia).
      rewrite firstn_app, Nat.sub_diag, firstn_all. cbn [firstn]. rewrite app_nil_r.
      apply of_bytes_bytes. exact Hwh.
    + intros o Ho. apply (wf_free s es Hwf). lia.
    + unfold Record_.bytes. apply Forall_forall. intros b Hb.
      assert (Hall : Forall is_byte (RecordHeader.bytes (Record_.header record)
                                     ++ Record_.mData record)).
      { apply Forall_app. split.
        - unfold RecordHeader.bytes. repeat constructor; first [apply lo8_byte|apply hi8_byte].
        - apply memcpy_bytes; [apply uninitialized_bytes|exact Hv]. }
      apply (proj1 (Forall_forall _ _) Hall).
      rewrite <- (firstn_skipn (Z.to_nat size)). apply in_or_app. left. exact Hb.
  - unfold record. destruct aFirst; reflexivity.
  - unfold record. destruct aFirst; reflexivity.
  - unfold Add_write. fold size. fold s1.
    change (mSwapIndex s1) with (mSwapIndex s). change (mSwapUsed s1) with (mSwapUsed s).
    rewrite Record_bytes_header.
    change (mSwapUsed (otPlatFlashWrite s1 _ _ _)) with (mSwapUsed s).
    rewrite wrap32_small by lia. reflexivity.
Qed.

(** C7. The space check of [Add]; [RecordSize] is 8 + ceil(length/4)*4.
    When [mSwapUsed + RecordSize] exceeds [mSwapSize], [Add] invokes
    [Swap]; when the record still does not fit after it, [Add] returns
    NoSpace and the log holds the compacted records and no new one.
    Otherwise [Add] writes the record with AddComplete still 1, commits it
    with a second write of the header with AddComplete cleared, advances
    [mSwapUsed] by [RecordSize] and returns OK. *)
Theorem Add_space_handling (fuel : nat) (s : Flash) (es : list entry) (aKey : Z)
    (aFirst : bool) (aValue : list Z) (junk : nat -> Z) :
  wf_store s es -> enough fuel s ->
  is_u16 aKey -> Forall is_byte aValue -> Z.of_nat (length aValue) <= 256 ->
  let size := 8 + 4 * ((Z.of_nat (length aValue) + 3) / 4) in
  let record :=
    Record_.mk (RecordHeader.SetLength (RecordHeader.Init aKey aFirst) (Z.of_nat (length aValue)))
               (Record_.memcpy (Record_.uninitialized junk) aValue) in
  let e := new_entry aKey aFirst aValue junk in
  let written t es' :=
    let t1 := otPlatFlashWrite t (mSwapIndex t) (mSwapUsed t) (Record_.bytes record size) in
    readRecordHeader t1 (mSwapUsed t) = Record_.header record /\
    RecordHeader.IsAddCompleteSet (Record_.header record) = false /\
    Add_write t record =
      with_mSwapUsed
        (otPlatFlashWrite t1 (mSwapIndex t) (mSwapUsed t)
           (RecordHeader.bytes (RecordHeader.SetAddCompleteFlag (Record_.header record))))
        (mSwapUsed t + size) /\
    wf_store (Add_write t record) (es' ++ [e]) /\
    RecordHeader.IsAddCompleteSet (eHeader e) = true in
  RecordHeader.GetSize (Record_.header record) = size /\
  (mSwapUsed s + size <= mSwapSize s ->
     Add fuel s aKey aFirst aValue junk = Done (OT_ERROR_NONE, Add_write s record) /\
     written s es) /\
  (mSwapUsed s + size > mSwapSize s ->
     exists s1,
       Swap fuel s = Done s1 /\ wf_store s1 (compact es) /\ mSwapSize s1 = mSwapSize s /\
       (mSwapUsed s1 + size > mSwapSize s1 ->
          Add fuel s aKey aFirst aValue junk = Done (OT_ERROR_NO_BUFS, s1)) /\
       (mSwapUsed s1 + size <= mSwapSize s1 ->
          Add fuel s aKey aFirst aValue junk = Done (OT_ERROR_NONE, Add_write s1 record) /\
          written s1 (compact es))).
Proof.
  intros Hwf Hf Hk Hv Hl size record e written.
  change size with (RecordSize (Z.of_nat (length aValue))) in *.
  assert (Hsize : RecordHeader.GetSize (Record_.header record)
                  = RecordSize (Z.of_nat (length aValue))).
  { unfold record. cbn [Record_.header]. rewrite GetSize_RecordSize; [reflexivity|].
    cbn. unfold Record_.kMaxDataSize. lia. }
  assert (Hwritten : forall t es', wf_store t es' ->
            mSwapUsed t + RecordSize (Z.of_nat (length aValue)) <= mSwapSize t ->
            written t es').
  { intros t es' Ht Hfit. unfold written.
    destruct (Add_first_write t es' aKey aFirst aValue junk Ht Hk Hv Hl Hfit)
      as (Hrd & _ & Hnc & Heq).
    cbv zeta in Hrd, Heq. fold record in Hrd, Hnc, Heq. rewrite Hsize in Hrd, Heq.
    split; [exact Hrd|]. split; [exact Hnc|]. split; [exact Heq|]. split.
    - apply Add_write_wf; assumption.
    - unfold e. rewrite new_entry_header. destruct aFirst; reflexivity. }
  destruct (Add_cases fuel s es aKey aFirst aValue junk Hwf Hf Hk Hv Hl) as [Hroom Hfull].
  split; [exact Hsize|]. split.
  - intros Hfit. destruct (Hroom Hfit) as (Hrun & _). split; [exact Hrun|].
    apply Hwritten; assumption.
  - intros Hnofit. destruct (Hfull Hnofit) as (s1 & Hsw & Hwf1 & Hsz1 & Hno & Hyes).
    exists s1. split; [exact Hsw|]. split; [exact Hwf1|]. split; [exact Hsz1|]. split.
    + intros H. apply Hno. rewrite <- Hsz1. exact H.
    + intros H. destruct (Hyes ltac:(rewrite <- Hsz1; exact H)) as (Hrun & _).
      split; [exact Hrun|]. apply Hwritten; assumption.
Qed.

(** ** The scenarios on the 268-byte store *)

(** C2, on the code.  After [Add(7, [1]); Add(7, [2, 2]); Set(7, [9])]
    on the empty store, [Get(7, 0)] returns the value of the [Set], and
    [Get(7, 1)] returns Found with [2, 2], the second value of the chain
    that the [Set] was to replace, where the claim has NotFound. *)
Theorem Set_leaves_old_chain_readable :
  (s <- set_after_adds ;; Done (mSwapUsed s, mSwapIndex s)) = Done (40, 0) /\
  (s <- set_after_adds ;; Get 268 s 7 0 (Some [0; 0]) (Some 2))
  = Done (OT_ERROR_NONE, Some [9; 0], Some 1) /\
  (s <- set_after_adds ;; Get 268 s 7 1 (Some [0; 0]) (Some 2))
  = Done (OT_ERROR_NONE, Some [2; 2], Some 2).
Proof. repeat split; vm_compute; reflexivity. Qed.

(** C5, on the code.  In the store above [Get(7, 1)] returns Found with
    [2, 2]; the next [Set], of 240 bytes under key 8, runs [Swap], which
    drops that record, and [Get(7, 1)] returns NotFound afterwards. *)
Theorem Swap_drops_readable_record :
  (s <- set_after_adds ;; Get 268 s 7 1 (Some [0; 0]) (Some 2))
  = Done (OT_ERROR_NONE, Some [2; 2], Some 2) /\
  (r <- set_after_adds_compacted ;; Done (fst r, mSwapUsed (snd r), mSwapIndex (snd r)))
  = Done (OT_ERROR_NONE, 264, 1) /\
  (r <- set_after_adds_compacted ;; Get 268 (snd r) 7 0 (Some [0; 0]) (Some 2))
  = Done (OT_ERROR_NONE, Some [9; 0], Some 1) /\
  (r <- set_after_adds_compacted ;; Get 268 (snd r) 7 1 (Some [0; 0]) (Some 2))
  = Done (OT_ERROR_NOT_FOUND, Some [0; 0], Some 0) /\
  (s <- set_after_adds ;; s' <- Swap 268 s ;; Get 268 s' 7 1 (Some [0; 0]) (Some 2))
  = Done (OT_ERROR_NOT_FOUND, Some [0; 0], Some 0).
Proof. repeat split; vm_compute; reflexivity. Qed.

Lemma enough_fresh : enough 268 fresh.
Proof. unfold enough. vm_compute. lia. Qed.

Lemma Add_append_ordering_witness :
  exists s',
    AddAll 268 fresh 7 [([1], no_junk); ([2; 2], no_junk); ([3; 3; 3], no_junk)]
    = Done (true, s') /\
    Get 268 s' 7 1 (Some [0; 0; 0]) (Some 3) = Done (OT_ERROR_NONE, Some [2; 2; 0], Some 2) /\
    Get 268 s' 7 3 None (Some 3) = Done (OT_ERROR_NOT_FOUND, None, Some 0).
Proof.
  destruct (Add_append_ordering 268 fresh [] 7
              [([1], no_junk); ([2; 2], no_junk); ([3; 3; 3], no_junk)])
    as (s' & Hrun & Hget & Hmiss).
  - exact fresh_wf.
  - exact enough_fresh.
  - unfold is_u16. lia.
  - reflexivity.
  - values_ok.
  - vm_compute. discriminate.
  - exists s'. split; [exact Hrun|]. split.
    + apply (Hget 1%nat ([2; 2], no_junk) [0; 0; 0] 3). reflexivity.
    + apply (Hmiss None (Some 3)).
Defined.

Lemma Delete_tombstones_witness :
  exists s s',
    wf_store s [new_entry 1 true [0xaa; 0xbb] no_junk] /\
    Delete 268 s 1 (-1) = Done (OT_ERROR_NONE, s') /\
    Get 268 s' 1 0 None (Some 2) = Done (OT_ERROR_NOT_FOUND, None, Some 0).
Proof.
  destruct (Add_cases 268 fresh [] 1 true [0xaa; 0xbb] no_junk fresh_wf enough_fresh)
    as [Hroom _].
  - unfold is_u16. lia.
  - bytes_ok.
  - cbn. lia.
  - destruct Hroom as (_ & Hwf & _); [vm_compute; discriminate|].
    cbn [app] in Hwf.
    destruct (Delete_tombstones 268 _ _ 1 (-1) Hwf enough_fresh)
      as (s' & es' & Hrun & _ & _ & Hget).
    eexists. exists s'. split; [exact Hwf|]. split; [exact Hrun|].
    apply (Hget eq_refl None (Some 2)).
Defined.

Lemma Add_space_handling_witness :
  exists s',
    Add 268 fresh 1 true [0xaa; 0xbb] no_junk = Done (OT_ERROR_NONE, s') /\
    mSwapUsed s' = 16 /\
    wf_store s' [new_entry 1 true [0xaa; 0xbb] no_junk].
Proof.
  destruct (Add_space_handling 268 fresh [] 1 true [0xaa; 0xbb] no_junk fresh_wf enough_fresh)
    as (_ & Hroom & _).
  - unfold is_u16. lia.
  - bytes_ok.
  - cbn. lia.
  - destruct Hroom as (Hrun & _ & _ & Heq & Hwf & _); [vm_compute; discriminate|].
    eexists. split; [exact Hrun|]. split; [rewrite Heq; reflexivity|exact Hwf].
Defined.

Lemma blank_image : flash_image blank.
Proof.
  split; [vm_compute; split; [discriminate|reflexivity]|].
  split; [reflexivity|]. split.
  - intros i o. cbn. unfold is_byte. lia.
  - intros i [-> | ->] Hact; vm_compute in Hact; discriminate.
Qed.

Lemma frontier_invariant_witness :
  exists s, Init 268 blank = Done s /\ frontier s.
Proof.
  eexists. split; [reflexivity|].
  apply frontier_invariant.
  apply (reach_Init 268 blank).
  - exact blank_image.
  - unfold enough. vm_compute. lia.
  - reflexivity.
Defined.

(** ** Compaction and the newest chain of a key *)

Lemma Get_body_dead (aKey aIndex : Z) (aValueLength : option Z) (e : entry) (l : GetLocals) :
  is_live aKey e = false ->
  Get_body aKey aIndex aValueLength (eHeader e) (entry_payload e) l = l.
Proof.
  unfold is_live, Get_body. intros H.
  destruct (RecordHeader.GetKey (eHeader e) =? aKey); cbn [andb negb orb] in *;
    [rewrite H|]; reflexivity.
Qed.

Lemma Get_body_live (aKey aIndex : Z) (aValueLength : option Z) (e : entry) (l : GetLocals) :
  is_live aKey e = true ->
  Get_body aKey aIndex aValueLength (eHeader e) (entry_payload e) l =
  let index := if RecordHeader.IsFirst (eHeader e) then 0 else gIndex l in
  if index =? aIndex
  then mkGet OT_ERROR_NONE (RecordHeader.mLength (eHeader e)) (index + 1)
         (copy_entry (gValue l) aValueLength e)
  else mkGet (gError l) (gValueLength l) (index + 1) (gValue l).
Proof.
  unfold is_live, Get_body. intros H. apply andb_true_iff in H. destruct H as [-> ->].
  cbn [negb orb]. cbv zeta.
  destruct (_ =? aIndex); [|reflexivity].
  unfold copy_entry, RecordHeader.GetLength.
  destruct (gValue l) as [buf|]; [|reflexivity].
  destruct aValueLength as [len|]; [|reflexivity].
  replace (if len >? RecordHeader.mLength (eHeader e) then RecordHeader.mLength (eHeader e) else len)
    with (Z.min len (RecordHeader.mLength (eHeader e)))
    by (destruct (Z.gtb_spec len (RecordHeader.mLength (eHeader e))); lia).
  reflexivity.
Qed.

Lemma Get_list_filter (aKey aIndex : Z) (aValueLength : option Z) (es : list entry) :
  forall l,
  Get_list aKey aIndex aValueLength (filter (is_live aKey) es) l =
  Get_list aKey aIndex aValueLength es l.
Proof.
  induction es as [|e es IH]; intros l; [reflexivity|].
  cbn [filter]. destruct (is_live aKey e) eqn:He.
  - rewrite !Get_list_cons. apply IH.
  - rewrite Get_list_cons, (Get_body_dead _ _ _ _ _ He). apply IH.
Qed.

Lemma shadowed_cons (aKey : Z) (e : entry) (es : list entry) :
  shadowed aKey (e :: es) =
  RecordHeader.IsValid (eHeader e) && RecordHeader.IsFirst (eHeader e)
  && (RecordHeader.GetKey (eHeader e) =? aKey) || shadowed aKey es.
Proof. reflexivity. Qed.

(** A stretch of the log without a valid record of the key marked First,
    read from the index of [l] on. *)
Lemma Get_list_stretch (aKey aIndex : Z) (aValueLength : option Z) :
  forall (es : list entry) (l : GetLocals),
  shadowed aKey es = false ->
  let r := Get_list aKey aIndex aValueLength es l in
  gIndex r = gIndex l + Z.of_nat (length (filter (is_live aKey) es)) /\
  (forall n x, nth_error (filter (is_live aKey) es) n = Some x ->
     aIndex = gIndex l + Z.of_nat n ->
     gError r = OT_ERROR_NONE /\ gValueLength r = RecordHeader.mLength (eHeader x) /\
     gValue r = copy_entry (gValue l) aValueLength x) /\
  (aIndex < gIndex l \/
   gIndex l + Z.of_nat (length (filter (is_live aKey) es)) <= aIndex ->
     gError r = gError l /\ gValueLength r = gValueLength l /\ gValue r = gValue l).
Proof.
  induction es as [|e es IH]; intros l Hs r.
  - subst r. cbn [filter length Get_list fold_left]. split; [lia|]. split.
    + intros n x Hn. destruct n; discriminate.
    + intros _. repeat split.
  - subst r. rewrite shadowed_cons in Hs. apply orb_false_iff in Hs. destruct Hs as [He Hs].
    rewrite Get_list_cons. cbn [filter].
    destruct (is_live aKey e) eqn:Hl.
    + rewrite (Get_body_live _ _ _ _ _ Hl). cbv zeta.
      assert (Hnf : RecordHeader.IsFirst (eHeader e) = false).
      { unfold is_live in Hl. apply andb_true_iff in Hl. destruct Hl as [Hk Hv].
        rewrite Hv, Hk in He. cbn [andb] in He. rewrite andb_true_r in He. exact He. }
      rewrite Hnf.
      destruct (Z.eqb_spec (gIndex l) aIndex) as [Heq|Hne].
      * specialize (IH (mkGet OT_ERROR_NONE (RecordHeader.mLength (eHeader e)) (gIndex l + 1)
                          (copy_entry (gValue l) aValueLength e)) Hs).
        cbv zeta in IH. cbn [gIndex gError gValueLength gValue] in IH.
        destruct IH as (Hi & _ & Hmiss). cbn [length]. split; [lia|]. split.
        -- intros n x Hn Hidx. assert (n = 0%nat) by lia. subst n.
           cbn in Hn. injection Hn as <-. apply Hmiss. lia.
        -- intros Hout. lia.
      * specialize (IH (mkGet (gError l) (gValueLength l) (gIndex l + 1) (gValue l)) Hs).
        cbv zeta in IH. cbn [gIndex gError gValueLength gValue] in IH.
        destruct IH as (Hi & Hhit & Hmiss). cbn [length]. split; [lia|]. split.
        -- intros n x Hn Hidx. destruct n as [|n]; [lia|].
           cbn in Hn. apply (Hhit n x Hn). lia.
        -- intros Hout. apply Hmiss. lia.
    + rewrite (Get_body_dead _ _ _ _ _ Hl). apply (IH l Hs).
Qed.

(** [Get] on a log whose newest chain starts with [e]: the records before
    [e] have left the locals [l]. *)
Lemma Get_list_head (aKey aIndex : Z) (aValueLength : option Z) (e : entry)
    (es : list entry) (l : GetLocals) :
  is_live aKey e = true -> shadowed aKey es = false ->
  RecordHeader.IsFirst (eHeader e) = true \/ gIndex l = 0 ->
  forall n x, nth_error (e :: filter (is_live aKey) es) n = Some x ->
  aIndex = Z.of_nat n ->
  let r := Get_list aKey aIndex aValueLength (e :: es) l in
  gError r = OT_ERROR_NONE /\ gValueLength r = RecordHeader.mLength (eHeader x) /\
  gValue r = copy_entry (gValue l) aValueLength x.
Proof.
  intros Hl Hs H0 n x Hn Hidx r. subst r.
  rewrite Get_list_cons, (Get_body_live _ _ _ _ _ Hl). cbv zeta.
  assert (Hi0 : (if RecordHeader.IsFirst (eHeader e) then 0 else gIndex l) = 0)
    by (destruct (RecordHeader.IsFirst (eHeader e)); [reflexivity|destruct H0; [discriminate|assumption]]).
  rewrite Hi0.
  destruct (Z.eqb_spec 0 aIndex) as [Heq|Hne].
  - assert (n = 0%nat) by lia. subst n. cbn in Hn. injection Hn as <-.
    pose proof (Get_list_stretch aKey aIndex aValueLength es
                  (mkGet OT_ERROR_NONE (RecordHeader.mLength (eHeader e)) (0 + 1)
                     (copy_entry (gValue l) aValueLength e)) Hs) as (_ & _ & Hmiss).
    cbn [gIndex gError gValueLength gValue] in Hmiss. apply Hmiss. lia.
  - destruct n as [|n]; [lia|]. cbn in Hn.
    pose proof (Get_list_stretch aKey aIndex aValueLength es
                  (mkGet (gError l) (gValueLength l) (0 + 1) (gValue l)) Hs) as (_ & Hhit & _).
    cbn [gIndex gError gValueLength gValue] in Hhit. apply (Hhit n x Hn). lia.
Qed.

Lemma shadowed_has_valid (aKey : Z) (es : list entry) :
  has_valid aKey es = false -> shadowed aKey es = false.
Proof.
  induction es as [|e es IH]; intros H; [reflexivity|].
  rewrite has_valid_cons in H. apply orb_false_iff in H. destruct H as [He Hes].
  rewrite shadowed_cons, (IH Hes), orb_false_r.
  destruct (RecordHeader.GetKey (eHeader e) =? aKey); cbn [andb] in *.
  - rewrite He. reflexivity.
  - apply andb_false_r.
Qed.

(** Where the newest chain starts in the log. *)
Lemma newest_chain_split (aKey : Z) (es : list entry) (e : entry) (c : list entry) :
  newest_chain aKey es = e :: c ->
  exists pre es',
    es = pre ++ e :: es' /\ c = filter (is_live aKey) es' /\
    is_live aKey e = true /\ shadowed aKey es' = false /\
    (RecordHeader.IsFirst (eHeader e) = true \/ has_valid aKey pre = false).
Proof.
  induction es as [|x es IH]; intros H; [discriminate|].
  cbn [newest_chain] in H.
  destruct (is_live aKey x) eqn:Hl; cbn [andb] in H.
  - destruct (shadowed aKey es) eqn:Hs; cbn [negb] in H.
    + destruct (IH H) as (pre & es' & -> & Hc & Hle & Hse & Hf).
      exists (x :: pre), es'. split; [reflexivity|]. split; [exact Hc|].
      split; [exact Hle|]. split; [exact Hse|].
      destruct Hf as [Hf|Hf]; [left; exact Hf|]. left.
      (* a record before [e] is shadowed, so a First record follows it;
         it is [e], since nothing behind [e] is marked *)
      assert (Hsp : shadowed aKey (pre ++ e :: es') = shadowed aKey pre || shadowed aKey (e :: es'))
        by (unfold shadowed; apply existsb_app).
      rewrite Hsp, (shadowed_has_valid _ _ Hf), shadowed_cons, Hse, orb_false_r in Hs.
      cbn [orb] in Hs. apply andb_true_iff in Hs. destruct Hs as [Hs _].
      apply andb_true_iff in Hs. apply Hs.
    + injection H as <- <-. exists [], es. split; [reflexivity|]. split; [reflexivity|].
      split; [exact Hl|]. split; [exact Hs|]. right. reflexivity.
  - destruct (IH H) as (pre & es' & -> & Hc & Hle & Hse & Hf).
    exists (x :: pre), es'. split; [reflexivity|]. split; [exact Hc|].
    split; [exact Hle|]. split; [exact Hse|].
    destruct Hf as [Hf|Hf]; [left; exact Hf|]. right.
    rewrite has_valid_cons, Hf, orb_false_r. exact Hl.
Qed.

Lemma newest_chain_unshadowed (aKey : Z) (es : list entry) :
  shadowed aKey es = false -> newest_chain aKey es = filter (is_live aKey) es.
Proof.
  induction es as [|e es IH]; intros H; [reflexivity|].
  rewrite shadowed_cons in H. apply orb_false_iff in H. destruct H as [_ Hs].
  cbn [newest_chain filter]. rewrite Hs. cbn [negb]. rewrite andb_true_r.
  destruct (is_live aKey e); [reflexivity|]. apply IH. exact Hs.
Qed.

(** What [Swap] keeps of a key is its newest chain. *)
Lemma compact_newest_chain (aKey : Z) (es : list entry) :
  filter (is_live aKey) (compact es) = newest_chain aKey es.
Proof.
  induction es as [|e es IH]; [reflexivity|].
  cbn [compact newest_chain]. unfold is_live at 2.
  destruct (RecordHeader.IsValid (eHeader e)) eqn:Hv; cbn [negb orb].
  - destruct (Z.eqb_spec (RecordHeader.GetKey (eHeader e)) aKey) as [Hk|Hk]; cbn [andb].
    + rewrite Hk. destruct (shadowed aKey es) eqn:Hs; cbn [negb].
      * exact IH.
      * cbn [filter]. unfold is_live at 1. rewrite Hv, Hk, Z.eqb_refl. cbn [andb].
        rewrite IH. rewrite (newest_chain_unshadowed _ _ Hs). reflexivity.
    + destruct (shadowed (RecordHeader.GetKey (eHeader e)) es); [exact IH|].
      cbn [filter]. unfold is_live at 1.
      destruct (Z.eqb_spec (RecordHeader.GetKey (eHeader e)) aKey); [contradiction|].
      cbn [andb]. exact IH.
  - rewrite andb_false_r. cbn [andb]. exact IH.
Qed.

Lemma newest_chain_nonempty (aKey : Z) (es : list entry) :
  has_valid aKey es = true -> exists x, nth_error (newest_chain aKey es) 0 = Some x.
Proof.
  induction es as [|e es IH]; intros H; [discriminate|].
  rewrite has_valid_cons in H. cbn [newest_chain]. fold (is_live aKey e) in H.
  destruct (is_live aKey e) eqn:Hl; cbn [andb orb] in *.
  - destruct (shadowed aKey es) eqn:Hs; cbn [negb].
    + apply IH. destruct (has_valid aKey es) eqn:Hv; [reflexivity|].
      rewrite (shadowed_has_valid _ _ Hv) in Hs. discriminate.
    + exists e. reflexivity.
  - apply IH. exact H.
Qed.

(** [Swap] returns, and it keeps the newest chain of every key: a pair
    (key, index) that [Get] answers with a record of the newest chain of
    the key before the [Swap] is answered with the same record after it,
    Found with the same length and the same value bytes at the front of
    the buffer.  The pair (key, 0) is such a pair for every key that has
    a valid record. *)
Theorem Swap_preserves_newest_chain (fuel : nat) (s : Flash) (es : list entry) :
  wf_store s es -> enough fuel s ->
  exists s',
    Swap fuel s = Done s' /\
    (forall aKey n x buf maxLength,
       nth_error (newest_chain aKey es) n = Some x ->
       let value := entry_payload x (Z.min maxLength (RecordHeader.mLength (eHeader x))) in
       (exists rest,
          Get fuel s aKey (Z.of_nat n) (Some buf) (Some maxLength) =
          Done (OT_ERROR_NONE, Some (value ++ rest), Some (RecordHeader.mLength (eHeader x)))) /\
       (exists rest,
          Get fuel s' aKey (Z.of_nat n) (Some buf) (Some maxLength) =
          Done (OT_ERROR_NONE, Some (value ++ rest), Some (RecordHeader.mLength (eHeader x))))) /\
    (forall aKey, has_valid aKey es = true ->
       exists x, nth_error (newest_chain aKey es) 0 = Some x).
Proof.
  intros Hwf Hf.
  destruct (Swap_wf fuel s es Hwf Hf) as (s' & Hsw & Hwf' & _ & Hp' & _).
  assert (Hf' : enough fuel s') by (unfold enough in *; rewrite Hp'; exact Hf).
  exists s'. split; [exact Hsw|]. split; [|intros aKey; apply newest_chain_nonempty].
  intros aKey n x buf maxLength Hn value.
  destruct (newest_chain aKey es) as [|e c] eqn:Hc; [destruct n; discriminate|].
  destruct (newest_chain_split aKey es e c Hc) as (pre & es' & Hes & Hcc & Hl & Hs & Hfirst).
  subst c. split.
  - rewrite (Get_log fuel s es aKey (Z.of_nat n) _ _ Hwf Hf). cbv zeta.
    rewrite Hes, Get_list_app.
    set (lp := Get_list aKey (Z.of_nat n) (Some maxLength) pre
                 (mkGet OT_ERROR_NOT_FOUND 0 0 (Some buf))).
    assert (H0 : RecordHeader.IsFirst (eHeader e) = true \/ gIndex lp = 0).
    { destruct Hfirst as [Hfi|Hnv]; [left; exact Hfi|right].
      unfold lp. rewrite (Get_list_skip _ _ _ _ _ Hnv). reflexivity. }
    destruct (Get_list_head aKey (Z.of_nat n) (Some maxLength) e es' lp Hl Hs H0 n x Hn eq_refl)
      as (He & Hlen & Hv).
    rewrite He, Hlen, Hv.
    destruct (Get_list_buffer aKey (Z.of_nat n) (Some maxLength) pre
                (mkGet OT_ERROR_NOT_FOUND 0 0 (Some buf))) as [b Hb]; [eexists; reflexivity|].
    fold lp in Hb. rewrite Hb. unfold copy_entry, Record_.memcpy. eexists. reflexivity.
  - rewrite (Get_log fuel s' _ aKey (Z.of_nat n) _ _ Hwf' Hf'). cbv zeta.
    rewrite <- Get_list_filter, compact_newest_chain, Hc.
    rewrite Get_list_cons, Get_list_filter, <- Get_list_cons.
    destruct (Get_list_head aKey (Z.of_nat n) (Some maxLength) e es'
                (mkGet OT_ERROR_NOT_FOUND 0 0 (Some buf)) Hl Hs (or_intror eq_refl) n x Hn eq_refl)
      as (He & Hlen & Hv).
    rewrite He, Hlen, Hv. unfold copy_entry, Record_.memcpy. cbn [gValue].
    eexists. reflexivity.
Qed.

Lemma Swap_preserves_newest_chain_witness :
  exists s s' rest,
    wf_store s [new_entry 1 true [0xaa; 0xbb] no_junk] /\
    Swap 268 s = Done s' /\
    Get 268 s' 1 0 (Some [0; 0]) (Some 2) = Done (OT_ERROR_NONE, Some ([0xaa; 0xbb] ++ rest), Some 2).
Proof.
  destruct (Add_cases 268 fresh [] 1 true [0xaa; 0xbb] no_junk fresh_wf enough_fresh)
    as [Hroom _].
  - unfold is_u16. lia.
  - bytes_ok.
  - cbn. lia.
  - destruct Hroom as (_ & Hwf & _); [vm_compute; discriminate|].
    cbn [app] in Hwf.
    destruct (Swap_preserves_newest_chain 268 _ _ Hwf enough_fresh) as (s' & Hsw & Hget & _).
    destruct (Hget 1 0%nat (new_entry 1 true [0xaa; 0xbb] no_junk) [0; 0] 2 eq_refl)
      as (_ & rest & Hafter).
    eexists. exists s', rest. split; [exact Hwf|]. split; [exact Hsw|exact Hafter].
Defined.

(** ** What the driver leaves in the flash is what [Init] accepts *)

Lemma wf_scan_image (s : Flash) (es : list entry) :
  wf_store s es -> scan_image (with_mSwapIndex s (mSwapIndex s)) es.
Proof.
  intros Hwf. pose proof (wf_store_bounds s es Hwf) as (Hh & Hls & Hu & Hfit & Hsz & Hn & Hp).
  unfold scan_image. cbn [mSwapIndex platFlash platSwapSize with_mSwapIndex].
  split; [rewrite <- Hh; apply Hwf|]. split; [apply Hwf|]. split; [lia|].
  intros Hroom. cbv zeta.
  assert (Hrd : readRecordHeader (with_mSwapIndex s (mSwapIndex s)) (4 + log_size es)
                = RecordHeader.of_bytes (read (fun _ => 0xff) (4 + log_size es) 8)).
  { unfold readRecordHeader, otPlatFlashRead. f_equal.
    apply read_ext. intros o Ho. cbn [mSwapIndex platFlash with_mSwapIndex].
    apply (wf_free s es Hwf). unfold RecordHeader.sizeof in Ho. lia. }
  rewrite Hrd. reflexivity.
Qed.

Lemma wf_flash_image (s : Flash) (es : list entry) :
  wf_store s es -> mSwapSize s mod 4 = 0 ->
  (forall i o, is_byte (platFlash s i o)) ->
  SwapHeader.IsActive (readSwapHeader s (1 - mSwapIndex s)) = false ->
  flash_image s.
Proof.
  intros Hwf Hal Hb Hother.
  pose proof (wf_store_bounds s es Hwf) as (_ & _ & _ & _ & Hsz & _ & Hp).
  unfold flash_image. rewrite Hp. change kMinSwapSize with 268. change kFlashWordSize with 4.
  split; [exact Hsz|]. split; [exact Hal|]. split; [exact Hb|].
  intros i Hi Hact. exists es.
  destruct (Z.eq_dec i (mSwapIndex s)) as [->|Hne]; [apply wf_scan_image; exact Hwf|].
  assert (i = 1 - mSwapIndex s) by (destruct (wf_index s es Hwf); lia).
  subst i. rewrite Hother in Hact. discriminate.
Qed.

(** * Further properties of the driver *)

(** ** [Wipe] *)

Lemma Get_empty (fuel : nat) (s : Flash) (aKey aIndex : Z)
    (aValue : option (list Z)) (aValueLength : option Z) :
  wf_store s [] -> enough fuel s ->
  Get fuel s aKey aIndex aValue aValueLength =
  Done (OT_ERROR_NOT_FOUND, aValue,
        match aValueLength with Some _ => Some 0 | None => None end).
Proof. intros Hwf Hf. rewrite (Get_log fuel s [] _ _ _ _ Hwf Hf). reflexivity. Qed.

(** A swap header written over erased cells reads back as written. *)
Lemma active_header_written (s : Flash) (idx : Z) :
  (forall o, 0 <= o < 4 -> platFlash s idx o = 0xff) ->
  SwapHeader.IsActive
    (readSwapHeader
       (otPlatFlashWrite s idx 0 (SwapHeader.bytes (SwapHeader.SetActive (SwapHeader.mk 0))))
       idx) = true.
Proof.
  intros He. unfold readSwapHeader, otPlatFlashRead.
  set (a := SwapHeader.bytes (SwapHeader.SetActive (SwapHeader.mk 0))).
  change (Z.to_nat SwapHeader.sizeof) with (length a).
  rewrite write_erased.
  - reflexivity.
  - intros o Ho. apply He. cbn in Ho. lia.
  - unfold a, SwapHeader.bytes. repeat constructor; apply Z.mod_pos_bound; lia.
Qed.

(** [Wipe] leaves an empty store in swap area 0: the swap header of
    area 0 reads ACTIVE, the write frontier is just behind it, and [Get]
    returns NotFound for every key and every index. *)
Theorem Wipe_empties (fuel : nat) (s : Flash) :
  platSwapSize s = mSwapSize s -> kMinSwapSize <= mSwapSize s < 4294967296 ->
  enough fuel s ->
  mSwapIndex (Wipe s) = 0 /\
  mSwapUsed (Wipe s) = SwapHeader.sizeof /\
  SwapHeader.IsActive (readSwapHeader (Wipe s) 0) = true /\
  forall aKey aIndex aValue aValueLength,
    Get fuel (Wipe s) aKey aIndex aValue aValueLength =
    Done (OT_ERROR_NOT_FOUND, aValue,
          match aValueLength with Some _ => Some 0 | None => None end).
Proof.
  intros Hp Hsz Hf. split; [reflexivity|]. split; [reflexivity|]. split.
  - change (readSwapHeader (Wipe s) 0) with
      (readSwapHeader
         (otPlatFlashWrite (otPlatFlashErase s 0) 0 0
            (SwapHeader.bytes (SwapHeader.SetActive (SwapHeader.mk 0)))) 0).
    apply active_header_written. intros o Ho. rewrite erase_cell. cbn [Z.eqb andb].
    change kMinSwapSize with 268 in Hsz.
    destruct (Z.leb_spec 0 o); [|lia].
    destruct (Z.ltb_spec o (platSwapSize s)); [reflexivity|lia].
  - intros. apply Get_empty; [apply Wipe_wf; assumption|exact Hf].
Qed.

Lemma Wipe_empties_witness :
  Get 268 (Wipe blank) 7 0 (Some [1; 2]) (Some 2) = Done (OT_ERROR_NOT_FOUND, Some [1; 2], Some 0).
Proof.
  apply (Wipe_empties 268 blank).
  - reflexivity.
  - vm_compute. split; [discriminate|reflexivity].
  - unfold enough. vm_compute. lia.
Defined.

(** A second [Wipe] changes nothing: the driver fields and every flash
    cell are as the first [Wipe] left them. *)
Theorem Wipe_idempotent (s : Flash) :
  same_driver (Wipe s) (Wipe (Wipe s)) /\
  forall i o, platFlash (Wipe (Wipe s)) i o = platFlash (Wipe s) i o.
Proof.
  split; [repeat split|].
  intros i o. unfold Wipe.
  cbn [platFlash with_mSwapUsed with_mSwapHeaderSize with_mSwapIndex].
  set (a := SwapHeader.bytes (SwapHeader.SetActive (SwapHeader.mk 0))).
  rewrite !write_cell, !erase_cell.
  cbn [platFlash platSwapSize with_mSwapUsed with_mSwapHeaderSize with_mSwapIndex
       otPlatFlashWrite otPlatFlashErase with_flash].
  destruct ((i =? 0) && (0 <=? o) && (o <? 0 + Z.of_nat (length a)));
    destruct ((i =? 0) && (0 <=? o) && (o <? platSwapSize s)); try reflexivity.
  rewrite <- Z.land_assoc, Z.land_diag. reflexivity.
Qed.

(** ** [Get]: presence and index range *)

Lemma Get_list_out_of_range (aKey aIndex : Z) (aValueLength : option Z) :
  forall (es : list entry) (l : GetLocals),
  0 <= gIndex l ->
  gIndex l + Z.of_nat (length (filter (is_live aKey) es)) <= aIndex ->
  let r := Get_list aKey aIndex aValueLength es l in
  gError r = gError l /\ gValueLength r = gValueLength l /\ gValue r = gValue l.
Proof.
  induction es as [|e es IH]; intros l H0 Hr r; subst r.
  - repeat split.
  - rewrite Get_list_cons. cbn [filter] in Hr.
    destruct (is_live aKey e) eqn:Hl.
    + rewrite (Get_body_live _ _ _ _ _ Hl). cbv zeta. cbn [length] in Hr.
      assert (Hi : 0 <= (if RecordHeader.IsFirst (eHeader e) then 0 else gIndex l) <= gIndex l)
        by (destruct (RecordHeader.IsFirst (eHeader e)); lia).
      destruct (Z.eqb_spec (if RecordHeader.IsFirst (eHeader e) then 0 else gIndex l) aIndex);
        [lia|].
      match goal with |- context [Get_list _ _ _ es ?l'] => specialize (IH l') end.
      cbv zeta in IH. cbn [gIndex gError gValueLength gValue] in IH. apply IH; lia.
    + rewrite (Get_body_dead _ _ _ _ _ Hl). apply IH; assumption.
Qed.

(** [Get(key, 0)] finds a record exactly when the store holds a valid
    record of the key; when it holds none, [Get] returns NotFound for
    every index, leaves the buffer as it was and reports length 0. *)
Theorem Get_found_iff_valid (fuel : nat) (s : Flash) (es : list entry) (aKey : Z) :
  wf_store s es -> enough fuel s ->
  (forall aValue aValueLength,
     exists v n,
       Get fuel s aKey 0 aValue aValueLength =
       Done (if has_valid aKey es then OT_ERROR_NONE else OT_ERROR_NOT_FOUND, v, n)) /\
  (has_valid aKey es = false ->
   forall aIndex aValue aValueLength,
     Get fuel s aKey aIndex aValue aValueLength =
     Done (OT_ERROR_NOT_FOUND, aValue,
           match aValueLength with Some _ => Some 0 | None => None end)).
Proof.
  intros Hwf Hf. split.
  - intros aValue aValueLength. rewrite (Get_log fuel s es _ _ _ _ Hwf Hf). cbv zeta.
    rewrite Get_list_probe by reflexivity. eexists. eexists. reflexivity.
  - intros Hno aIndex aValue aValueLength.
    rewrite (Get_log fuel s es _ _ _ _ Hwf Hf). cbv zeta.
    rewrite (Get_list_skip _ _ _ _ _ Hno). reflexivity.
Qed.

(** [Get(key, index)] returns NotFound, with the buffer untouched and
    length 0, whenever [index] is at least the number of valid records
    of the key in the store. *)
Theorem Get_index_out_of_range (fuel : nat) (s : Flash) (es : list entry)
    (aKey aIndex : Z) (aValue : option (list Z)) (aValueLength : option Z) :
  wf_store s es -> enough fuel s ->
  Z.of_nat (length (filter (is_live aKey) es)) <= aIndex ->
  Get fuel s aKey aIndex aValue aValueLength =
  Done (OT_ERROR_NOT_FOUND, aValue,
        match aValueLength with Some _ => Some 0 | None => None end).
Proof.
  intros Hwf Hf Hr. rewrite (Get_log fuel s es _ _ _ _ Hwf Hf). cbv zeta.
  destruct (Get_list_out_of_range aKey aIndex aValueLength es
              (mkGet OT_ERROR_NOT_FOUND 0 0 aValue)) as (He & Hn & Hv).
  - cbn. lia.
  - cbn [gIndex]. lia.
  - rewrite He, Hn, Hv. reflexivity.
Qed.

(** ** [Delete] of a key that is not in the store *)

Lemma Delete_loop_dead (aKey aIndex : Z) (s : Flash) :
  mSwapUsed s < 4294967296 ->
  forall es fuel off index error,
  log_at (platFlash s (mSwapIndex s)) off es ->
  off + log_size es = mSwapUsed s -> 0 <= off ->
  has_valid aKey es = false ->
  (length es < fuel)%nat ->
  Delete_loop fuel s aKey aIndex off index error = Done (error, s).
Proof.
  intros Hu. induction es as [|e es IH]; intros fuel off index error Hlog Hend Hoff Hno Hfuel.
  - destruct fuel as [|fuel]; [cbn in Hfuel; lia|].
    rewrite Delete_loop_eq. cbn in Hend.
    destruct (Z.ltb_spec off (mSwapUsed s)); [lia|]. reflexivity.
  - destruct fuel as [|fuel]; [cbn in Hfuel; lia|].
    pose proof Hlog as (Hwf & _ & Hrest).
    pose proof (wf_entry_size e Hwf) as (_ & Hsz & _).
    pose proof (log_at_size _ _ _ Hrest) as Hls.
    rewrite log_size_cons in Hend.
    rewrite has_valid_cons in Hno. apply orb_false_iff in Hno. destruct Hno as [He Hno].
    rewrite Delete_loop_eq.
    destruct (Z.ltb_spec off (mSwapUsed s)); [|lia].
    rewrite (log_at_header s off e es Hlog). cbv zeta.
    assert (Hskip : negb (RecordHeader.GetKey (eHeader e) =? aKey)
                    || negb (RecordHeader.IsValid (eHeader e)) = true).
    { destruct (RecordHeader.GetKey (eHeader e) =? aKey); cbn [andb negb orb] in *;
        [rewrite He|]; reflexivity. }
    rewrite Hskip. fold (entry_size e).
    rewrite (wrap32_small (off + entry_size e)) by lia.
    apply IH; [exact Hrest|lia|lia|exact Hno|cbn in Hfuel; lia].
Qed.

(** [Delete] of a key without a valid record in the store returns
    NotFound and writes nothing: the state it returns is the state it
    was called in. *)
Theorem Delete_missing_key (fuel : nat) (s : Flash) (es : list entry) (aKey aIndex : Z) :
  wf_store s es -> enough fuel s -> has_valid aKey es = false ->
  Delete fuel s aKey aIndex = Done (OT_ERROR_NOT_FOUND, s).
Proof.
  intros Hwf Hf Hno.
  pose proof (wf_store_bounds s es Hwf) as (Hh & Hls & Hu & Hfit & Hsz & Hn & Hp).
  unfold Delete. apply (Delete_loop_dead aKey aIndex s ltac:(lia) es).
  - apply Hwf.
  - lia.
  - lia.
  - exact Hno.
  - apply (enough_length fuel s es Hwf Hf).
Qed.

(** ** Operations on one key and the values of the other keys *)

Lemma Delete_entry_other (aKey aIndex : Z) (e : entry) (index : Z) (error : otError)
    (bKey bIndex : Z) (aValueLength : option Z) (l : GetLocals) :
  aKey <> bKey ->
  let e' := fst (fst (Delete_entry aKey aIndex e index error)) in
  Get_body bKey bIndex aValueLength (eHeader e') (entry_payload e') l =
  Get_body bKey bIndex aValueLength (eHeader e) (entry_payload e) l.
Proof.
  intros Hne. rewrite Delete_entry_eq.
  destruct (Z.eqb_spec (RecordHeader.GetKey (eHeader e)) aKey) as [Hk|Hk]; cbn [negb orb];
    [|reflexivity].
  destruct (RecordHeader.IsValid (eHeader e)); cbn [negb]; [|reflexivity].
  cbv zeta. cbn [fst eHeader].
  assert (Hdead : forall h p, RecordHeader.GetKey h = aKey ->
            Get_body bKey bIndex aValueLength h p l = l).
  { intros h p Hh. unfold Get_body. rewrite Hh.
    destruct (Z.eqb_spec aKey bKey); [contradiction|]. reflexivity. }
  rewrite (Hdead (eHeader e)) by exact Hk. apply Hdead.
  destruct ((aIndex =? _) || (aIndex =? -1)); destruct ((_ =? 1) && (aIndex =? 0)); exact Hk.
Qed.

Lemma Delete_list_other (aKey aIndex bKey bIndex : Z) (aValueLength : option Z) :
  aKey <> bKey ->
  forall es index error l,
  Get_list bKey bIndex aValueLength (fst (Delete_list aKey aIndex es index error)) l =
  Get_list bKey bIndex aValueLength es l.
Proof.
  intros Hne. induction es as [|e es IH]; intros index error l; [reflexivity|].
  pose proof (Delete_list_cons aKey aIndex e es index error) as Hcons. cbv zeta in Hcons.
  rewrite Hcons. cbn [fst]. rewrite !Get_list_cons.
  pose proof (Delete_entry_other aKey aIndex e index error bKey bIndex aValueLength l Hne) as Hb.
  cbv zeta in Hb. rewrite Hb. apply IH.
Qed.

(** [Delete] on one key changes no answer of [Get] for another key. *)
Theorem Delete_keeps_other_keys (fuel : nat) (s : Flash) (es : list entry)
    (aKey aIndex bKey : Z) :
  wf_store s es -> enough fuel s -> aKey <> bKey ->
  exists error s',
    Delete fuel s aKey aIndex = Done (error, s') /\
    forall bIndex aValue aValueLength,
      Get fuel s' bKey bIndex aValue aValueLength =
      Get fuel s bKey bIndex aValue aValueLength.
Proof.
  intros Hwf Hf Hne.
  destruct (Delete_wf fuel s es aKey aIndex Hwf Hf) as (s' & Hrun & Hwf' & Hp').
  assert (Hf' : enough fuel s') by (unfold enough in *; rewrite Hp'; exact Hf).
  eexists. exists s'. split; [exact Hrun|].
  intros bIndex aValue aValueLength.
  rewrite (Get_log fuel s' _ _ _ _ _ Hwf' Hf'), (Get_log fuel s es _ _ _ _ Hwf Hf). cbv zeta.
  rewrite (Delete_list_other aKey aIndex bKey bIndex aValueLength Hne). reflexivity.
Qed.

Lemma Get_list_other_new (aKey bKey bIndex : Z) (aValueLength : option Z) (aFirst : bool)
    (aValue : list Z) (junk : nat -> Z) (es : list entry) (l : GetLocals) :
  aKey <> bKey ->
  Get_list bKey bIndex aValueLength (es ++ [new_entry aKey aFirst aValue junk]) l =
  Get_list bKey bIndex aValueLength es l.
Proof.
  intros Hne. rewrite Get_list_app. cbn [Get_list fold_left].
  apply Get_body_dead. unfold is_live. rewrite new_entry_header.
  unfold RecordHeader.GetKey. cbn [RecordHeader.mKey].
  destruct (Z.eqb_spec aKey bKey); [contradiction|]. reflexivity.
Qed.

(** [Set] and [Add] on one key, on a store with room for the record,
    change no answer of [Get] for another key. *)
Theorem Set_Add_keep_other_keys (fuel : nat) (s : Flash) (es : list entry)
    (aKey bKey : Z) (aValue : list Z) (junk : nat -> Z) :
  wf_store s es -> enough fuel s -> is_u16 aKey -> Forall is_byte aValue ->
  Z.of_nat (length aValue) <= 256 ->
  mSwapUsed s + RecordSize (Z.of_nat (length aValue)) <= mSwapSize s ->
  aKey <> bKey ->
  (exists s',
     Set_ fuel s aKey aValue junk = Done (OT_ERROR_NONE, s') /\
     forall bIndex v n, Get fuel s' bKey bIndex v n = Get fuel s bKey bIndex v n) /\
  (exists s',
     AddAppend fuel s aKey aValue junk = Done (OT_ERROR_NONE, s') /\
     forall bIndex v n, Get fuel s' bKey bIndex v n = Get fuel s bKey bIndex v n).
Proof.
  intros Hwf Hf Hk Hv Hl Hfit Hne.
  assert (Hadd : forall aFirst, exists s',
            Add fuel s aKey aFirst aValue junk = Done (OT_ERROR_NONE, s') /\
            forall bIndex v n, Get fuel s' bKey bIndex v n = Get fuel s bKey bIndex v n).
  { intros aFirst.
    destruct (Add_cases fuel s es aKey aFirst aValue junk Hwf Hf Hk Hv Hl) as [Hroom _].
    destruct (Hroom Hfit) as (Hrun & Hwf' & _).
    eexists. split; [exact Hrun|]. intros bIndex v n.
    rewrite (Get_log fuel _ _ _ _ _ _ Hwf' Hf), (Get_log fuel s es _ _ _ _ Hwf Hf). cbv zeta.
    rewrite (Get_list_other_new aKey bKey bIndex n aFirst aValue junk es _ Hne). reflexivity. }
  split.
  - apply Hadd.
  - unfold AddAppend. rewrite (Get_log fuel s es _ _ _ _ Hwf Hf). cbv zeta. cbn [bind].
    apply Hadd.
Qed.

(** ** Deleting values of a chain *)

Lemma Delete_wf_driver (fuel : nat) (s : Flash) (es : list entry) (aKey aIndex : Z) :
  wf_store s es -> enough fuel s ->
  exists s',
    Delete fuel s aKey aIndex
    = Done (snd (Delete_list aKey aIndex es 0 OT_ERROR_NOT_FOUND), s') /\
    wf_store s' (fst (Delete_list aKey aIndex es 0 OT_ERROR_NOT_FOUND)) /\
    same_driver s s'.
Proof.
  intros Hwf Hf. pose proof (wf_store_bounds s es Hwf) as (Hh & Hls & Hu & Hfit & Hsz & Hn & Hp).
  unfold Delete. rewrite Hh.
  destruct (Delete_loop_log aKey aIndex es fuel s 4 0 OT_ERROR_NOT_FOUND)
    as (s' & Hrun & Hsd & Hl' & Hsize & Hc' & Hfr).
  - lia.
  - rewrite <- Hh. apply Hwf.
  - lia.
  - lia.
  - apply (enough_length fuel s es Hwf Hf).
  - pose proof Hsd as (Hp' & Hs' & Hu' & Hi' & Hh').
    exists s'. split; [exact Hrun|]. split; [|exact Hsd].
    constructor.
    + rewrite Hh'. apply Hwf.
    + rewrite Hi'. apply Hwf.
    + congruence.
    + rewrite Hs'. apply Hwf.
    + rewrite Hi', Hh', Hh. exact Hl'.
    + rewrite Hu', Hh', Hsize. apply Hwf.
    + rewrite Hu', Hs'. exact Hfit.
    + apply Hc'. apply Hwf.
    + intros o Ho. rewrite Hu', Hs' in Ho. rewrite Hi', Hfr by lia.
      apply (wf_free s es Hwf). lia.
Qed.

Lemma Delete_list_dead_app (aKey aIndex : Z) (es2 : list entry) :
  forall es index error,
  has_valid aKey es = false ->
  Delete_list aKey aIndex (es ++ es2) index error =
  (es ++ fst (Delete_list aKey aIndex es2 index error),
   snd (Delete_list aKey aIndex es2 index error)).
Proof.
  induction es as [|e es IH]; intros index error Hno.
  - cbn [app]. destruct (Delete_list aKey aIndex es2 index error); reflexivity.
  - rewrite has_valid_cons in Hno. apply orb_false_iff in Hno. destruct Hno as [He Hno].
    rewrite <- app_comm_cons.
    pose proof (Delete_list_cons aKey aIndex e (es ++ es2) index error) as Hcons.
    cbv zeta in Hcons. rewrite Hcons. clear Hcons.
    rewrite Delete_entry_eq.
    assert (Hskip : negb (RecordHeader.GetKey (eHeader e) =? aKey)
                    || negb (RecordHeader.IsValid (eHeader e)) = true).
    { destruct (RecordHeader.GetKey (eHeader e) =? aKey); cbn [andb negb orb] in *;
        [rewrite He|]; reflexivity. }
    rewrite Hskip. cbn [fst snd]. rewrite (IH index error Hno). reflexivity.
Qed.

Lemma is_live_new (aKey : Z) (aFirst : bool) (aValue : list Z) (junk : nat -> Z) :
  is_live aKey (new_entry aKey aFirst aValue junk) = true.
Proof.
  unfold is_live. rewrite new_entry_header. unfold RecordHeader.GetKey.
  cbn [RecordHeader.mKey]. rewrite Z.eqb_refl. destruct aFirst; reflexivity.
Qed.

Lemma filter_live_run (aKey : Z) (vs : list (list Z * (nat -> Z))) :
  filter (is_live aKey) (map (fun v => new_entry aKey false (fst v) (snd v)) vs)
  = map (fun v => new_entry aKey false (fst v) (snd v)) vs.
Proof.
  induction vs as [|v vs IH]; [reflexivity|].
  cbn [map filter]. rewrite is_live_new, IH. reflexivity.
Qed.

(** What the body of the loop of [Delete] does to a record that [Add]
    wrote, at counter [index0]. *)
Lemma Delete_entry_new (aKey aIndex : Z) (aFirst : bool) (aValue : list Z) (junk : nat -> Z)
    (index : Z) (error : otError) :
  let index0 := if aFirst then 0 else index in
  let c1 := (aIndex =? index0) || (aIndex =? -1) in
  let c2 := (index0 =? 1) && (aIndex =? 0) in
  snd (fst (Delete_entry aKey aIndex (new_entry aKey aFirst aValue junk) index error))
    = index0 + 1 /\
  snd (Delete_entry aKey aIndex (new_entry aKey aFirst aValue junk) index error)
    = (if c1 then OT_ERROR_NONE else error) /\
  (c1 = true ->
   is_live aKey (fst (fst (Delete_entry aKey aIndex (new_entry aKey aFirst aValue junk)
                             index error))) = false) /\
  (c1 = false ->
   fst (fst (Delete_entry aKey aIndex (new_entry aKey aFirst aValue junk) index error))
   = new_entry aKey (aFirst || c2) aValue junk).
Proof.
  cbv zeta. rewrite Delete_entry_eq.
  pose proof (is_live_new aKey aFirst aValue junk) as Hl. unfold is_live in Hl.
  apply andb_true_iff in Hl. destruct Hl as [Hk Hv]. rewrite Hk, Hv. cbn [negb orb].
  cbv zeta. cbn [fst snd].
  assert (Hf : RecordHeader.IsFirst (eHeader (new_entry aKey aFirst aValue junk)) = aFirst)
    by (rewrite new_entry_header; destruct aFirst; reflexivity).
  rewrite Hf.
  split; [reflexivity|]. split; [reflexivity|]. split.
  - intros ->. unfold is_live. cbn [eHeader].
    destruct ((_ =? 1) && (aIndex =? 0)); rewrite new_entry_header;
      destruct aFirst; cbn; apply andb_false_r.
  - intros ->.
    destruct ((_ =? 1) && (aIndex =? 0)); destruct aFirst; reflexivity.
Qed.

Lemma Delete_run_none (aKey aIndex : Z) :
  0 <= aIndex ->
  forall (vs : list (list Z * (nat -> Z))) (j : Z) (error : otError),
  aIndex < j -> aIndex <> 0 \/ 2 <= j ->
  Delete_list aKey aIndex (map (fun v => new_entry aKey false (fst v) (snd v)) vs) j error
  = (map (fun v => new_entry aKey false (fst v) (snd v)) vs, error).
Proof.
  intros H0. induction vs as [|v vs IH]; intros j error Hj Hp; [reflexivity|].
  cbn [map].
  pose proof (Delete_list_cons aKey aIndex (new_entry aKey false (fst v) (snd v))
                (map (fun v => new_entry aKey false (fst v) (snd v)) vs) j error) as Hcons.
  cbv zeta in Hcons. rewrite Hcons. clear Hcons.
  pose proof (Delete_entry_new aKey aIndex false (fst v) (snd v) j error) as (Hi & He & _ & Hs).
  cbv zeta in Hi, He, Hs.
  assert (Hc1 : (aIndex =? j) || (aIndex =? -1) = false).
  { destruct (Z.eqb_spec aIndex j); [lia|]. destruct (Z.eqb_spec aIndex (-1)); [lia|]. reflexivity. }
  assert (Hc2 : (j =? 1) && (aIndex =? 0) = false).
  { destruct (Z.eqb_spec j 1); [|reflexivity]. destruct (Z.eqb_spec aIndex 0); [lia|]. reflexivity. }
  rewrite Hc1 in He, Hs. rewrite Hc2 in Hs. specialize (Hs eq_refl).
  rewrite Hi, He, Hs. rewrite IH by lia. reflexivity.
Qed.

Lemma Delete_run_hit (aKey aIndex : Z) :
  forall (vs : list (list Z * (nat -> Z))) (j : Z) (error : otError) (n : nat),
  1 <= j -> aIndex = j + Z.of_nat n -> (n < length vs)%nat ->
  let r := Delete_list aKey aIndex
             (map (fun v => new_entry aKey false (fst v) (snd v)) vs) j error in
  filter (is_live aKey) (fst r)
  = map (fun v => new_entry aKey false (fst v) (snd v)) (firstn n vs ++ skipn (S n) vs) /\
  snd r = OT_ERROR_NONE.
Proof.
  induction vs as [|v vs IH]; intros j error n Hj Hi Hn r; [cbn in Hn; lia|].
  subst r. cbn [map].
  pose proof (Delete_list_cons aKey aIndex (new_entry aKey false (fst v) (snd v))
                (map (fun v => new_entry aKey false (fst v) (snd v)) vs) j error) as Hcons.
  cbv zeta in Hcons. rewrite Hcons. clear Hcons. cbn [fst snd].
  pose proof (Delete_entry_new aKey aIndex false (fst v) (snd v) j error)
    as (Hix & He & Hdead & Hs).
  cbv zeta in Hix, He, Hdead, Hs. rewrite Hix, He.
  assert (Hc2 : (j =? 1) && (aIndex =? 0) = false).
  { destruct (Z.eqb_spec aIndex 0); [lia|]. apply andb_false_r. }
  rewrite Hc2 in Hs.
  destruct n as [|n].
  - assert (Hc1 : (aIndex =? j) || (aIndex =? -1) = true).
    { destruct (Z.eqb_spec aIndex j); [reflexivity|lia]. }
    rewrite Hc1 in *. rewrite (Delete_run_none aKey aIndex ltac:(lia) vs (j + 1)) by lia.
    cbn [fst snd filter firstn skipn app]. rewrite (Hdead eq_refl), filter_live_run.
    split; reflexivity.
  - assert (Hc1 : (aIndex =? j) || (aIndex =? -1) = false).
    { destruct (Z.eqb_spec aIndex j); [lia|]. destruct (Z.eqb_spec aIndex (-1)); [lia|].
      reflexivity. }
    rewrite Hc1 in *. rewrite (Hs eq_refl).
    destruct (IH (j + 1) error n ltac:(lia) ltac:(lia) ltac:(cbn in Hn; lia)) as [Hfl Herr].
    cbn [filter firstn skipn app map]. rewrite is_live_new. cbn [orb].
    rewrite Hfl, Herr. split; reflexivity.
Qed.

Lemma filter_live_none (aKey : Z) (es : list entry) :
  has_valid aKey es = false -> filter (is_live aKey) es = [].
Proof.
  induction es as [|e es IH]; intros H; [reflexivity|].
  rewrite has_valid_cons in H. apply orb_false_iff in H. destruct H as [He Hes].
  cbn [filter]. unfold is_live at 1. rewrite He. apply IH. exact Hes.
Qed.

(** [Delete(key, n)] on a log that ends with the chain of the values [vs]
    leaves the chain of the values without the n-th. *)
Lemma Delete_chain_live (aKey : Z) (es : list entry) (vs : list (list Z * (nat -> Z)))
    (n : nat) :
  has_valid aKey es = false -> (n < length vs)%nat ->
  let r := Delete_list aKey (Z.of_nat n) (es ++ chain_from aKey false vs) 0
             OT_ERROR_NOT_FOUND in
  filter (is_live aKey) (fst r) = chain_from aKey false (firstn n vs ++ skipn (S n) vs) /\
  snd r = OT_ERROR_NONE.
Proof.
  intros Hno Hn r. subst r.
  rewrite (Delete_list_dead_app aKey (Z.of_nat n) _ es 0 OT_ERROR_NOT_FOUND Hno).
  cbn [fst snd]. rewrite filter_app, (filter_live_none _ _ Hno). cbn [app].
  destruct vs as [|v vs]; [cbn in Hn; lia|].
  cbn [chain_from negb]. rewrite chain_from_true.
  pose proof (Delete_list_cons aKey (Z.of_nat n) (new_entry aKey true (fst v) (snd v))
                (map (fun v => new_entry aKey false (fst v) (snd v)) vs) 0 OT_ERROR_NOT_FOUND)
    as Hcons.
  cbv zeta in Hcons. rewrite Hcons. clear Hcons. cbn [fst snd].
  pose proof (Delete_entry_new aKey (Z.of_nat n) true (fst v) (snd v) 0 OT_ERROR_NOT_FOUND)
    as (Hix & He & Hdead & Hs).
  cbv zeta in Hix, He, Hdead, Hs. rewrite Hix, He.
  destruct n as [|n].
  - (* the head is deleted and the record behind it is marked First *)
    change (Z.of_nat 0) with 0 in *. cbn [Z.eqb orb] in *.
    cbn [filter firstn skipn app]. rewrite (Hdead eq_refl).
    destruct vs as [|w ws]; [split; reflexivity|].
    cbn [map chain_from negb]. change (0 + 1) with 1.
    pose proof (Delete_list_cons aKey 0 (new_entry aKey false (fst w) (snd w))
                  (map (fun v => new_entry aKey false (fst v) (snd v)) ws) 1
                  OT_ERROR_NONE) as Hcons.
    cbv zeta in Hcons. rewrite Hcons. clear Hcons. cbn [fst snd].
    pose proof (Delete_entry_new aKey 0 false (fst w) (snd w) 1 OT_ERROR_NONE)
      as (Hix' & He' & _ & Hs').
    cbv zeta in Hix', He', Hs'.
    change ((0 =? 1) || (0 =? -1)) with false in He', Hs'.
    change ((1 =? 1) && (0 =? 0)) with true in Hs'.
    specialize (Hs' eq_refl). cbn [orb] in Hs'.
    rewrite Hix', He', Hs'. change (1 + 1) with 2.
    rewrite (Delete_run_none aKey 0 ltac:(lia) ws 2) by lia.
    cbn [fst snd filter]. rewrite is_live_new, filter_live_run, chain_from_true.
    split; reflexivity.
  - assert (Hc1 : (Z.of_nat (S n) =? 0) || (Z.of_nat (S n) =? -1) = false).
    { destruct (Z.eqb_spec (Z.of_nat (S n)) 0); [lia|].
      destruct (Z.eqb_spec (Z.of_nat (S n)) (-1)); [lia|]. reflexivity. }
    rewrite Hc1 in *. cbn [Z.eqb andb orb] in Hs. rewrite (Hs eq_refl).
    destruct (Delete_run_hit aKey (Z.of_nat (S n)) vs (0 + 1) OT_ERROR_NOT_FOUND n
                ltac:(lia) ltac:(lia) ltac:(cbn in Hn; lia)) as [Hfl Herr].
    cbn [filter firstn skipn app chain_from negb]. rewrite is_live_new, Hfl, Herr, chain_from_true.
    split; reflexivity.
Qed.

Lemma Get_chain_only (fuel : nat) (s : Flash) (es : list entry) (aKey : Z)
    (vs : list (list Z * (nat -> Z))) :
  wf_store s es -> enough fuel s ->
  filter (is_live aKey) es = chain_from aKey false vs ->
  (forall i v buf maxLength,
     nth_error vs i = Some v ->
     Get fuel s aKey (Z.of_nat i) (Some buf) (Some maxLength) =
     Done (OT_ERROR_NONE,
           Some (firstn (Z.to_nat (Z.min maxLength (Z.of_nat (length (fst v))))) (fst v)
                 ++ skipn (Z.to_nat (Z.min maxLength (Z.of_nat (length (fst v))))) buf),
           Some (Z.of_nat (length (fst v))))) /\
  (forall aValue aValueLength,
     Get fuel s aKey (Z.of_nat (length vs)) aValue aValueLength =
     Done (OT_ERROR_NOT_FOUND, aValue,
           match aValueLength with Some _ => Some 0 | None => None end)).
Proof.
  intros Hwf Hf Hlive. split.
  - intros i v buf maxLength Hi.
    rewrite (Get_log fuel s _ aKey (Z.of_nat i) _ _ Hwf Hf). cbv zeta.
    rewrite <- Get_list_filter, Hlive.
    pose proof (Get_list_chain aKey (Z.of_nat i) (Some buf) (Some maxLength) [] vs eq_refl)
      as [Hhit _].
    cbn [app] in Hhit.
    destruct (Hhit i v Hi eq_refl) as (He & Hn & Hv). rewrite He, Hn, Hv.
    unfold copy_out, Record_.memcpy. rewrite length_firstn.
    replace (Init.Nat.min (Z.to_nat (Z.min maxLength (Z.of_nat (length (fst v)))))
               (length (fst v)))
      with (Z.to_nat (Z.min maxLength (Z.of_nat (length (fst v))))) by lia.
    reflexivity.
  - intros aValue aValueLength.
    rewrite (Get_log fuel s _ aKey _ _ _ Hwf Hf). cbv zeta.
    rewrite <- Get_list_filter, Hlive.
    pose proof (Get_list_chain aKey (Z.of_nat (length vs)) aValue aValueLength [] vs eq_refl)
      as [_ Hmiss].
    cbn [app] in Hmiss.
    destruct (Hmiss ltac:(lia)) as (He & Hn & Hv). rewrite He, Hn, Hv. reflexivity.
Qed.

(** Deleting one value of a chain: on a store without a valid record for
    key K, after [Add(K, V0); ...; Add(K, Vm)] the log holds the record
    of V0 marked First and the records of V1 .. Vm not marked.  The call
    [Delete(K, n)] with n in [0, m] returns OK, and afterwards the valid
    records of K in the log are the records of the remaining values in
    their order, the first of them marked First and the others not: when
    V0 is deleted, the record of V1 is promoted to First.  The indexes
    of K give the remaining values: [Get(K, i)] returns the i-th of
    V0 .. Vm without Vn, and NotFound at their count. *)
Theorem Delete_one_keeps_others (fuel : nat) (s : Flash) (es : list entry) (aKey : Z)
    (vs : list (list Z * (nat -> Z))) (n : nat) :
  wf_store s es -> enough fuel s -> is_u16 aKey ->
  has_valid aKey es = false ->
  Forall value_ok vs ->
  mSwapUsed s + values_size vs <= mSwapSize s ->
  (n < length vs)%nat ->
  exists s' s'' es'',
    AddAll fuel s aKey vs = Done (true, s') /\
    wf_store s' (es ++ chain_from aKey false vs) /\
    Delete fuel s' aKey (Z.of_nat n) = Done (OT_ERROR_NONE, s'') /\
    wf_store s'' es'' /\
    filter (is_live aKey) es'' = chain_from aKey false (firstn n vs ++ skipn (S n) vs) /\
    (forall v rest, firstn n vs ++ skipn (S n) vs = v :: rest ->
       filter (is_live aKey) es''
       = new_entry aKey true (fst v) (snd v)
         :: map (fun w => new_entry aKey false (fst w) (snd w)) rest) /\
    (forall i v buf maxLength,
       nth_error (firstn n vs ++ skipn (S n) vs) i = Some v ->
       Get fuel s'' aKey (Z.of_nat i) (Some buf) (Some maxLength) =
       Done (OT_ERROR_NONE,
             Some (firstn (Z.to_nat (Z.min maxLength (Z.of_nat (length (fst v))))) (fst v)
                   ++ skipn (Z.to_nat (Z.min maxLength (Z.of_nat (length (fst v))))) buf),
             Some (Z.of_nat (length (fst v))))) /\
    (forall aValue aValueLength,
       Get fuel s'' aKey (Z.of_nat (length vs) - 1) aValue aValueLength =
       Done (OT_ERROR_NOT_FOUND, aValue,
             match aValueLength with Some _ => Some 0 | None => None end)).
Proof.
  intros Hwf Hf Hk Hno Hok Hfit Hn.
  destruct (AddAll_log fuel aKey Hk vs s es Hwf Hf Hok Hfit) as (s' & Hrun & Hwf' & Hp').
  rewrite Hno in Hwf'.
  assert (Hf' : enough fuel s') by (unfold enough in *; rewrite Hp'; exact Hf).
  destruct (Delete_wf_driver fuel s' _ aKey (Z.of_nat n) Hwf' Hf')
    as (s'' & Hdel & Hwf'' & Hsd).
  destruct (Delete_chain_live aKey es vs n Hno Hn) as [Hlive Herr].
  rewrite Herr in Hdel.
  assert (Hf'' : enough fuel s'').
  { destruct Hsd as (Hp'' & _). unfold enough in *. rewrite Hp''. exact Hf'. }
  destruct (Get_chain_only fuel s'' _ aKey _ Hwf'' Hf'' Hlive) as [Hget Hmiss].
  exists s', s'', (fst (Delete_list aKey (Z.of_nat n) (es ++ chain_from aKey false vs) 0
                        OT_ERROR_NOT_FOUND)).
  split; [exact Hrun|]. split; [exact Hwf'|]. split; [exact Hdel|]. split; [exact Hwf''|].
  split; [exact Hlive|]. split.
  { intros v rest Hrest. rewrite Hlive, Hrest. cbn [chain_from negb].
    rewrite chain_from_true. reflexivity. }
  split; [exact Hget|].
  intros aValue aValueLength.
  replace (Z.of_nat (length vs) - 1)
    with (Z.of_nat (length (firstn n vs ++ skipn (S n) vs))).
  - apply Hmiss.
  - rewrite length_app, length_firstn, length_skipn. lia.
Qed.

Lemma Delete_one_keeps_others_witness :
  exists s' s'' es'',
    AddAll 268 fresh 7 [([1], no_junk); ([2; 2], no_junk); ([3; 3; 3], no_junk)]
    = Done (true, s') /\
    wf_store s' [new_entry 7 true [1] no_junk; new_entry 7 false [2; 2] no_junk;
                 new_entry 7 false [3; 3; 3] no_junk] /\
    Delete 268 s' 7 0 = Done (OT_ERROR_NONE, s'') /\
    wf_store s'' es'' /\
    filter (is_live 7) es''
    = [new_entry 7 true [2; 2] no_junk; new_entry 7 false [3; 3; 3] no_junk] /\
    Get 268 s'' 7 0 (Some [0; 0; 0]) (Some 3) = Done (OT_ERROR_NONE, Some [2; 2; 0], Some 2) /\
    Get 268 s'' 7 1 (Some [0; 0; 0]) (Some 3) = Done (OT_ERROR_NONE, Some [3; 3; 3], Some 3) /\
    Get 268 s'' 7 2 None (Some 3) = Done (OT_ERROR_NOT_FOUND, None, Some 0).
Proof.
  destruct (Delete_one_keeps_others 268 fresh [] 7
              [([1], no_junk); ([2; 2], no_junk); ([3; 3; 3], no_junk)] 0)
    as (s' & s'' & es'' & Hrun & Hwf' & Hdel & Hwf'' & _ & Hpromoted & Hget & Hmiss).
  - exact fresh_wf.
  - exact enough_fresh.
  - unfold is_u16. lia.
  - reflexivity.
  - values_ok.
  - vm_compute. discriminate.
  - cbn. lia.
  - exists s', s'', es''. split; [exact Hrun|]. split; [exact Hwf'|]. split; [exact Hdel|].
    split; [exact Hwf''|]. split; [|split; [|split]].
    + apply (Hpromoted ([2; 2], no_junk) [([3; 3; 3], no_junk)]). reflexivity.
    + apply (Hget 0%nat ([2; 2], no_junk) [0; 0; 0] 3). reflexivity.
    + apply (Hget 1%nat ([3; 3; 3], no_junk) [0; 0; 0] 3). reflexivity.
    + apply (Hmiss None (Some 3)).
Defined.

Lemma Delete_list_all_error (aKey : Z) :
  forall es index error,
  snd (Delete_list aKey (-1) es index error)
  = if has_valid aKey es then OT_ERROR_NONE else error.
Proof.
  assert (Hnone : forall es index,
            snd (Delete_list aKey (-1) es index OT_ERROR_NONE) = OT_ERROR_NONE).
  { induction es as [|e es IH]; intros index; [reflexivity|].
    pose proof (Delete_list_cons aKey (-1) e es index OT_ERROR_NONE) as Hcons.
    cbv zeta in Hcons. rewrite Hcons. clear Hcons. cbn [snd].
    rewrite Delete_entry_eq.
    destruct (negb (RecordHeader.GetKey (eHeader e) =? aKey)
              || negb (RecordHeader.IsValid (eHeader e))); cbv zeta; cbn [fst snd].
    - apply IH.
    - destruct ((-1 =? _) || (-1 =? -1)); apply IH. }
  induction es as [|e es IH]; intros index error; [reflexivity|].
  pose proof (Delete_list_cons aKey (-1) e es index error) as Hcons.
  cbv zeta in Hcons. rewrite Hcons. clear Hcons. cbn [snd].
  rewrite has_valid_cons, Delete_entry_eq.
  destruct (RecordHeader.GetKey (eHeader e) =? aKey); cbn [negb orb andb].
  - destruct (RecordHeader.IsValid (eHeader e)); cbn [negb]; cbv zeta; cbn [fst snd].
    + replace ((-1 =? (if RecordHeader.IsFirst (eHeader e) then 0 else index)) || (-1 =? -1))
        with true by (rewrite orb_true_r; reflexivity).
      apply Hnone.
    + apply IH.
  - cbn [fst snd]. apply IH.
Qed.

(** Deleting every value and adding again: from any well-formed store,
    after [Delete(K, -1)] and then [Add(K, V0); ...; Add(K, Vn)] with
    room for the records, every call to [Add] has returned OK and the
    indexes of K give exactly V0 .. Vn: nothing of the old values is
    left. *)
Theorem Delete_all_then_Add (fuel : nat) (s : Flash) (es : list entry) (aKey : Z)
    (vs : list (list Z * (nat -> Z))) :
  wf_store s es -> enough fuel s -> is_u16 aKey ->
  Forall value_ok vs ->
  mSwapUsed s + values_size vs <= mSwapSize s ->
  exists error s' s'',
    Delete fuel s aKey (-1) = Done (error, s') /\
    error = (if has_valid aKey es then OT_ERROR_NONE else OT_ERROR_NOT_FOUND) /\
    AddAll fuel s' aKey vs = Done (true, s'') /\
    (forall i v buf maxLength,
       nth_error vs i = Some v ->
       Get fuel s'' aKey (Z.of_nat i) (Some buf) (Some maxLength) =
       Done (OT_ERROR_NONE,
             Some (firstn (Z.to_nat (Z.min maxLength (Z.of_nat (length (fst v))))) (fst v)
                   ++ skipn (Z.to_nat (Z.min maxLength (Z.of_nat (length (fst v))))) buf),
             Some (Z.of_nat (length (fst v))))) /\
    (forall aValue aValueLength,
       Get fuel s'' aKey (Z.of_nat (length vs)) aValue aValueLength =
       Done (OT_ERROR_NOT_FOUND, aValue,
             match aValueLength with Some _ => Some 0 | None => None end)).
Proof.
  intros Hwf Hf Hk Hok Hfit.
  destruct (Delete_wf_driver fuel s es aKey (-1) Hwf Hf) as (s' & Hdel & Hwf' & Hsd).
  pose proof (log_at_flags _ _ _ (wf_log s es Hwf)) as Hfl.
  pose proof (Delete_list_all aKey es 0 OT_ERROR_NOT_FOUND Hfl) as Hno.
  destruct Hsd as (Hp' & Hs' & Hu' & _).
  assert (Hf' : enough fuel s') by (unfold enough in *; rewrite Hp'; exact Hf).
  destruct (AddAll_log fuel aKey Hk vs s' _ Hwf' Hf' Hok ltac:(rewrite Hu', Hs'; exact Hfit))
    as (s'' & Hrun & Hwf'' & Hp'').
  rewrite Hno in Hwf''.
  assert (Hf'' : enough fuel s'') by (unfold enough in *; rewrite Hp''; exact Hf').
  assert (Hlive : filter (is_live aKey)
                    (fst (Delete_list aKey (-1) es 0 OT_ERROR_NOT_FOUND)
                     ++ chain_from aKey false vs) = chain_from aKey false vs).
  { rewrite filter_app, (filter_live_none _ _ Hno). cbn [app].
    destruct vs as [|v vs']; [reflexivity|].
    cbn [chain_from negb filter]. rewrite is_live_new, chain_from_true, filter_live_run.
    reflexivity. }
  destruct (Get_chain_only fuel s'' _ aKey _ Hwf'' Hf'' Hlive) as [Hget Hmiss].
  exists (snd (Delete_list aKey (-1) es 0 OT_ERROR_NOT_FOUND)), s', s''.
  split; [exact Hdel|]. split; [|split; [exact Hrun|split; [exact Hget|exact Hmiss]]].
  apply Delete_list_all_error.
Qed.

(** ** A store with two keys *)

Lemma sample_store :
  exists s,
    wf_store s [new_entry 1 true [0xaa; 0xbb] no_junk; new_entry 2 true [0xcc] no_junk] /\
    enough 268 s /\ mSwapUsed s = 28 /\ mSwapSize s = 268.
Proof.
  destruct (Add_cases 268 fresh [] 1 true [0xaa; 0xbb] no_junk fresh_wf enough_fresh)
    as [Hroom _]; [unfold is_u16; lia|bytes_ok|cbn; lia|].
  destruct Hroom as (_ & Hwf & Hu); [vm_compute; discriminate|].
  cbn [app] in Hwf.
  destruct (Add_cases 268 _ _ 2 true [0xcc] no_junk Hwf enough_fresh)
    as [Hroom _]; [unfold is_u16; lia|bytes_ok|cbn; lia|].
  destruct Hroom as (_ & Hwf' & Hu'); [rewrite Hu; vm_compute; discriminate|].
  cbn [app] in Hwf'.
  eexists. split; [exact Hwf'|]. split; [exact enough_fresh|].
  split; [rewrite Hu', Hu; reflexivity|reflexivity].
Qed.

Lemma Delete_all_then_Add_witness :
  exists s s' s'',
    wf_store s [new_entry 1 true [0xaa; 0xbb] no_junk; new_entry 2 true [0xcc] no_junk] /\
    Delete 268 s 1 (-1) = Done (OT_ERROR_NONE, s') /\
    AddAll 268 s' 1 [([5], no_junk); ([6; 6], no_junk)] = Done (true, s'') /\
    Get 268 s'' 1 0 (Some [0; 0]) (Some 2) = Done (OT_ERROR_NONE, Some [5; 0], Some 1) /\
    Get 268 s'' 1 2 None None = Done (OT_ERROR_NOT_FOUND, None, None).
Proof.
  destruct sample_store as (s & Hwf & Hf & Hu & Hs).
  destruct (Delete_all_then_Add 268 s _ 1 [([5], no_junk); ([6; 6], no_junk)] Hwf Hf)
    as (error & s' & s'' & Hdel & -> & Hrun & Hget & Hmiss).
  - unfold is_u16. lia.
  - values_ok.
  - rewrite Hu, Hs. vm_compute. discriminate.
  - exists s, s', s''. split; [exact Hwf|]. split; [exact Hdel|]. split; [exact Hrun|].
    split.
    + apply (Hget 0%nat ([5], no_junk) [0; 0] 2). reflexivity.
    + apply (Hmiss None None).
Defined.

Lemma Get_found_iff_valid_witness :
  exists s,
    wf_store s [new_entry 1 true [0xaa; 0xbb] no_junk; new_entry 2 true [0xcc] no_junk] /\
    (exists v n, Get 268 s 2 0 None None = Done (OT_ERROR_NONE, v, n)) /\
    Get 268 s 3 0 (Some [9]) (Some 1) = Done (OT_ERROR_NOT_FOUND, Some [9], Some 0).
Proof.
  destruct sample_store as (s & Hwf & Hf & _).
  destruct (Get_found_iff_valid 268 s _ 2 Hwf Hf) as [Hhit _].
  destruct (Get_found_iff_valid 268 s _ 3 Hwf Hf) as [_ Hmiss].
  exists s. split; [exact Hwf|]. split.
  - apply (Hhit None None).
  - apply (Hmiss eq_refl 0 (Some [9]) (Some 1)).
Defined.

Lemma Get_index_out_of_range_witness :
  exists s,
    wf_store s [new_entry 1 true [0xaa; 0xbb] no_junk; new_entry 2 true [0xcc] no_junk] /\
    Get 268 s 1 1 (Some [9]) (Some 1) = Done (OT_ERROR_NOT_FOUND, Some [9], Some 0).
Proof.
  destruct sample_store as (s & Hwf & Hf & _).
  exists s. split; [exact Hwf|].
  apply (Get_index_out_of_range 268 s _ 1 1 (Some [9]) (Some 1) Hwf Hf).
  vm_compute. discriminate.
Defined.

Lemma Delete_missing_key_witness :
  exists s,
    wf_store s [new_entry 1 true [0xaa; 0xbb] no_junk; new_entry 2 true [0xcc] no_junk] /\
    Delete 268 s 3 (-1) = Done (OT_ERROR_NOT_FOUND, s).
Proof.
  destruct sample_store as (s & Hwf & Hf & _).
  exists s. split; [exact Hwf|].
  apply (Delete_missing_key 268 s _ 3 (-1) Hwf Hf). reflexivity.
Defined.

Lemma Delete_keeps_other_keys_witness :
  exists s error s',
    wf_store s [new_entry 1 true [0xaa; 0xbb] no_junk; new_entry 2 true [0xcc] no_junk] /\
    Delete 268 s 1 0 = Done (error, s') /\
    Get 268 s' 2 0 None None = Get 268 s 2 0 None None.
Proof.
  destruct sample_store as (s & Hwf & Hf & _).
  destruct (Delete_keeps_other_keys 268 s _ 1 0 2 Hwf Hf) as (error & s' & Hdel & Hget).
  - discriminate.
  - exists s, error, s'. split; [exact Hwf|]. split; [exact Hdel|]. apply Hget.
Defined.

Lemma Set_Add_keep_other_keys_witness :
  exists s s',
    wf_store s [new_entry 1 true [0xaa; 0xbb] no_junk; new_entry 2 true [0xcc] no_junk] /\
    Set_ 268 s 1 [7; 7; 7] no_junk = Done (OT_ERROR_NONE, s') /\
    Get 268 s' 2 0 None None = Get 268 s 2 0 None None.
Proof.
  destruct sample_store as (s & Hwf & Hf & Hu & Hs).
  destruct (Set_Add_keep_other_keys 268 s _ 1 2 [7; 7; 7] no_junk Hwf Hf)
    as [(s' & Hset & Hget) _].
  - unfold is_u16. lia.
  - bytes_ok.
  - cbn. lia.
  - rewrite Hu, Hs. vm_compute. discriminate.
  - discriminate.
  - exists s, s'. split; [exact Hwf|]. split; [exact Hset|]. apply Hget.
Defined.

(** ** [Init] after a power cycle *)

Lemma Sanitize_loop_clean (s : Flash) :
  mSwapSize s mod 4 = 0 -> mSwapSize s < 4294967296 ->
  forall fuel off,
  off mod 4 = 0 -> 0 <= off ->
  (forall o, off <= o < mSwapSize s -> platFlash s (mSwapIndex s) o = 0xff) ->
  (Z.to_nat (mSwapSize s - off) < fuel)%nat ->
  Sanitize_loop fuel s off = Done false.
Proof.
  intros Hal Hsz. induction fuel as [|fuel IH]; intros off Hoff H0 Hfree Hfuel; [lia|].
  cbn [Sanitize_loop].
  destruct (Z.ltb_spec off (mSwapSize s)) as [Hlt|Hge]; [|reflexivity].
  assert (Hnext : off + 4 <= mSwapSize s).
  { pose proof (Z.div_mod off 4). pose proof (Z.div_mod (mSwapSize s) 4). lia. }
  assert (Hw : readWord s off = 0xffffffff).
  { unfold readWord, otPlatFlashRead.
    rewrite (read_ext _ (fun _ => 0xff)); [reflexivity|].
    intros o Ho. apply Hfree. change (Z.of_nat (Z.to_nat 4)) with 4 in Ho. lia. }
  rewrite Hw. cbn [Z.eqb Pos.eqb negb]. rewrite wrap32_small by lia.
  apply IH.
  - rewrite Zplus_mod, Hoff. reflexivity.
  - lia.
  - intros o Ho. apply Hfree. lia.
  - lia.
Qed.

Lemma Init_power_cycle (fuel : nat) (s : Flash) (es : list entry)
    (size used index headerSize : Z) :
  wf_store s es -> durable s -> enough fuel s ->
  Init fuel (power_cycle s size used index headerSize) = Done s.
Proof.
  intros Hwf (Hact & Hfirst & Hal) Hf.
  pose proof (wf_store_bounds s es Hwf) as (Hh & Hls & Hu & Hfit & Hsz & Hn & Hp).
  pose proof (wf_scan_image s es Hwf) as (Hlog & Hcom & _ & Hstop).
  pose proof (log_at_aligned _ _ _ Hlog) as Hla.
  pose proof (wf_free s es Hwf) as Hfree.
  unfold enough in Hf. change kFlashWordSize with 4 in Hal.
  destruct s as [p f sz u i h].
  cbn [platSwapSize platFlash mSwapSize mSwapUsed mSwapIndex mSwapHeaderSize with_mSwapIndex]
    in *.
  subst h p u.
  unfold Init, power_cycle, otPlatFlashGetSwapSize.
  cbn [platSwapSize platFlash mSwapSize mSwapUsed mSwapIndex mSwapHeaderSize with_mSwapSize].
  rewrite wrap32_small by lia.
  rewrite Init_select_spec.
  set (s0 := with_mSwapSize (mkFlash sz f size used index headerSize) sz).
  set (take := fun j => with_mSwapHeaderSize (with_mSwapIndex s0 j) 4).
  change (readSwapHeader s0 0) with (readSwapHeader (mkFlash sz f sz (4 + log_size es) i 4) 0).
  change (readSwapHeader s0 1) with (readSwapHeader (mkFlash sz f sz (4 + log_size es) i 4) 1).
  fold (take 0). fold (take 1).
  assert (Hsel : (if SwapHeader.IsActive
                       (readSwapHeader (mkFlash sz f sz (4 + log_size es) i 4) 0)
                  then Some (take 0)
                  else if SwapHeader.IsActive
                            (readSwapHeader (mkFlash sz f sz (4 + log_size es) i 4) 1)
                       then Some (take 1) else None) = Some (take i)).
  { destruct Hfirst as [->|H0].
    - rewrite Hact. reflexivity.
    - rewrite H0.
      assert (i = 1) by (destruct (wf_index _ _ Hwf) as [Hi|Hi]; cbn in Hi;
                         [subst i; rewrite Hact in H0; discriminate|exact Hi]).
      subst i. rewrite Hact. reflexivity. }
  rewrite Hsel. clear Hsel.
  change (mSwapHeaderSize (take i)) with 4.
  rewrite (Init_scan_log (take i) ltac:(cbn; change kMinSwapSize with 268 in Hsz; lia) es fuel 4).
  - cbn [bind]. unfold SanitizeFreeSpace.
    change (mSwapUsed (with_mSwapUsed (take i) (4 + log_size es))) with (4 + log_size es).
    rewrite land_3, Zplus_mod, Hla.
    change ((4 mod 4 + 0) mod 4 =? 0) with true. cbn [negb].
    rewrite (Sanitize_loop_clean (with_mSwapUsed (take i) (4 + log_size es)) Hal
               ltac:(cbn; lia) fuel (4 + log_size es)).
    + reflexivity.
    + rewrite Zplus_mod, Hla. reflexivity.
    + lia.
    + exact Hfree.
    + change (mSwapSize (with_mSwapUsed (take i) (4 + log_size es))) with sz.
      change kMinSwapSize with 268 in Hsz. lia.
  - exact Hlog.
  - exact Hcom.
  - lia.
  - change (mSwapSize (take i)) with sz. lia.
  - exact Hstop.
  - pose proof (enough_length fuel (mkFlash sz f sz (4 + log_size es) i 4) es Hwf) as He.
    apply He. exact Hf.
Qed.

(** ** The swap headers along the operations *)

Lemma readSwapHeader_cells (s s' : Flash) (i : Z) :
  (forall o, 0 <= o < 4 -> platFlash s' i o = platFlash s i o) ->
  readSwapHeader s' i = readSwapHeader s i.
Proof.
  intros H. unfold readSwapHeader, otPlatFlashRead. f_equal.
  apply read_ext. intros o Ho. apply H. cbn in Ho. lia.
Qed.

Lemma land_byte (x b : Z) : is_byte b -> is_byte (Z.land x b).
Proof.
  intros Hb. unfold is_byte in *.
  assert (H : Z.land x b = Z.land x b mod 256).
  { change 256 with (2 ^ 8). rewrite <- Z.land_ones by lia.
    rewrite <- Z.land_assoc. f_equal. rewrite Z.land_ones by lia.
    symmetry. apply Z.mod_small. exact Hb. }
  rewrite H. apply Z.mod_pos_bound. lia.
Qed.

(** A swap header overwritten with the INACTIVE marker never reads
    ACTIVE, whatever the cells held: the write clears bit 1 of the first
    byte, which the ACTIVE marker has set. *)
Lemma inactive_header_written (s : Flash) (idx : Z) :
  SwapHeader.IsActive
    (readSwapHeader
       (otPlatFlashWrite s idx 0
          (SwapHeader.bytes (SwapHeader.SetInactive (SwapHeader.SetActive (SwapHeader.mk 0)))))
       idx) = false.
Proof.
  unfold readSwapHeader, otPlatFlashRead.
  replace (SwapHeader.bytes (SwapHeader.SetInactive (SwapHeader.SetActive (SwapHeader.mk 0))))
    with [236; 197; 92; 190] by reflexivity.
  change (Z.to_nat SwapHeader.sizeof) with (length [236; 197; 92; 190]).
  rewrite write_read. unfold read. cbn [length seq map combine fst snd SwapHeader.of_bytes].
  unfold SwapHeader.IsActive. cbn [SwapHeader.mMarker].
  apply Z.eqb_neq. unfold le32, SwapHeader.kActive. intros H.
  pose proof (land_byte (platFlash s idx (0 + Z.of_nat 0)) 236 ltac:(unfold is_byte; lia)) as B0.
  pose proof (land_byte (platFlash s idx (0 + Z.of_nat 1)) 197 ltac:(unfold is_byte; lia)) as B1.
  pose proof (land_byte (platFlash s idx (0 + Z.of_nat 2)) 92 ltac:(unfold is_byte; lia)) as B2.
  pose proof (land_byte (platFlash s idx (0 + Z.of_nat 3)) 190 ltac:(unfold is_byte; lia)) as B3.
  unfold is_byte in *.
  assert (H0 : Z.land (platFlash s idx (0 + Z.of_nat 0)) 236 = 238) by lia.
  assert (Hbit : Z.testbit (Z.land (platFlash s idx (0 + Z.of_nat 0)) 236) 1 = false).
  { rewrite Z.land_spec. apply andb_false_r. }
  rewrite H0 in Hbit. discriminate.
Qed.

(** [Swap] moves the store to the other swap area: the header of the new
    area reads ACTIVE, and the header of the old one does not. *)
Lemma Swap_headers (fuel : nat) (s : Flash) (es : list entry) :
  mSwapHeaderSize s = 4 ->
  mSwapIndex s = 0 \/ mSwapIndex s = 1 ->
  platSwapSize s = mSwapSize s ->
  kMinSwapSize <= mSwapSize s < 4294967296 ->
  log_at (platFlash s (mSwapIndex s)) 4 es ->
  mSwapUsed s = 4 + log_size es ->
  mSwapUsed s <= mSwapSize s ->
  Forall committed es ->
  enough fuel s ->
  exists s', Swap fuel s = Done s' /\
             mSwapIndex s' = 1 - mSwapIndex s /\
             mSwapUsed s' = 4 + log_size (compact es) /\
             SwapHeader.IsActive (readSwapHeader s' (mSwapIndex s')) = true /\
             SwapHeader.IsActive (readSwapHeader s' (mSwapIndex s)) = false.
Proof.
  intros Hh Hi Hp Hsz Hlog Hu Hfit Hcom Hfuel.
  pose proof (log_at_size _ _ _ Hlog) as Hls.
  pose proof (compact_size es) as Hcs.
  pose proof (log_size_nonneg (compact es)) as Hcn.
  change kMinSwapSize with 268 in Hsz.
  unfold enough in Hfuel.
  unfold Swap.
  set (dst := if mSwapIndex s =? 0 then 1 else 0).
  assert (Hdst : dst <> mSwapIndex s /\ dst = 1 - mSwapIndex s).
  { unfold dst. destruct (Z.eqb_spec (mSwapIndex s) 0); lia. }
  set (s0 := otPlatFlashErase s dst).
  change (mSwapHeaderSize s0) with (mSwapHeaderSize s). rewrite Hh.
  assert (Herased : forall o, 0 <= o < platSwapSize s -> platFlash s0 dst o = 0xff).
  { intros o Ho. unfold s0. rewrite erase_cell.
    destruct (Z.eqb_spec dst dst); [|congruence].
    destruct (Z.leb_spec 0 o); [|lia].
    destruct (Z.ltb_spec o (platSwapSize s)); [reflexivity|lia]. }
  destruct (Swap_loop_log dst es fuel s0 4 4) as (s1 & Hrun & Hsd & Hl1 & Hfr).
  - apply Hdst.
  - change (mSwapUsed s0) with (mSwapUsed s). lia.
  - apply (log_at_ext (platFlash s (mSwapIndex s))); [|exact Hlog].
    intros o Ho. change (mSwapIndex s0) with (mSwapIndex s). unfold s0.
    rewrite erase_cell. destruct (Z.eqb_spec (mSwapIndex s) dst); [|reflexivity].
    destruct Hdst as [Hne _]. congruence.
  - change (mSwapUsed s0) with (mSwapUsed s). lia.
  - lia.
  - exact Hcom.
  - lia.
  - lia.
  - intros o Ho. apply Herased. lia.
  - lia.
  - rewrite Hrun. cbn [bind].
    destruct Hsd as (Hsd1 & Hsd2 & Hsd3 & Hsd4 & Hsd5).
    change (mSwapIndex s0) with (mSwapIndex s) in Hsd4.
    set (a := SwapHeader.bytes (SwapHeader.SetActive (SwapHeader.mk 0))).
    set (b := SwapHeader.bytes (SwapHeader.SetInactive (SwapHeader.SetActive (SwapHeader.mk 0)))).
    set (s2 := otPlatFlashWrite s1 dst 0 a).
    change (mSwapIndex s2) with (mSwapIndex s1). rewrite Hsd4.
    set (s3 := otPlatFlashWrite s2 (mSwapIndex s) 0 b).
    eexists. split; [reflexivity|].
    cbn [mSwapIndex mSwapUsed with_mSwapUsed with_mSwapIndex].
    split; [apply Hdst|]. split; [reflexivity|]. split.
    + change (readSwapHeader (with_mSwapUsed (with_mSwapIndex s3 dst)
                                (4 + log_size (compact es))) dst)
        with (readSwapHeader s3 dst).
      rewrite (readSwapHeader_cells s2 s3 dst).
      * apply active_header_written. intros o Ho. rewrite Hfr by lia. apply Herased. lia.
      * intros o Ho. unfold s3. apply write_other. left. apply Hdst.
    + change (readSwapHeader (with_mSwapUsed (with_mSwapIndex s3 dst)
                                (4 + log_size (compact es))) (mSwapIndex s))
        with (readSwapHeader s3 (mSwapIndex s)).
      apply inactive_header_written.
Qed.

Lemma Swap_durable (fuel : nat) (s : Flash) (es : list entry) :
  mSwapHeaderSize s = 4 ->
  mSwapIndex s = 0 \/ mSwapIndex s = 1 ->
  platSwapSize s = mSwapSize s ->
  kMinSwapSize <= mSwapSize s < 4294967296 ->
  log_at (platFlash s (mSwapIndex s)) 4 es ->
  mSwapUsed s = 4 + log_size es ->
  mSwapUsed s <= mSwapSize s ->
  Forall committed es ->
  enough fuel s ->
  mSwapSize s mod 4 = 0 ->
  exists s', Swap fuel s = Done s' /\ wf_store s' (compact es) /\
             platSwapSize s' = platSwapSize s /\ durable s'.
Proof.
  intros Hh Hi Hp Hsz Hlog Hu Hfit Hcom Hfuel Hal.
  destruct (Swap_log fuel s es Hh Hi Hp Hsz Hlog Hu Hfit Hcom Hfuel)
    as (s' & Hsw & Hwf' & Hs' & Hp' & _).
  destruct (Swap_headers fuel s es Hh Hi Hp Hsz Hlog Hu Hfit Hcom Hfuel)
    as (s'' & Hsw' & Hidx & _ & Hact & Hold).
  rewrite Hsw in Hsw'. injection Hsw' as <-.
  exists s'. split; [exact Hsw|]. split; [exact Hwf'|]. split; [exact Hp'|].
  split; [exact Hact|]. split.
  - destruct Hi as [Hi|Hi]; rewrite Hi in *; [right; exact Hold|left; rewrite Hidx; reflexivity].
  - rewrite Hs'. exact Hal.
Qed.

Lemma Wipe_durable (s : Flash) :
  4 <= platSwapSize s -> mSwapSize s mod 4 = 0 -> durable (Wipe s).
Proof.
  intros Hp Hal.
  assert (Hact : SwapHeader.IsActive (readSwapHeader (Wipe s) 0) = true).
  { change (readSwapHeader (Wipe s) 0) with
      (readSwapHeader
         (otPlatFlashWrite (otPlatFlashErase s 0) 0 0
            (SwapHeader.bytes (SwapHeader.SetActive (SwapHeader.mk 0)))) 0).
    apply active_header_written. intros o Ho. rewrite erase_cell. cbn [Z.eqb andb].
    destruct (Z.leb_spec 0 o); [|lia].
    destruct (Z.ltb_spec o (platSwapSize s)); [reflexivity|lia]. }
  split; [exact Hact|]. split; [left; reflexivity|exact Hal].
Qed.

Lemma Add_write_durable (s : Flash) (record : Record_.t) :
  4 <= mSwapUsed s -> durable s -> durable (Add_write s record).
Proof.
  intros Hu (Hact & Hfirst & Hal).
  assert (Hhdr : forall j, readSwapHeader (Add_write s record) j = readSwapHeader s j).
  { intros j. apply readSwapHeader_cells. intros o Ho. unfold Add_write.
    cbn [platFlash with_mSwapUsed].
    rewrite !write_other; [reflexivity| |]; right; left; cbn; lia. }
  unfold durable. rewrite !Hhdr.
  change (mSwapIndex (Add_write s record)) with (mSwapIndex s).
  change (mSwapSize (Add_write s record)) with (mSwapSize s).
  split; [exact Hact|]. split; [exact Hfirst|exact Hal].
Qed.

Lemma Add_durable (fuel : nat) (s s' : Flash) (es : list entry) (aKey : Z) (aFirst : bool)
    (aValue : list Z) (junk : nat -> Z) (error : otError) :
  wf_store s es -> durable s -> enough fuel s -> is_u16 aKey -> Forall is_byte aValue ->
  Add fuel s aKey aFirst aValue junk = Done (error, s') ->
  durable s'.
Proof.
  intros Hwf Hd Hf Hk Hv Hrun.
  pose proof (Add_done_length _ _ _ _ _ _ _ Hrun) as Hl.
  pose proof (wf_store_bounds _ _ Hwf) as (Hh & Hls & Hu & Hfit & Hsz & _ & Hp).
  destruct (Add_cases fuel s es aKey aFirst aValue junk Hwf Hf Hk Hv Hl) as [Hroom Hfull].
  destruct (Z.le_gt_cases (mSwapUsed s + RecordSize (Z.of_nat (length aValue))) (mSwapSize s))
    as [Hle|Hgt].
  - destruct (Hroom Hle) as (Hadd & _ & _). rewrite Hadd in Hrun.
    injection Hrun as _ <-. apply Add_write_durable; [lia|exact Hd].
  - destruct (Hfull ltac:(lia)) as (s1 & Hsw & Hwf1 & Hsz1 & Hno & Hyes).
    destruct (Swap_durable fuel s es Hh (wf_index _ _ Hwf) Hp Hsz) as (s1' & Hsw' & _ & _ & Hd1).
    + rewrite <- Hh. apply Hwf.
    + lia.
    + exact Hfit.
    + apply Hwf.
    + exact Hf.
    + apply Hd.
    + rewrite Hsw in Hsw'. injection Hsw' as <-.
      pose proof (wf_store_bounds _ _ Hwf1) as (_ & Hls1 & Hu1 & _).
      destruct (Z.le_gt_cases (mSwapUsed s1 + RecordSize (Z.of_nat (length aValue)))
                  (mSwapSize s)) as [Hle1|Hgt1].
      * destruct (Hyes Hle1) as (Hadd & _ & _). rewrite Hadd in Hrun.
        injection Hrun as _ <-. apply Add_write_durable; [lia|exact Hd1].
      * rewrite (Hno ltac:(lia)) in Hrun. injection Hrun as _ <-. exact Hd1.
Qed.

Lemma Delete_durable (fuel : nat) (s s' : Flash) (es : list entry) (aKey aIndex : Z)
    (error : otError) :
  wf_store s es -> durable s -> enough fuel s ->
  Delete fuel s aKey aIndex = Done (error, s') ->
  durable s'.
Proof.
  intros Hwf (Hact & Hfirst & Hal) Hf Hrun.
  pose proof (wf_store_bounds s es Hwf) as (Hh & Hls & Hu & Hfit & Hsz & Hn & Hp).
  unfold Delete in Hrun. rewrite Hh in Hrun.
  destruct (Delete_loop_log aKey aIndex es fuel s 4 0 OT_ERROR_NOT_FOUND)
    as (s'' & Hrun' & Hsd & _ & _ & _ & Hfr).
  - lia.
  - rewrite <- Hh. apply Hwf.
  - lia.
  - lia.
  - apply (enough_length fuel s es Hwf Hf).
  - rewrite Hrun' in Hrun. injection Hrun as _ <-.
    destruct Hsd as (_ & Hs' & _ & Hi' & _).
    assert (Hhdr : forall j, readSwapHeader s'' j = readSwapHeader s j).
    { intros j. apply readSwapHeader_cells. intros o Ho. apply Hfr. right. left. lia. }
    unfold durable. rewrite !Hhdr, Hi', Hs'.
    split; [exact Hact|]. split; [exact Hfirst|exact Hal].
Qed.

(** [Init] on the flash that the driver left returns a store that
    satisfies the invariant and whose swap header selects its area. *)
Lemma Init_durable (fuel : nat) (s : Flash) :
  flash_image s -> enough fuel s ->
  exists s' es, Init fuel s = Done s' /\ wf_store s' es /\ durable s'.
Proof.
  intros (Hsz & Hal & Hb & Himg) Hfuel.
  change kFlashWordSize with 4 in Hal.
  assert (Hsz' : 268 <= platSwapSize s < 4294967296) by exact Hsz.
  unfold Init. unfold otPlatFlashGetSwapSize.
  rewrite wrap32_small by lia.
  set (s0 := with_mSwapSize s (platSwapSize s)).
  rewrite Init_select_spec.
  change (readSwapHeader s0 0) with (readSwapHeader s 0).
  change (readSwapHeader s0 1) with (readSwapHeader s 1).
  assert (Hsel : forall i, i = 0 \/ i = 1 ->
            SwapHeader.IsActive (readSwapHeader s i) = true ->
            i = 0 \/ SwapHeader.IsActive (readSwapHeader s 0) = false ->
            exists s' es,
              (used <- Init_scan fuel (with_mSwapHeaderSize (with_mSwapIndex s0 i) 4)
                         (mSwapHeaderSize (with_mSwapHeaderSize (with_mSwapIndex s0 i) 4)) ;;
               SanitizeFreeSpace fuel
                 (with_mSwapUsed (with_mSwapHeaderSize (with_mSwapIndex s0 i) 4) used))
              = Done s' /\ wf_store s' es /\ durable s').
  { intros i Hi Hact Hfirst. destruct (Himg i Hi Hact) as (es & Hlog & Hcom & Hfit & Hstop).
    cbn [mSwapIndex with_mSwapIndex platFlash platSwapSize] in Hlog, Hfit, Hstop.
    set (s1 := with_mSwapHeaderSize (with_mSwapIndex s0 i) 4).
    pose proof (log_at_size _ _ _ Hlog) as Hls.
    pose proof (log_at_aligned _ _ _ Hlog) as Hla.
    change (mSwapHeaderSize s1) with 4.
    rewrite (Init_scan_log s1 ltac:(cbn; lia) es fuel 4).
    - cbn [bind].
      set (s2 := with_mSwapUsed s1 (4 + log_size es)).
      assert (Hua : mSwapUsed s2 mod 4 = 0).
      { change (mSwapUsed s2) with (4 + log_size es). rewrite Zplus_mod, Hla. reflexivity. }
      unfold SanitizeFreeSpace. rewrite land_3, Hua. cbn [Z.eqb negb].
      assert (Hu0 : 0 <= mSwapUsed s2) by (change (mSwapUsed s2) with (4 + log_size es); lia).
      assert (Hs2 : mSwapSize s2 < 4294967296) by (change (mSwapSize s2) with (platSwapSize s); lia).
      destruct (Sanitize_loop_spec s2 Hb Hal Hs2 fuel (mSwapUsed s2) Hua Hu0)
        as (b & Hrun & Hclean).
      + unfold enough in Hfuel. change (mSwapSize s2) with (platSwapSize s).
        change (mSwapUsed s2) with (4 + log_size es). lia.
      + rewrite Hrun. cbn [bind]. destruct b.
        * destruct (Swap_durable fuel s2 es) as (s' & Hsw & Hwf' & _ & Hd');
            try assumption; try reflexivity; try (cbn; lia).
          exists s', (compact es). split; [exact Hsw|]. split; [exact Hwf'|exact Hd'].
        * exists s2, es. split; [reflexivity|]. split.
          -- constructor; try assumption; try reflexivity; try (cbn; lia).
             intros o Ho. apply (Hclean eq_refl). exact Ho.
          -- split; [exact Hact|]. split; [exact Hfirst|exact Hal].
    - exact Hlog.
    - exact Hcom.
    - lia.
    - cbn. exact Hfit.
    - cbn [mSwapSize s1 with_mSwapHeaderSize with_mSwapIndex s0 with_mSwapSize]. exact Hstop.
    - unfold enough in Hfuel. lia. }
  destruct (SwapHeader.IsActive (readSwapHeader s 0)) eqn:H0.
  - apply (Hsel 0); [left; reflexivity|exact H0|left; reflexivity].
  - destruct (SwapHeader.IsActive (readSwapHeader s 1)) eqn:H1.
    + apply (Hsel 1); [right; reflexivity|exact H1|right; reflexivity].
    + eexists. exists []. split; [reflexivity|]. split.
      * apply Wipe_wf; cbn; [reflexivity|exact Hsz].
      * apply Wipe_durable; [cbn; lia|exact Hal].
Qed.

Lemma reachable_durable (s : Flash) : reachable s -> exists es, wf_store s es /\ durable s.
Proof.
  induction 1 as [fuel s s' Himg Hf Hrun
                 | fuel s aKey aIndex aValue aValueLength r _ IH Hf Hrun
                 | fuel s s' aKey aValue junk error _ IH Hf Hk Hv Hrun
                 | fuel s s' aKey aValue junk error _ IH Hf Hk Hv Hrun
                 | fuel s s' aKey aIndex error _ IH Hf Hrun
                 | s _ IH].
  - destruct (Init_durable fuel s Himg Hf) as (s'' & es & Hinit & Hwf & Hd).
    rewrite Hinit in Hrun. injection Hrun as <-. exists es. split; assumption.
  - exact IH.
  - destruct IH as (es & Hwf & Hd).
    destruct (Add_wf fuel s s' es aKey true aValue junk error Hwf Hf Hk Hv Hrun) as (es' & Hwf' & _).
    exists es'. split; [exact Hwf'|].
    apply (Add_durable fuel s s' es aKey true aValue junk error Hwf Hd Hf Hk Hv Hrun).
  - destruct IH as (es & Hwf & Hd). unfold AddAppend in Hrun.
    rewrite (Get_log fuel s es aKey 0 None None Hwf Hf) in Hrun. cbv zeta in Hrun.
    cbn [bind] in Hrun.
    destruct (Add_wf fuel s s' es aKey _ aValue junk error Hwf Hf Hk Hv Hrun) as (es' & Hwf' & _).
    exists es'. split; [exact Hwf'|].
    apply (Add_durable fuel s s' es aKey _ aValue junk error Hwf Hd Hf Hk Hv Hrun).
  - destruct IH as (es & Hwf & Hd).
    destruct (Delete_wf fuel s es aKey aIndex Hwf Hf) as (s'' & Hdel & Hwf' & _).
    pose proof (Delete_durable fuel s s' es aKey aIndex error Hwf Hd Hf Hrun) as Hd'.
    rewrite Hdel in Hrun. injection Hrun as _ <-. eexists. split; [exact Hwf'|exact Hd'].
  - destruct IH as (es & Hwf & Hd). exists []. split; [apply Wipe_wf; apply Hwf|].
    pose proof (wf_store_bounds s es Hwf) as (_ & _ & _ & _ & Hsz & _ & Hp).
    change kMinSwapSize with 268 in Hsz.
    apply Wipe_durable; [lia|apply Hd].
Qed.

(** Power-cycle persistence: in every state the driver reaches from
    [Init] by its public operations, on a flash with word-aligned swap
    areas, a power cycle followed by [Init] gives back that very state:
    the same swap area, the same write frontier, the same flash, hence
    the same answer to every [Get]. *)
Theorem reachable_restores (fuel : nat) (s : Flash) (size used index headerSize : Z) :
  reachable s -> enough fuel s ->
  Init fuel (power_cycle s size used index headerSize) = Done s.
Proof.
  intros Hr Hf. destruct (reachable_durable s Hr) as (es & Hwf & Hd).
  apply (Init_power_cycle fuel s es size used index headerSize Hwf Hd Hf).
Qed.

Lemma reachable_restores_witness :
  exists s,
    Init 268 blank = Done fresh /\
    AddAppend 268 fresh 7 [1; 2] no_junk = Done (OT_ERROR_NONE, s) /\
    Init 268 (power_cycle s 0 0 0 0) = Done s.
Proof.
  destruct (Add_cases 268 fresh [] 7 true [1; 2] no_junk fresh_wf enough_fresh)
    as [Hroom _]; [unfold is_u16; lia|bytes_ok|cbn; lia|].
  destruct Hroom as (Hadd & _ & _); [vm_compute; discriminate|].
  assert (Hrun : AddAppend 268 fresh 7 [1; 2] no_junk
                 = Done (OT_ERROR_NONE,
                         Add_write fresh
                           (Record_.mk
                              (RecordHeader.SetLength (RecordHeader.Init 7 true)
                                 (Z.of_nat (length [1; 2])))
                              (Record_.memcpy (Record_.uninitialized no_junk) [1; 2])))).
  { unfold AddAppend. rewrite (Get_log 268 fresh [] 7 0 None None fresh_wf enough_fresh).
    exact Hadd. }
  eexists. split; [reflexivity|]. split; [exact Hrun|].
  apply (reachable_restores 268).
  - apply (reach_Add 268 fresh _ 7 [1; 2] no_junk OT_ERROR_NONE).
    + apply (reach_Init 268 blank); [exact blank_image|unfold enough; vm_compute; lia|reflexivity].
    + exact enough_fresh.
    + unfold is_u16. lia.
    + bytes_ok.
    + exact Hrun.
  - exact enough_fresh.
Defined.

(** [Init] after a power cycle restores the driver: on the flash of a
    store that satisfies the invariant, whose swap header reads ACTIVE
    while the header of no swap area before it does, and whose swap areas
    are word-aligned, [Init] returns the state the driver had before,
    whatever the members of the object hold when it is called; it writes
    nothing to the flash. *)
Theorem Init_restores (fuel : nat) (s : Flash) (es : list entry)
    (size used index headerSize : Z) :
  wf_store s es -> durable s -> enough fuel s ->
  Init fuel (power_cycle s size used index headerSize) = Done s.
Proof. apply Init_power_cycle. Qed.

Lemma sample_store_durable :
  exists s,
    wf_store s [new_entry 1 true [0xaa; 0xbb] no_junk; new_entry 2 true [0xcc] no_junk] /\
    enough 268 s /\ durable s /\ mSwapUsed s = 28 /\ mSwapSize s = 268.
Proof.
  destruct (Add_cases 268 fresh [] 1 true [0xaa; 0xbb] no_junk fresh_wf enough_fresh)
    as [Hroom _]; [unfold is_u16; lia|bytes_ok|cbn; lia|].
  destruct Hroom as (_ & Hwf & Hu); [vm_compute; discriminate|].
  cbn [app] in Hwf.
  destruct (Add_cases 268 _ _ 2 true [0xcc] no_junk Hwf enough_fresh)
    as [Hroom _]; [unfold is_u16; lia|bytes_ok|cbn; lia|].
  destruct Hroom as (_ & Hwf' & Hu'); [rewrite Hu; vm_compute; discriminate|].
  cbn [app] in Hwf'.
  eexists. split; [exact Hwf'|]. split; [exact enough_fresh|].
  split; [|split; [rewrite Hu', Hu; reflexivity|reflexivity]].
  apply Add_write_durable; [rewrite Hu; vm_compute; discriminate|].
  apply Add_write_durable; [vm_compute; discriminate|].
  apply Wipe_durable; [vm_compute; discriminate|reflexivity].
Qed.

Lemma Init_restores_witness :
  exists s,
    wf_store s [new_entry 1 true [0xaa; 0xbb] no_junk; new_entry 2 true [0xcc] no_junk] /\
    Init 268 (power_cycle s 0 999 7 0) = Done s.
Proof.
  destruct sample_store_durable as (s & Hwf & Hf & Hd & _).
  exists s. split; [exact Hwf|].
  apply (Init_restores 268 s _ 0 999 7 0 Hwf Hd Hf).
Defined.

(** ** [Swap] *)

Lemma shadowed_compact (aKey : Z) (es : list entry) :
  shadowed aKey (compact es) = shadowed aKey es.
Proof.
  induction es as [|e es IH]; [reflexivity|].
  cbn [compact].
  destruct (RecordHeader.IsValid (eHeader e)) eqn:Hv; cbn [negb orb].
  - destruct (shadowed (RecordHeader.GetKey (eHeader e)) es) eqn:Hs.
    + rewrite IH. unfold shadowed at 2. cbn [existsb]. fold (shadowed aKey es).
      rewrite Hv. cbn [andb].
      destruct (RecordHeader.IsFirst (eHeader e)); cbn [andb orb]; [|reflexivity].
      destruct (Z.eqb_spec (RecordHeader.GetKey (eHeader e)) aKey) as [Hk|Hk];
        cbn [orb]; [|reflexivity].
      rewrite <- Hk. exact Hs.
    + unfold shadowed at 1 2. cbn [existsb]. fold (shadowed aKey (compact es)).
      fold (shadowed aKey es). rewrite IH. reflexivity.
  - rewrite IH. unfold shadowed at 2. cbn [existsb]. fold (shadowed aKey es).
    rewrite Hv. reflexivity.
Qed.

Lemma compact_idempotent (es : list entry) : compact (compact es) = compact es.
Proof.
  induction es as [|e es IH]; [reflexivity|].
  cbn [compact].
  destruct (negb (RecordHeader.IsValid (eHeader e))
            || shadowed (RecordHeader.GetKey (eHeader e)) es) eqn:Hd; [exact IH|].
  cbn [compact]. rewrite shadowed_compact, Hd, IH. reflexivity.
Qed.

Lemma compact_valid (es : list entry) :
  Forall (fun e => RecordHeader.IsValid (eHeader e) = true) (compact es).
Proof.
  induction es as [|e es IH]; [constructor|].
  cbn [compact].
  destruct (RecordHeader.IsValid (eHeader e)) eqn:Hv; cbn [negb orb]; [|exact IH].
  destruct (shadowed (RecordHeader.GetKey (eHeader e)) es); [exact IH|].
  constructor; [exact Hv|exact IH].
Qed.

(** [Swap] moves the store to the other swap area and never grows it: it
    returns, the active index flips, the header of the new area reads
    ACTIVE and the header of the old one does not, the write frontier is
    not behind the old one, and every record in the new area is valid. *)
Theorem Swap_switches_area (fuel : nat) (s : Flash) (es : list entry) :
  wf_store s es -> enough fuel s ->
  exists s',
    Swap fuel s = Done s' /\
    mSwapIndex s' = 1 - mSwapIndex s /\
    SwapHeader.IsActive (readSwapHeader s' (mSwapIndex s')) = true /\
    SwapHeader.IsActive (readSwapHeader s' (mSwapIndex s)) = false /\
    mSwapUsed s' <= mSwapUsed s /\
    wf_store s' (compact es) /\
    Forall (fun e => RecordHeader.IsValid (eHeader e) = true) (compact es).
Proof.
  intros Hwf Hf.
  pose proof (wf_store_bounds s es Hwf) as (Hh & Hls & Hu & Hfit & Hsz & Hn & Hp).
  destruct (Swap_wf fuel s es Hwf Hf) as (s' & Hsw & Hwf' & _).
  destruct (Swap_headers fuel s es Hh (wf_index _ _ Hwf) Hp (wf_size _ _ Hwf))
    as (s'' & Hsw' & Hidx & Hused & Hact & Hold).
  - rewrite <- Hh. apply Hwf.
  - lia.
  - exact Hfit.
  - apply Hwf.
  - exact Hf.
  - rewrite Hsw in Hsw'. injection Hsw' as <-.
    exists s'. split; [exact Hsw|]. split; [exact Hidx|]. split; [exact Hact|].
    split; [exact Hold|]. split; [|split; [exact Hwf'|apply compact_valid]].
    pose proof (compact_size es). lia.
Qed.

Lemma Swap_switches_area_witness :
  exists s s',
    wf_store s [new_entry 1 true [0xaa; 0xbb] no_junk; new_entry 2 true [0xcc] no_junk] /\
    Swap 268 s = Done s' /\
    mSwapIndex s' = 1 - mSwapIndex s /\
    SwapHeader.IsActive (readSwapHeader s' (mSwapIndex s')) = true /\
    SwapHeader.IsActive (readSwapHeader s' (mSwapIndex s)) = false.
Proof.
  destruct sample_store as (s & Hwf & Hf & _).
  destruct (Swap_switches_area 268 s _ Hwf Hf) as (s' & Hsw & Hidx & Hact & Hold & _).
  exists s, s'. split; [exact Hwf|]. split; [exact Hsw|]. split; [exact Hidx|].
  split; [exact Hact|exact Hold].
Defined.

(** A second [Swap] reclaims nothing: after two calls the store is back
    in the swap area it started in, with the records the first call kept
    and the same write frontier as after the first call. *)
Theorem Swap_twice (fuel : nat) (s : Flash) (es : list entry) :
  wf_store s es -> enough fuel s ->
  exists s' s'',
    Swap fuel s = Done s' /\ Swap fuel s' = Done s'' /\
    wf_store s' (compact es) /\ wf_store s'' (compact es) /\
    mSwapIndex s'' = mSwapIndex s /\ mSwapUsed s'' = mSwapUsed s'.
Proof.
  intros Hwf Hf.
  destruct (Swap_wf fuel s es Hwf Hf) as (s' & Hsw & Hwf' & _ & Hp' & Hi').
  assert (Hf' : enough fuel s') by (unfold enough in *; rewrite Hp'; exact Hf).
  destruct (Swap_wf fuel s' _ Hwf' Hf') as (s'' & Hsw' & Hwf'' & _ & _ & Hi'').
  rewrite compact_idempotent in Hwf''.
  exists s', s''. split; [exact Hsw|]. split; [exact Hsw'|]. split; [exact Hwf'|].
  split; [exact Hwf''|].
  pose proof (wf_store_bounds _ _ Hwf') as (_ & _ & Hu' & _).
  pose proof (wf_store_bounds _ _ Hwf'') as (_ & _ & Hu'' & _).
  split; [|lia].
  destruct (wf_index _ _ Hwf); destruct (wf_index _ _ Hwf'); destruct (wf_index _ _ Hwf''); lia.
Qed.

Lemma Swap_twice_witness :
  exists s s' s'',
    wf_store s [new_entry 1 true [0xaa; 0xbb] no_junk; new_entry 2 true [0xcc] no_junk] /\
    Swap 268 s = Done s' /\ Swap 268 s' = Done s'' /\
    mSwapIndex s'' = mSwapIndex s /\ mSwapUsed s'' = mSwapUsed s'.
Proof.
  destruct sample_store as (s & Hwf & Hf & _).
  destruct (Swap_twice 268 s _ Hwf Hf) as (s' & s'' & Hsw & Hsw' & _ & _ & Hi & Hu).
  exists s, s', s''. split; [exact Hwf|]. split; [exact Hsw|]. split; [exact Hsw'|].
  split; [exact Hi|exact Hu].
Defined.

(** ** What [Get] does to the caller's buffer *)

Lemma memcpy_within (buf b data : list Z) (m : nat) :
  length b = length buf -> skipn m b = skipn m buf ->
  (length data <= m)%nat -> (m <= length buf)%nat ->
  length (Record_.memcpy b data) = length buf /\
  skipn m (Record_.memcpy b data) = skipn m buf.
Proof.
  intros Hl Hs Hd Hm. unfold Record_.memcpy. split.
  - rewrite length_app, length_skipn. lia.
  - rewrite skipn_app, skipn_skipn.
    rewrite (skipn_all2 data) by lia. cbn [app].
    replace (m - length data + length data)%nat with m by lia. exact Hs.
Qed.

Lemma Get_body_within (aKey aIndex maxLength : Z) (e : entry) (l : GetLocals)
    (buf : list Z) :
  0 <= maxLength <= Z.of_nat (length buf) ->
  (exists b, gValue l = Some b /\ length b = length buf /\
             skipn (Z.to_nat maxLength) b = skipn (Z.to_nat maxLength) buf) ->
  exists b,
    gValue (Get_body aKey aIndex (Some maxLength) (eHeader e) (entry_payload e) l) = Some b /\
    length b = length buf /\
    skipn (Z.to_nat maxLength) b = skipn (Z.to_nat maxLength) buf.
Proof.
  intros Hm (b & Hb & Hl & Hs). unfold Get_body.
  destruct (negb _ || negb _); [exists b; auto|].
  destruct (_ =? aIndex); cbn [gValue]; [|exists b; auto].
  rewrite Hb. eexists. split; [reflexivity|].
  apply memcpy_within; [exact Hl|exact Hs| |lia].
  unfold entry_payload. rewrite length_firstn.
  destruct (Z.gtb_spec maxLength (RecordHeader.GetLength (eHeader e))); lia.
Qed.

Lemma Get_list_within (aKey aIndex maxLength : Z) (buf : list Z) (es : list entry) :
  0 <= maxLength <= Z.of_nat (length buf) ->
  forall l,
  (exists b, gValue l = Some b /\ length b = length buf /\
             skipn (Z.to_nat maxLength) b = skipn (Z.to_nat maxLength) buf) ->
  exists b,
    gValue (Get_list aKey aIndex (Some maxLength) es l) = Some b /\
    length b = length buf /\
    skipn (Z.to_nat maxLength) b = skipn (Z.to_nat maxLength) buf.
Proof.
  intros Hm. induction es as [|e es IH]; intros l Hl; [exact Hl|].
  rewrite Get_list_cons. apply IH. apply Get_body_within; assumption.
Qed.

Lemma Get_list_no_copy (aKey aIndex : Z) (aValue : option (list Z))
    (aValueLength : option Z) (es : list entry) :
  aValue = None \/ aValueLength = None ->
  forall l, gValue l = aValue ->
  gValue (Get_list aKey aIndex aValueLength es l) = aValue.
Proof.
  intros Hnull. induction es as [|e es IH]; intros l Hl; [exact Hl|].
  rewrite Get_list_cons. apply IH. unfold Get_body.
  destruct (negb _ || negb _); [exact Hl|].
  destruct (_ =? aIndex); cbn [gValue]; [|exact Hl].
  rewrite Hl. destruct Hnull as [-> | ->]; [reflexivity|].
  destruct aValue; reflexivity.
Qed.

(** [Get] stays inside the caller's buffer: with a buffer of at least
    [maxLength] bytes it returns a buffer of the same length whose bytes
    from [maxLength] on are untouched, whether it finds a record or not;
    and it copies nothing at all when the buffer or the length pointer
    is null. *)
Theorem Get_buffer_bounds (fuel : nat) (s : Flash) (es : list entry) (aKey aIndex : Z) :
  wf_store s es -> enough fuel s ->
  (forall buf maxLength,
     0 <= maxLength <= Z.of_nat (length buf) ->
     exists error buf' n,
       Get fuel s aKey aIndex (Some buf) (Some maxLength) = Done (error, Some buf', Some n) /\
       length buf' = length buf /\
       skipn (Z.to_nat maxLength) buf' = skipn (Z.to_nat maxLength) buf) /\
  (forall aValue aValueLength,
     aValue = None \/ aValueLength = None ->
     exists error n,
       Get fuel s aKey aIndex aValue aValueLength = Done (error, aValue, n)).
Proof.
  intros Hwf Hf. split.
  - intros buf maxLength Hm.
    rewrite (Get_log fuel s es _ _ _ _ Hwf Hf). cbv zeta.
    destruct (Get_list_within aKey aIndex maxLength buf es Hm
                (mkGet OT_ERROR_NOT_FOUND 0 0 (Some buf))) as (b & Hb & Hl & Hs).
    + exists buf. auto.
    + rewrite Hb. eexists. exists b. eexists. split; [reflexivity|]. split; assumption.
  - intros aValue aValueLength Hnull.
    rewrite (Get_log fuel s es _ _ _ _ Hwf Hf). cbv zeta.
    rewrite (Get_list_no_copy aKey aIndex aValue aValueLength es Hnull
               (mkGet OT_ERROR_NOT_FOUND 0 0 aValue) eq_refl).
    eexists. eexists. reflexivity.
Qed.

Lemma Get_buffer_bounds_witness :
  exists s error buf' n,
    wf_store s [new_entry 1 true [0xaa; 0xbb] no_junk; new_entry 2 true [0xcc] no_junk] /\
    Get 268 s 1 0 (Some [7; 8; 9]) (Some 1) = Done (error, Some buf', Some n) /\
    length buf' = 3%nat /\ skipn 1 buf' = [8; 9].
Proof.
  destruct sample_store as (s & Hwf & Hf & _).
  destruct (Get_buffer_bounds 268 s _ 1 0 Hwf Hf) as [Hin _].
  destruct (Hin [7; 8; 9] 1 ltac:(cbn; lia)) as (error & buf' & n & Hget & Hl & Hs).
  exists s, error, buf', n. split; [exact Hwf|]. split; [exact Hget|].
  split; [exact Hl|exact Hs].
Defined.

(** ** A power cut between the two writes of [Add] *)

(** A power cut after [Add] has written the record and before it has
    committed it loses that record and nothing else: on the flash as the
    first write left it, [Init] takes the same swap area, stops its scan
    at the uncommitted header, finds the free space dirty and swaps; the
    store it returns holds the records that [Swap] keeps of the store
    before the [Add], in the other swap area. *)
Theorem Init_drops_torn_record (fuel : nat) (s : Flash) (es : list entry) (aKey : Z)
    (aFirst : bool) (aValue : list Z) (junk : nat -> Z) (size used index headerSize : Z) :
  wf_store s es -> durable s -> enough fuel s ->
  is_u16 aKey -> Forall is_byte aValue -> Z.of_nat (length aValue) <= 256 ->
  mSwapUsed s + RecordSize (Z.of_nat (length aValue)) <= mSwapSize s ->
  let record :=
    Record_.mk (RecordHeader.SetLength (RecordHeader.Init aKey aFirst) (Z.of_nat (length aValue)))
               (Record_.memcpy (Record_.uninitialized junk) aValue) in
  let torn :=
    otPlatFlashWrite s (mSwapIndex s) (mSwapUsed s)
      (Record_.bytes record (RecordHeader.GetSize (Record_.header record))) in
  exists s',
    Init fuel (power_cycle torn size used index headerSize) = Done s' /\
    wf_store s' (compact es) /\ durable s' /\ mSwapIndex s' = 1 - mSwapIndex s.
Proof.
  intros Hwf (Hact & Hfirst & Hal) Hf Hk Hv Hl Hroom record torn.
  destruct (Add_first_write s es aKey aFirst aValue junk Hwf Hk Hv Hl Hroom)
    as (Hhdr & Hab & Hac & _).
  fold record in Hhdr, Hab, Hac. fold torn in Hhdr.
  pose proof (wf_store_bounds s es Hwf) as (Hh & Hls & Hu & Hfit & Hsz & Hn & Hp).
  pose proof (log_at_aligned _ _ _ (wf_log s es Hwf)) as Hla.
  pose proof (padded_bounds (Z.of_nat (length aValue)) ltac:(lia)) as [Hpb _].
  unfold RecordSize in Hroom.
  change kFlashWordSize with 4 in Hal. unfold enough in Hf.
  assert (Hcells : forall j o, o < mSwapUsed s -> platFlash torn j o = platFlash s j o).
  { intros j o Ho. unfold torn. apply write_other. right. left. exact Ho. }
  assert (Hheaders : forall j, readSwapHeader torn j = readSwapHeader s j).
  { intros j. apply readSwapHeader_cells. intros o Ho. apply Hcells. lia. }
  unfold Init, otPlatFlashGetSwapSize.
  change (platSwapSize (power_cycle torn size used index headerSize)) with (platSwapSize s).
  rewrite wrap32_small by lia.
  set (s0 := with_mSwapSize (power_cycle torn size used index headerSize) (platSwapSize s)).
  set (take := fun j => with_mSwapHeaderSize (with_mSwapIndex s0 j) 4).
  rewrite Init_select_spec.
  change (readSwapHeader s0 0) with (readSwapHeader torn 0).
  change (readSwapHeader s0 1) with (readSwapHeader torn 1).
  fold (take 0). fold (take 1). rewrite !Hheaders.
  assert (Hsel : (if SwapHeader.IsActive (readSwapHeader s 0) then Some (take 0)
                  else if SwapHeader.IsActive (readSwapHeader s 1)
                       then Some (take 1) else None) = Some (take (mSwapIndex s))).
  { destruct Hfirst as [H0|H0].
    - rewrite H0 in *. rewrite Hact. reflexivity.
    - rewrite H0.
      assert (Hi : mSwapIndex s = 1).
      { destruct (wf_index _ _ Hwf) as [Hi|Hi]; [|exact Hi].
        rewrite Hi, H0 in Hact. discriminate. }
      rewrite Hi in *. rewrite Hact. reflexivity. }
  rewrite Hsel. clear Hsel.
  set (s1 := take (mSwapIndex s)).
  change (mSwapHeaderSize s1) with 4.
  assert (Hlog : log_at (platFlash s1 (mSwapIndex s1)) 4 es).
  { change (platFlash s1 (mSwapIndex s1)) with (platFlash torn (mSwapIndex s)).
    apply (log_at_ext (platFlash s (mSwapIndex s))).
    - intros o Ho. symmetry. apply Hcells. lia.
    - rewrite <- Hh. apply Hwf. }
  assert (Hrd : readRecordHeader s1 (4 + log_size es) = Record_.header record).
  { rewrite <- Hu. exact Hhdr. }
  rewrite (Init_scan_log s1 ltac:(change (mSwapSize s1) with (platSwapSize s); lia) es fuel 4).
  - cbn [bind].
    set (s2 := with_mSwapUsed s1 (4 + log_size es)).
    unfold SanitizeFreeSpace.
    change (mSwapUsed s2) with (4 + log_size es).
    rewrite land_3, Zplus_mod, Hla.
    change ((4 mod 4 + 0) mod 4 =? 0) with true. cbn [negb].
    assert (Hdirty : Sanitize_loop fuel s2 (4 + log_size es) = Done true).
    { destruct fuel as [|fuel]; [lia|]. cbn [Sanitize_loop].
      change (mSwapSize s2) with (platSwapSize s).
      destruct (Z.ltb_spec (4 + log_size es) (platSwapSize s)) as [_|Hge]; [|lia].
      assert (Hw : readWord s2 (4 + log_size es) <> 0xffffffff).
      { unfold readRecordHeader, otPlatFlashRead, read in Hrd.
        change (Z.to_nat RecordHeader.sizeof) with 8%nat in Hrd.
        cbn [seq map RecordHeader.of_bytes] in Hrd.
        unfold readWord, otPlatFlashRead, read.
        change (Z.to_nat 4) with 4%nat. cbn [seq map].
        change (mSwapIndex s2) with (mSwapIndex s1).
        change (platFlash s2) with (platFlash s1).
        set (c0 := platFlash s1 (mSwapIndex s1) (4 + log_size es + Z.of_nat 0)) in *.
        set (c1 := platFlash s1 (mSwapIndex s1) (4 + log_size es + Z.of_nat 1)) in *.
        set (c2 := platFlash s1 (mSwapIndex s1) (4 + log_size es + Z.of_nat 2)) in *.
        set (c3 := platFlash s1 (mSwapIndex s1) (4 + log_size es + Z.of_nat 3)) in *.
        assert (Hkey : le16 c0 c1 = aKey) by exact (f_equal RecordHeader.mKey Hrd).
        assert (Hflags : le16 c2 c3 = if aFirst then 0xfff6 else 0xfffe).
        { rewrite <- (Init_flags aKey aFirst). exact (f_equal RecordHeader.mFlags Hrd). }
        unfold le16, le32 in *. unfold is_u16 in Hk.
        destruct aFirst; lia. }
      apply Z.eqb_neq in Hw. rewrite Hw. reflexivity. }
    rewrite Hdirty. cbn [bind].
    assert (Hf2 : enough fuel s2) by exact Hf.
    destruct (Swap_durable fuel s2 es eq_refl (wf_index _ _ Hwf) eq_refl
                ltac:(change (mSwapSize s2) with (platSwapSize s); change kMinSwapSize with 268; lia)
                Hlog eq_refl
                ltac:(change (mSwapSize s2) with (platSwapSize s);
                      change (mSwapUsed s2) with (4 + log_size es); lia)
                (wf_committed _ _ Hwf) Hf2
                ltac:(change (mSwapSize s2) with (platSwapSize s); rewrite Hp; exact Hal))
      as (s' & Hsw & Hwf' & _ & Hd').
    destruct (Swap_headers fuel s2 es eq_refl (wf_index _ _ Hwf) eq_refl
                ltac:(change (mSwapSize s2) with (platSwapSize s); change kMinSwapSize with 268; lia)
                Hlog eq_refl
                ltac:(change (mSwapSize s2) with (platSwapSize s);
                      change (mSwapUsed s2) with (4 + log_size es); lia)
                (wf_committed _ _ Hwf) Hf2)
      as (s'' & Hsw' & Hidx & _).
    rewrite Hsw in Hsw'. injection Hsw' as <-.
    exists s'. split; [exact Hsw|]. split; [exact Hwf'|]. split; [exact Hd'|exact Hidx].
  - exact Hlog.
  - apply Hwf.
  - lia.
  - change (mSwapSize s1) with (platSwapSize s). lia.
  - intros _. cbv zeta. rewrite Hrd, Hab, Hac. reflexivity.
  - apply (enough_length fuel s es Hwf). exact Hf.
Qed.

Lemma Init_drops_torn_record_witness :
  exists s s',
    wf_store s [new_entry 1 true [0xaa; 0xbb] no_junk; new_entry 2 true [0xcc] no_junk] /\
    Init 268
      (power_cycle
         (otPlatFlashWrite s (mSwapIndex s) (mSwapUsed s)
            (Record_.bytes
               (Record_.mk (RecordHeader.SetLength (RecordHeader.Init 3 true) 1)
                  (Record_.memcpy (Record_.uninitialized no_junk) [9]))
               12))
         0 0 0 0) = Done s' /\
    wf_store s' [new_entry 1 true [0xaa; 0xbb] no_junk; new_entry 2 true [0xcc] no_junk] /\
    mSwapIndex s' = 1 - mSwapIndex s.
Proof.
  destruct sample_store_durable as (s & Hwf & Hf & Hd & Hu & Hs).
  destruct (Init_drops_torn_record 268 s _ 3 true [9] no_junk 0 0 0 0 Hwf Hd Hf)
    as (s' & Hinit & Hwf' & _ & Hidx).
  - unfold is_u16. lia.
  - bytes_ok.
  - cbn. lia.
  - rewrite Hu, Hs. vm_compute. discriminate.
  - exists s, s'. split; [exact Hwf|]. split; [exact Hinit|]. split; [exact Hwf'|exact Hidx].
Defined.

(** ** The flags and the size of a record header *)

Lemma setter_check_AddBegin :
  forall f, is_u16 f -> setter_check RecordHeader.SetAddBeginFlag f = true.
Proof. apply u16_check. vm_compute. reflexivity. Qed.

Lemma setter_check_AddComplete :
  forall f, is_u16 f -> setter_check RecordHeader.SetAddCompleteFlag f = true.
Proof. apply u16_check. vm_compute. reflexivity. Qed.

Lemma setter_check_Deleted :
  forall f, is_u16 f -> setter_check RecordHeader.SetDeleted f = true.
Proof. apply u16_check. vm_compute. reflexivity. Qed.

Lemma setter_check_First :
  forall f, is_u16 f -> setter_check RecordHeader.SetFirst f = true.
Proof. apply u16_check. vm_compute. reflexivity. Qed.

Lemma implb_true (a b : bool) : implb a b = true -> a = true -> b = true.
Proof. destruct a, b; cbn; congruence. Qed.

(** The setters of the flags only clear bits: the header they leave
    differs from the old one in the flags alone, every bit that is 1
    afterwards was 1 before (so the header can be written over the old
    one in the flash), every flag that read as set still does, and a
    header that read as deleted is not valid afterwards. *)
Theorem flag_setters_only_clear (h : RecordHeader.t)
    (set : RecordHeader.t -> RecordHeader.t) :
  is_u16 (RecordHeader.mFlags h) ->
  In set [RecordHeader.SetAddBeginFlag; RecordHeader.SetAddCompleteFlag;
          RecordHeader.SetDeleted; RecordHeader.SetFirst] ->
  RecordHeader.mKey (set h) = RecordHeader.mKey h /\
  RecordHeader.mLength (set h) = RecordHeader.mLength h /\
  RecordHeader.mReserved (set h) = RecordHeader.mReserved h /\
  is_u16 (RecordHeader.mFlags (set h)) /\
  Z.land (RecordHeader.mFlags h) (RecordHeader.mFlags (set h)) = RecordHeader.mFlags (set h) /\
  (RecordHeader.IsAddBeginSet h = true -> RecordHeader.IsAddBeginSet (set h) = true) /\
  (RecordHeader.IsAddCompleteSet h = true -> RecordHeader.IsAddCompleteSet (set h) = true) /\
  (RecordHeader.IsDeleted h = true -> RecordHeader.IsDeleted (set h) = true) /\
  (RecordHeader.IsFirst h = true -> RecordHeader.IsFirst (set h) = true) /\
  (RecordHeader.IsDeleted h = true -> RecordHeader.IsValid (set h) = false).
Proof.
  intros Hf Hin.
  assert (Hc : setter_check set (RecordHeader.mFlags h) = true /\
               set h = RecordHeader.with_flags h
                         (RecordHeader.mFlags (set (RecordHeader.mk 0 (RecordHeader.mFlags h) 0 0)))).
  { cbn [In] in Hin. destruct Hin as [<- | [<- | [<- | [<- | []]]]].
    - split; [apply setter_check_AddBegin; exact Hf|reflexivity].
    - split; [apply setter_check_AddComplete; exact Hf|reflexivity].
    - split; [apply setter_check_Deleted; exact Hf|reflexivity].
    - split; [apply setter_check_First; exact Hf|reflexivity]. }
  destruct Hc as [Hc Hset]. rewrite Hset. clear Hset.
  destruct h as [k f l r]. cbn [RecordHeader.mFlags] in *.
  unfold setter_check in Hc. cbv zeta in Hc.
  set (f' := RecordHeader.mFlags (set (RecordHeader.mk 0 f 0 0))) in *.
  rewrite !andb_true_iff in Hc.
  destruct Hc as ((((((Hb & Hand) & H1) & H2) & H3) & H4) & H5).
  apply flag_byte_and_spec in Hb. destruct Hb as (Hu & _).
  apply Z.eqb_eq in Hand.
  unfold RecordHeader.with_flags.
  cbn [RecordHeader.mKey RecordHeader.mFlags RecordHeader.mLength RecordHeader.mReserved].
  split; [reflexivity|]. split; [reflexivity|]. split; [reflexivity|].
  split; [exact Hu|]. split; [exact Hand|].
  split; [exact (implb_true _ _ H1)|]. split; [exact (implb_true _ _ H2)|].
  split; [exact (implb_true _ _ H3)|]. split; [exact (implb_true _ _ H4)|].
  intros Hd. pose proof (implb_true _ _ H5 Hd) as Hn.
  apply negb_true_iff in Hn. exact Hn.
Qed.

Lemma flag_setters_only_clear_witness :
  RecordHeader.IsValid
    (RecordHeader.SetFirst (RecordHeader.SetDeleted (RecordHeader.mk 7 0xfffc 2 0xffff)))
  = false.
Proof.
  apply (flag_setters_only_clear (RecordHeader.SetDeleted (RecordHeader.mk 7 0xfffc 2 0xffff))
           RecordHeader.SetFirst).
  - vm_compute. split; [discriminate|reflexivity].
  - cbn [In]. right. right. right. left. reflexivity.
  - reflexivity.
Defined.

Lemma GetSize_check_all : forall len, is_u16 len -> GetSize_check len = true.
Proof. apply u16_check. vm_compute. reflexivity. Qed.

(** [GetSize] rounds up and wraps: for a length up to 0xfff4 it is 8
    plus the length rounded up to a multiple of 4; for a larger length
    the 16-bit result wraps to 0, 4 or 8, less than the header and the
    data, and it is 0 exactly for the lengths 0xfff5 .. 0xfff8. *)
Theorem GetSize_rounds_and_wraps (h : RecordHeader.t) :
  is_u16 (RecordHeader.mLength h) ->
  (RecordHeader.mLength h <= 0xfff4 ->
   RecordHeader.GetSize h = RecordSize (RecordHeader.mLength h) /\
   RecordHeader.GetSize h mod 4 = 0 /\
   8 + RecordHeader.mLength h <= RecordHeader.GetSize h < 12 + RecordHeader.mLength h) /\
  (0xfff4 < RecordHeader.mLength h ->
   (RecordHeader.GetSize h = 0 \/ RecordHeader.GetSize h = 4 \/ RecordHeader.GetSize h = 8) /\
   (RecordHeader.GetSize h = 0 <-> RecordHeader.mLength h <= 0xfff8)).
Proof.
  intros Hl. pose proof (GetSize_check_all _ Hl) as Hc.
  destruct h as [k f l r]. cbn [RecordHeader.mLength] in *.
  unfold GetSize_check in Hc. cbv zeta in Hc.
  change (RecordHeader.GetSize (RecordHeader.mk 0 0 l 0))
    with (RecordHeader.GetSize (RecordHeader.mk k f l r)) in Hc.
  set (g := RecordHeader.GetSize (RecordHeader.mk k f l r)) in *.
  split.
  - intros Hsmall. destruct (Z.leb_spec l 0xfff4) as [_|Hgt]; [|lia].
    rewrite !andb_true_iff in Hc. destruct Hc as (((H1 & H2) & H3) & H4).
    apply Z.eqb_eq in H1, H2. apply Z.leb_le in H3. apply Z.ltb_lt in H4.
    split; [exact H1|]. split; [exact H2|lia].
  - intros Hbig. destruct (Z.leb_spec l 0xfff4) as [Hle|_]; [lia|].
    destruct (Z.leb_spec l 0xfff8) as [Hle|Hgt].
    + apply Z.eqb_eq in Hc. rewrite Hc. split; [left; reflexivity|].
      split; intros _; [exact Hle|reflexivity].
    + apply orb_true_iff in Hc. rewrite !Z.eqb_eq in Hc.
      split; [right; exact Hc|]. split; intros H; lia.
Qed.

Lemma GetSize_rounds_and_wraps_witness :
  RecordHeader.GetSize (RecordHeader.mk 7 0xfffc 5 0xffff) = 16 /\
  RecordHeader.GetSize (RecordHeader.mk 7 0xfffc 0xfff6 0xffff) = 0.
Proof.
  split.
  - apply (GetSize_rounds_and_wraps (RecordHeader.mk 7 0xfffc 5 0xffff)).
    + vm_compute. split; [discriminate|reflexivity].
    + vm_compute. discriminate.
  - apply (GetSize_rounds_and_wraps (RecordHeader.mk 7 0xfffc 0xfff6 0xffff)).
    + vm_compute. split; [discriminate|reflexivity].
    + reflexivity.
    + vm_compute. discriminate.
Defined.

(** ** A header whose size wraps to 0 *)

Lemma Get_loop_spins (s : Flash) (aKey aIndex : Z) (aValueLength : option Z) (offset : Z) :
  0 <= offset < 4294967296 -> offset < mSwapUsed s ->
  RecordHeader.GetSize (readRecordHeader s offset) = 0 ->
  forall fuel l, Get_loop fuel s aKey aIndex aValueLength offset l = OutOfFuel.
Proof.
  intros Hoff Hu Hg. induction fuel as [|fuel IH]; intros l; [reflexivity|].
  cbn [Get_loop]. destruct (Z.ltb_spec offset (mSwapUsed s)); [|lia].
  rewrite Hg, Z.add_0_r, wrap32_small by lia. apply IH.
Qed.

(** [Get] does not return when the first record header of the swap area
    holds a length from 0xfff5 to 0xfff8: [GetSize] is 0 there, so the
    loop reads the same header again and again, whatever the key and the
    index asked for. *)
Theorem Get_hangs_on_wrapped_size (s : Flash) (aKey aIndex : Z)
    (aValue : option (list Z)) (aValueLength : option Z) :
  0 <= mSwapHeaderSize s < 4294967296 -> mSwapHeaderSize s < mSwapUsed s ->
  0xfff5 <= RecordHeader.mLength (readRecordHeader s (mSwapHeaderSize s)) <= 0xfff8 ->
  forall fuel, Get fuel s aKey aIndex aValue aValueLength = OutOfFuel.
Proof.
  intros Hh Hu Hlen fuel.
  assert (Hu16 : is_u16 (RecordHeader.mLength (readRecordHeader s (mSwapHeaderSize s))))
    by (unfold is_u16; lia).
  pose proof (GetSize_check_all _ Hu16) as Hc.
  unfold GetSize_check in Hc. cbv zeta in Hc.
  destruct (Z.leb_spec (RecordHeader.mLength (readRecordHeader s (mSwapHeaderSize s))) 0xfff4);
    [lia|].
  destruct (Z.leb_spec (RecordHeader.mLength (readRecordHeader s (mSwapHeaderSize s))) 0xfff8);
    [|lia].
  apply Z.eqb_eq in Hc.
  unfold Get. rewrite Get_loop_spins; [reflexivity|exact Hh|exact Hu|].
  destruct (readRecordHeader s (mSwapHeaderSize s)) as [k f l r]. exact Hc.
Qed.

Lemma Get_hangs_on_wrapped_size_witness :
  Get 1000 (mkFlash 268 (fun _ o => if o =? 8 then 0xf5 else 0xff) 268 12 0 4) 7 0 None None
  = OutOfFuel.
Proof.
  apply (Get_hangs_on_wrapped_size
           (mkFlash 268 (fun _ o => if o =? 8 then 0xf5 else 0xff) 268 12 0 4)).
  - vm_compute. split; [discriminate|reflexivity].
  - reflexivity.
  - vm_compute. split; discriminate.
Defined.

(** ** [Delete] after [Delete] *)

(** [Delete(key, -1)] is idempotent: once it has run, a further [Delete]
    of the key, with any index, returns NotFound and leaves the state as
    it is. *)
Theorem Delete_all_idempotent (fuel : nat) (s : Flash) (es : list entry) (aKey : Z) :
  wf_store s es -> enough fuel s ->
  exists error s',
    Delete fuel s aKey (-1) = Done (error, s') /\
    forall aIndex, Delete fuel s' aKey aIndex = Done (OT_ERROR_NOT_FOUND, s').
Proof.
  intros Hwf Hf.
  destruct (Delete_wf_driver fuel s es aKey (-1) Hwf Hf) as (s' & Hdel & Hwf' & Hsd).
  pose proof (log_at_flags _ _ _ (wf_log s es Hwf)) as Hfl.
  pose proof (Delete_list_all aKey es 0 OT_ERROR_NOT_FOUND Hfl) as Hno.
  destruct Hsd as (Hp' & _).
  assert (Hf' : enough fuel s') by (unfold enough in *; rewrite Hp'; exact Hf).
  eexists. exists s'. split; [exact Hdel|]. intros aIndex.
  pose proof (wf_store_bounds _ _ Hwf') as (Hh & Hls & Hu & Hfit & Hsz & Hn & Hp).
  unfold Delete.
  apply (Delete_loop_dead aKey aIndex s' ltac:(lia)
           (fst (Delete_list aKey (-1) es 0 OT_ERROR_NOT_FOUND))).
  - apply Hwf'.
  - lia.
  - lia.
  - exact Hno.
  - apply (enough_length fuel s' _ Hwf' Hf').
Qed.

Lemma Delete_all_idempotent_witness :
  exists s error s',
    wf_store s [new_entry 1 true [0xaa; 0xbb] no_junk; new_entry 2 true [0xcc] no_junk] /\
    Delete 268 s 1 (-1) = Done (error, s') /\
    Delete 268 s' 1 0 = Done (OT_ERROR_NOT_FOUND, s').
Proof.
  destruct sample_store as (s & Hwf & Hf & _).
  destruct (Delete_all_idempotent 268 s _ 1 Hwf Hf) as (error & s' & Hdel & Hagain).
  exists s, error, s'. split; [exact Hwf|]. split; [exact Hdel|apply Hagain].
Defined.

(** ** [Add] on a key that has values *)

(** The counter of [Get] behind the log is the length of the newest
    chain of the key. *)
Lemma Get_list_count (aKey aIndex : Z) (aValueLength : option Z) (es : list entry)
    (l : GetLocals) :
  gIndex l = 0 ->
  gIndex (Get_list aKey aIndex aValueLength es l) = Z.of_nat (length (newest_chain aKey es)).
Proof.
  intros H0. destruct (newest_chain aKey es) as [|e c] eqn:Hc.
  - destruct (has_valid aKey es) eqn:Hv.
    + destruct (newest_chain_nonempty aKey es Hv) as [x Hx]. rewrite Hc in Hx. discriminate.
    + rewrite (Get_list_skip _ _ _ _ _ Hv). exact H0.
  - destruct (newest_chain_split aKey es e c Hc) as (pre & es' & -> & -> & Hl & Hs & Hfirst).
    rewrite Get_list_app, Get_list_cons, (Get_body_live _ _ _ _ _ Hl). cbv zeta.
    set (lp := Get_list aKey aIndex aValueLength pre l).
    assert (Hi0 : (if RecordHeader.IsFirst (eHeader e) then 0 else gIndex lp) = 0).
    { destruct Hfirst as [Hf|Hnv]; [rewrite Hf; reflexivity|].
      unfold lp. rewrite (Get_list_skip _ _ _ _ _ Hnv), H0.
      destruct (RecordHeader.IsFirst (eHeader e)); reflexivity. }
    rewrite Hi0.
    destruct (0 =? aIndex);
      match goal with
      | |- gIndex (Get_list _ _ _ _ ?l') = _ =>
          destruct (Get_list_stretch aKey aIndex aValueLength es' l' Hs) as (Hidx & _);
          rewrite Hidx; cbn [gIndex length]; lia
      end.
Qed.

(** [Add] appends to the chain of its key: with room for the record it
    returns OK, the new value is found at the index that is the length
    of the newest chain of the key (0 when the key has no valid record),
    and [Get] answers as before at every other index of the key. *)
Theorem Add_appends_at_count (fuel : nat) (s : Flash) (es : list entry) (aKey : Z)
    (aValue : list Z) (junk : nat -> Z) :
  wf_store s es -> enough fuel s -> is_u16 aKey -> Forall is_byte aValue ->
  Z.of_nat (length aValue) <= 256 ->
  mSwapUsed s + RecordSize (Z.of_nat (length aValue)) <= mSwapSize s ->
  let n := Z.of_nat (length (newest_chain aKey es)) in
  exists s',
    AddAppend fuel s aKey aValue junk = Done (OT_ERROR_NONE, s') /\
    (forall buf maxLength,
       exists rest,
         Get fuel s' aKey n (Some buf) (Some maxLength) =
         Done (OT_ERROR_NONE,
               Some (firstn (Z.to_nat (Z.min maxLength (Z.of_nat (length aValue)))) aValue
                     ++ rest),
               Some (Z.of_nat (length aValue)))) /\
    (forall aIndex aValue' aValueLength,
       aIndex <> n ->
       Get fuel s' aKey aIndex aValue' aValueLength =
       Get fuel s aKey aIndex aValue' aValueLength).
Proof.
  intros Hwf Hf Hk Hv Hl Hfit n.
  unfold AddAppend. rewrite (Get_log fuel s es aKey 0 None None Hwf Hf). cbv zeta.
  cbn [bind fst].
  rewrite Get_list_probe by reflexivity.
  set (first := otError_eqb (if has_valid aKey es then OT_ERROR_NONE else OT_ERROR_NOT_FOUND)
                  OT_ERROR_NOT_FOUND).
  assert (Hfirst : first = negb (has_valid aKey es))
    by (unfold first; destruct (has_valid aKey es); reflexivity).
  destruct (Add_cases fuel s es aKey first aValue junk Hwf Hf Hk Hv Hl) as [Hroom _].
  destruct (Hroom Hfit) as (Hadd & Hwf' & _).
  assert (Hidx : forall aIndex aValueLength l, gIndex l = 0 ->
            (if first then 0 else gIndex (Get_list aKey aIndex aValueLength es l)) = n).
  { intros aIndex aValueLength l H0.
    pose proof (Get_list_count aKey aIndex aValueLength es l H0) as Hc. fold n in Hc.
    destruct first; [|exact Hc].
    symmetry in Hfirst. apply negb_true_iff in Hfirst.
    rewrite (Get_list_skip _ _ _ _ _ Hfirst) in Hc. lia. }
  eexists. split; [exact Hadd|]. split.
  - intros buf maxLength.
    rewrite (Get_log fuel _ _ aKey n _ _ Hwf' Hf). cbv zeta.
    rewrite Get_list_app. cbn [Get_list fold_left]. rewrite Get_body_new. cbv zeta.
    rewrite Hidx by reflexivity. rewrite Z.eqb_refl. cbn [gError gValue gValueLength].
    destruct (Get_list_buffer aKey n (Some maxLength) es
                (mkGet OT_ERROR_NOT_FOUND 0 0 (Some buf))) as [b Hb]; [eexists; reflexivity|].
    rewrite Hb. unfold copy_out, Record_.memcpy. eexists. reflexivity.
  - intros aIndex aValue' aValueLength Hne.
    rewrite (Get_log fuel _ _ aKey aIndex _ _ Hwf' Hf), (Get_log fuel s es aKey aIndex _ _ Hwf Hf).
    cbv zeta.
    rewrite Get_list_app. cbn [Get_list fold_left]. rewrite Get_body_new. cbv zeta.
    rewrite Hidx by reflexivity.
    destruct (Z.eqb_spec n aIndex) as [Heq|_]; [congruence|].
    reflexivity.
Qed.

Lemma Add_appends_at_count_witness :
  exists s s' rest,
    wf_store s [new_entry 1 true [0xaa; 0xbb] no_junk; new_entry 2 true [0xcc] no_junk] /\
    AddAppend 268 s 1 [5; 6; 7] no_junk = Done (OT_ERROR_NONE, s') /\
    Get 268 s' 1 1 (Some [0; 0; 0]) (Some 3) = Done (OT_ERROR_NONE, Some ([5; 6; 7] ++ rest), Some 3) /\
    Get 268 s' 1 0 None None = Get 268 s 1 0 None None.
Proof.
  destruct sample_store as (s & Hwf & Hf & Hu & Hs).
  destruct (Add_appends_at_count 268 s _ 1 [5; 6; 7] no_junk Hwf Hf)
    as (s' & Hadd & Hnew & Hold).
  - unfold is_u16. lia.
  - bytes_ok.
  - cbn. lia.
  - rewrite Hu, Hs. vm_compute. discriminate.
  - destruct (Hnew [0; 0; 0] 3) as [rest Hget].
    exists s, s', rest. split; [exact Hwf|]. split; [exact Hadd|]. split; [exact Hget|].
    apply Hold. vm_compute. discriminate.
Defined.

(** ** The assertions of [Add] *)

Lemma Add_oversize (fuel : nat) (s : Flash) (aKey : Z) (aFirst : bool) (aValue : list Z)
    (junk : nat -> Z) :
  256 < Z.of_nat (length aValue) ->
  Add fuel s aKey aFirst aValue junk = AssertFailed.
Proof.
  intros Hl. unfold Add, Record_.SetData, Record_.kMaxDataSize. cbv zeta.
  destruct (Z.leb_spec (Z.of_nat (length aValue)) 256); [lia|]. reflexivity.
Qed.

(** [Set] and [Add] stop on an assertion exactly when the value is
    longer than 256 bytes. *)
Theorem Set_Add_abort_iff_oversize (fuel : nat) (s : Flash) (es : list entry) (aKey : Z)
    (aValue : list Z) (junk : nat -> Z) :
  wf_store s es -> enough fuel s -> is_u16 aKey -> Forall is_byte aValue ->
  (Set_ fuel s aKey aValue junk = AssertFailed <-> 256 < Z.of_nat (length aValue)) /\
  (AddAppend fuel s aKey aValue junk = AssertFailed <-> 256 < Z.of_nat (length aValue)).
Proof.
  intros Hwf Hf Hk Hv.
  destruct (public_operations_return fuel s es Hwf Hf) as (_ & Hadd & _).
  split; split.
  - intros Hrun. destruct (Z.lt_ge_cases 256 (Z.of_nat (length aValue))) as [Hgt|Hle];
      [exact Hgt|].
    destruct (Hadd aKey aValue junk Hk Hv ltac:(lia)) as [[r Hr] _].
    rewrite Hr in Hrun. discriminate.
  - intros Hl. apply Add_oversize. exact Hl.
  - intros Hrun. destruct (Z.lt_ge_cases 256 (Z.of_nat (length aValue))) as [Hgt|Hle];
      [exact Hgt|].
    destruct (Hadd aKey aValue junk Hk Hv ltac:(lia)) as [_ [r Hr]].
    rewrite Hr in Hrun. discriminate.
  - intros Hl. unfold AddAppend.
    rewrite (Get_log fuel s es aKey 0 None None Hwf Hf). cbv zeta. cbn [bind].
    apply Add_oversize. exact Hl.
Qed.

Lemma Set_Add_abort_iff_oversize_witness :
  Set_ 268 fresh 7 (repeat 0 257) no_junk = AssertFailed.
Proof.
  apply (Set_Add_abort_iff_oversize 268 fresh [] 7 (repeat 0 257) no_junk fresh_wf enough_fresh).
  - unfold is_u16. lia.
  - apply Forall_forall. intros x Hx. apply repeat_spec in Hx. subst x. unfold is_byte. lia.
  - rewrite repeat_length. lia.
Defined.

(** The first assertion of [Add] does not guard a swap area that is
    smaller than the record: the unsigned difference
    [mSwapSize - GetSize()] wraps, the assertion and the space check
    both pass, [Swap] is not called, and [Add] returns OK with the write
    frontier behind the end of the swap area. *)
Theorem Add_overruns_small_swap (fuel : nat) (s : Flash) (aKey : Z) (aFirst : bool)
    (aValue : list Z) (junk : nat -> Z) :
  Z.of_nat (length aValue) <= 256 ->
  0 <= mSwapSize s < RecordSize (Z.of_nat (length aValue)) ->
  0 <= mSwapHeaderSize s <= mSwapUsed s -> mSwapUsed s <= mSwapSize s ->
  exists s',
    Add fuel s aKey aFirst aValue junk = Done (OT_ERROR_NONE, s') /\
    mSwapUsed s' = mSwapUsed s + RecordSize (Z.of_nat (length aValue)) /\
    mSwapSize s' < mSwapUsed s' /\
    mSwapIndex s' = mSwapIndex s.
Proof.
  intros Hl Hsz Hh Hu.
  pose proof (padded_bounds (Z.of_nat (length aValue)) ltac:(lia)) as [Hp0 Hp1].
  assert (Hrs : 8 <= RecordSize (Z.of_nat (length aValue)) <= 264).
  { unfold RecordSize, padded in *.
    pose proof (Z.div_mod (Z.of_nat (length aValue) + 3) 4).
    pose proof (Z.mod_pos_bound (Z.of_nat (length aValue) + 3) 4). lia. }
  unfold Add, Record_.SetData, Record_.kMaxDataSize. cbv zeta.
  destruct (Z.leb_spec (Z.of_nat (length aValue)) 256); [|lia].
  cbn [OT_ASSERT bind Record_.header].
  rewrite GetSize_RecordSize
    by (cbn [RecordHeader.mLength RecordHeader.SetLength]; unfold Record_.kMaxDataSize; lia).
  cbn [RecordHeader.mLength RecordHeader.SetLength].
  assert (Hw : wrap32 (mSwapSize s - RecordSize (Z.of_nat (length aValue)))
               = mSwapSize s - RecordSize (Z.of_nat (length aValue)) + 4294967296).
  { unfold wrap32.
    rewrite <- (Z_mod_plus_full _ 1 4294967296). apply Z.mod_small. lia. }
  rewrite Hw.
  destruct (Z.geb_spec (mSwapSize s - RecordSize (Z.of_nat (length aValue)) + 4294967296)
              (mSwapHeaderSize s)); [|lia].
  cbn [OT_ASSERT bind].
  destruct (Z.ltb_spec (mSwapSize s - RecordSize (Z.of_nat (length aValue)) + 4294967296)
              (mSwapUsed s)); [lia|].
  cbn [bind]. eexists. split; [reflexivity|].
  unfold Add_write. cbn [mSwapUsed mSwapSize mSwapIndex with_mSwapUsed Record_.header].
  rewrite GetSize_RecordSize
    by (cbn [RecordHeader.mLength RecordHeader.SetLength]; unfold Record_.kMaxDataSize; lia).
  cbn [RecordHeader.mLength RecordHeader.SetLength].
  cbn [mSwapUsed mSwapSize mSwapIndex otPlatFlashWrite with_flash].
  rewrite wrap32_small by lia.
  split; [reflexivity|]. split; [lia|reflexivity].
Qed.

Lemma Add_overruns_small_swap_witness :
  exists s',
    Add 0 (mkFlash 16 (fun _ _ => 0xff) 16 4 0 4) 7 true (repeat 0 20) no_junk
    = Done (OT_ERROR_NONE, s') /\
    mSwapUsed s' = 32 /\ mSwapSize s' = 16.
Proof.
  destruct (Add_overruns_small_swap 0 (mkFlash 16 (fun _ _ => 0xff) 16 4 0 4) 7 true
              (repeat 0 20) no_junk) as (s' & Hadd & Hu & _ & _).
  - rewrite repeat_length. lia.
  - rewrite repeat_length. vm_compute. split; [discriminate|reflexivity].
  - vm_compute. split; discriminate.
  - vm_compute. discriminate.
  - exists s'. split; [exact Hadd|]. split; [exact Hu|].
    injection Hadd as <-. reflexivity.
Defined.

(** ** The cells of the flash are bytes *)







(** ** The stores of the scenarios *)



(** ** [Init]: the swap area and the write frontier it returns *)




(** ** [Get] with a negative index, on the stores of the driver *)



